(** * rx888_stream: a shallow embedding of [rx888_stream.c]

    The development follows the source file top-down:

    - [Sample]   : the output-randomizer reversal applied to a completed
                   buffer inside [transfer_callback];
    - [Pipeline] : [transfer_callback], [sig_stop], the submission loop, the
                   event loop and the drain loop of [main], run against a
                   model of the libusb transfer queue;
    - [Double]   : the arithmetic of [double] that [actual_freq] uses;
    - [Clock]    : [actual_freq];
    - [Options]  : the [getopt_long] loop at the head of [main];
    - [Startup]  : the allocation of the transfer pool in [main] and
                   [free_transfer_buffers];
    - [Bringup]  : the device search at the label [search] in [main].

    Integers are [Z] with the C conversions written out; a [double] is the
    rational it denotes, with the rounding of IEEE 754 written out; buffers
    are lists of bytes; everything the program sends to the outside world
    (stderr, stdout, libusb, the vendor commands) is recorded in one
    trace. *)

From Stdlib Require Import ZArith Lia QArith Qabs Qround Qpower Lqa Ascii.
From Stdlib Require Import SpecFloat.
From stdpp Require Import base list numbers strings.
From coqutil Require Import Byte Word.LittleEndianList.

Local Open Scope Z_scope.

(** * Part I: the program *)

(** ** Fixed-width integers *)

Definition uint8 (z : Z) : Z := z mod 2 ^ 8.
Definition uint16 (z : Z) : Z := z mod 2 ^ 16.
Definition uint32 (z : Z) : Z := z mod 2 ^ 32.
(** Conversion to [int] (two's complement, as gcc and clang define it). *)
Definition sint32 (z : Z) : Z := (z + 2 ^ 31) mod 2 ^ 32 - 2 ^ 31.

(** ** The sample post-processor (inside [transfer_callback]) *)

Module Sample.

(** [transfer->buffer], an array of [unsigned char]. *)
Abbreviation buffer := (list byte).

(** [samples[i]], where [samples] is [transfer->buffer] read as an array of
    [uint16_t] on a little-endian host.  Reading past the end of the buffer
    is undefined in C; the model reads 0 there and the theorems only speak
    about indices inside the buffer. *)
Definition load16 (buf : buffer) (i : nat) : Z :=
  match buf !! (2 * i)%nat, buf !! (2 * i + 1)%nat with
  | Some lo, Some hi => le_combine [lo; hi]
  | _, _ => 0
  end.

(** [samples[i] = v]: the low byte goes to offset [2i], the high byte to
    offset [2i+1]. *)
Definition store16 (buf : buffer) (i : nat) (v : Z) : buffer :=
  <[(2 * i + 1)%nat := byte.of_Z (v / 256)]>
    (<[(2 * i)%nat := byte.of_Z v]> buf).

(** [samples[i] ^= 0xfffe * (samples[i] & 1)]: the right-hand side is
    computed in [int], the result is converted back to [uint16_t]. *)
Definition unrandomize (s : Z) : Z :=
  uint16 (Z.lxor s (0xfffe * Z.land s 1)).

(** [for (int i = 0; i < size / 2; i++) ...] with [n] iterations left and
    the loop variable at [i]. *)
Fixpoint derandomize_loop (n : nat) (i : nat) (buf : buffer) : buffer :=
  match n with
  | O => buf
  | S n' =>
      derandomize_loop n' (S i) (store16 buf i (unrandomize (load16 buf i)))
  end.

(** The body of [if (randomizer) { ... }] for [size = actual_length]; the C
    division [size / 2] truncates toward zero. *)
Definition derandomize (size : Z) (buf : buffer) : buffer :=
  derandomize_loop (Z.to_nat (Z.quot size 2)) 0 buf.

End Sample.

(** ** The transfer pipeline *)

Module Pipeline.

(** [enum libusb_transfer_status]. *)
Inductive transfer_status :=
| LIBUSB_TRANSFER_COMPLETED
| LIBUSB_TRANSFER_ERROR
| LIBUSB_TRANSFER_TIMED_OUT
| LIBUSB_TRANSFER_CANCELLED
| LIBUSB_TRANSFER_STALL
| LIBUSB_TRANSFER_NO_DEVICE
| LIBUSB_TRANSFER_OVERFLOW.

Definition completed (s : transfer_status) : bool :=
  match s with LIBUSB_TRANSFER_COMPLETED => true | _ => false end.

(** Who holds [transfers[i]]: the program, or libusb and the hardware. *)
Inductive slot_state := Idle | Submitted.

Definition is_submitted (s : slot_state) : bool :=
  match s with Submitted => true | Idle => false end.

(** The vendor requests sent with [command_send] and [argument_send]. *)
Inductive vendor_op :=
| GPIOFX3 | DAT31_ATT | AD8340_VGA | STARTADC | STARTFX3 | TUNERSTDBY | STOPFX3.

(** The lines the transfer phase prints on stderr. *)
Inductive message :=
| MsgAbort                                            (* sig_stop *)
| MsgTransferStatus (s : transfer_status) (len : Z)   (* failed transfer *)
| MsgWriteError                                       (* write returned < 0 *)
| MsgTestComplete
| MsgPending (n : Z)
| MsgTransfersCompleted.

(** Everything the program does to the outside world, in program order. *)
Inductive io :=
| Stderr (m : message)
| Write (data : list byte) (ret : Z)
    (* write(STDOUT_FILENO, data, length data) returned ret *)
| Submit (slot : nat) (ret : Z)
    (* libusb_submit_transfer(transfers[slot]) returned ret *)
| Command (op : vendor_op) (arg : Z)
| Usleep (us : Z).

(** The globals of the program that the transfer phase reads or writes,
    libusb's view of the transfer array ([usb]) and the trace. *)
Record state := State {
  queuedepth : nat;
  randomizer : bool;
  xfers_in_progress : Z;      (* volatile int *)
  stop_transfers : bool;      (* volatile bool *)
  success_count : Z;          (* unsigned int *)
  failure_count : Z;          (* unsigned int *)
  usb : list slot_state;
  trace : list io
}.

Definition emit (e : io) (st : state) : state :=
  State (queuedepth st) (randomizer st) (xfers_in_progress st)
    (stop_transfers st) (success_count st) (failure_count st) (usb st)
    (trace st ++ [e]).

Definition set_xfers_in_progress (v : Z) (st : state) : state :=
  State (queuedepth st) (randomizer st) v (stop_transfers st)
    (success_count st) (failure_count st) (usb st) (trace st).

Definition set_stop_transfers (v : bool) (st : state) : state :=
  State (queuedepth st) (randomizer st) (xfers_in_progress st) v
    (success_count st) (failure_count st) (usb st) (trace st).

Definition set_success_count (v : Z) (st : state) : state :=
  State (queuedepth st) (randomizer st) (xfers_in_progress st)
    (stop_transfers st) v (failure_count st) (usb st) (trace st).

Definition set_failure_count (v : Z) (st : state) : state :=
  State (queuedepth st) (randomizer st) (xfers_in_progress st)
    (stop_transfers st) (success_count st) v (usb st) (trace st).

Definition set_usb (v : list slot_state) (st : state) : state :=
  State (queuedepth st) (randomizer st) (xfers_in_progress st)
    (stop_transfers st) (success_count st) (failure_count st) v (trace st).

(** *** libusb *)

Definition LIBUSB_ERROR_BUSY : Z := -6.
Definition LIBUSB_ERROR_NOT_FOUND : Z := -5.

(** [libusb_submit_transfer(transfers[i])].  [r] is the answer of the host
    controller (0 or a negative error); a transfer that is already in
    flight is refused with [LIBUSB_ERROR_BUSY].  Returns the result seen by
    the program and the new owner table. *)
Definition libusb_submit_transfer (i : nat) (r : Z) (slots : list slot_state)
  : Z * list slot_state :=
  match slots !! i with
  | Some Idle => if r =? 0 then (0, <[i := Submitted]> slots) else (r, slots)
  | Some Submitted => (LIBUSB_ERROR_BUSY, slots)
  | None => (LIBUSB_ERROR_NOT_FOUND, slots)
  end.

(** What the environment decides about one completed transfer: which
    transfer it is, its status, the bytes the hardware left in the buffer
    and how many of them are valid, what [write] will answer, whether a
    signal that [sig_stop] handles is delivered while [write] runs, and what
    the host controller will answer to a resubmission.

    [main] installs [sig_stop] for SIGINT, SIGTERM and SIGPIPE.  A [write]
    to a pipe whose reader has gone raises SIGPIPE in the writer: the
    handler runs before [write] returns, and [write] returns -1 (EPIPE).
    That is [c_write_signal = true] with [c_write_ret = -1]; the same field
    stands for a SIGINT or SIGTERM that arrives while [write] blocks. *)
Record completion := Completion {
  c_slot : nat;
  c_status : transfer_status;
  c_buffer : Sample.buffer;
  c_actual_length : Z;
  c_write_ret : Z;
  c_write_signal : bool;
  c_submit_ret : Z
}.

(** [if (!stop_transfers) { if (libusb_submit_transfer(transfer) == 0)
    xfers_in_progress++; }] *)
Definition resubmit (c : completion) (st : state) : state :=
  if stop_transfers st then st
  else
    let '(ret, slots) :=
      libusb_submit_transfer (c_slot c) (c_submit_ret c) (usb st) in
    let st := emit (Submit (c_slot c) ret) (set_usb slots st) in
    if ret =? 0 then set_xfers_in_progress (xfers_in_progress st + 1) st
    else st.

(** The bytes handed to [write]: the first [actual_length] bytes of the
    buffer, after the randomizer has been undone when it is enabled. *)
Definition processed (c : completion) (st : state) : list byte :=
  let size := c_actual_length c in
  let buf := if randomizer st then Sample.derandomize size (c_buffer c)
             else c_buffer c in
  take (Z.to_nat size) buf.

(** [static void sig_stop(int signum)] *)
Definition sig_stop (st : state) : state :=
  set_stop_transfers true (emit (Stderr MsgAbort) st).

(** [ret = write(STDOUT_FILENO, transfer->buffer, transfer->actual_length)]:
    the call is recorded with its result; a signal delivered during the call
    runs [sig_stop] before [write] returns. *)
Definition write (c : completion) (data : list byte) (st : state)
  : Z * state :=
  let st := emit (Write data (c_write_ret c)) st in
  (c_write_ret c, if c_write_signal c then sig_stop st else st).

(** [static void transfer_callback(struct libusb_transfer *transfer)] *)
Definition transfer_callback (c : completion) (st : state) : state :=
  let st := set_xfers_in_progress (xfers_in_progress st - 1) st in
  let st :=
    if negb (completed (c_status c)) then
      let st := set_failure_count (uint32 (failure_count st + 1)) st in
      emit (Stderr (MsgTransferStatus (c_status c) (c_actual_length c))) st
    else
      let st := set_success_count (uint32 (success_count st + 1)) st in
      let '(ret, st) := write c (processed c st) st in
      if ret <? 0 then emit (Stderr MsgWriteError) st else st
  in
  resubmit c st.

(** What can happen inside one call of [libusb_handle_events]: a transfer
    completes, or a signal (SIGINT, SIGTERM, SIGPIPE) is delivered outside
    [write].  The callback reads [stop_transfers] once, after [write], so a
    signal delivered elsewhere inside the callback acts as one delivered
    just before or just after it. *)
Inductive event :=
| Complete (c : completion)
| Signal.

(** libusb takes a completed transfer out of flight and calls its callback;
    it has nothing to report about a transfer that is not in flight. *)
Definition deliver (e : event) (st : state) : state :=
  match e with
  | Signal => sig_stop st
  | Complete c =>
      match usb st !! c_slot c with
      | Some Submitted =>
          transfer_callback c (set_usb (<[c_slot c := Idle]> (usb st)) st)
      | _ => st
      end
  end.

(** *** The transfer phase of [main] *)

(** The settings [main] sends to the device, fixed by the option loop. *)
Record device_config := DeviceConfig {
  dither : bool;
  att : Z;
  gain : Z;
  samplerate : Z
}.

Definition initial (q : nat) (rnd : bool) : state :=
  State q rnd 0 false 0 0 (replicate q Idle) [].

(** One iteration of the loop that fills and submits [transfers[i]]:
    [rStatus = libusb_submit_transfer(transfers[i]);
     if (rStatus == 0) xfers_in_progress++;] *)
Definition submit_iteration (i : nat) (r : Z) (st : state) : state :=
  let '(ret, slots) := libusb_submit_transfer i r (usb st) in
  let st := emit (Submit i ret) (set_usb slots st) in
  if ret =? 0 then set_xfers_in_progress (xfers_in_progress st + 1) st
  else st.

(** Where [main] is between two interactions with its environment. *)
Inductive pc :=
| Submitting (i : nat)  (* about to submit transfers[i] *)
| Streaming             (* in libusb_handle_events, do-while loop *)
| Draining              (* in libusb_handle_events, drain loop *)
| Stopped.              (* after command_send(dev_handle, STOPFX3, 0) *)

(** What the environment feeds the program. *)
Inductive input :=
| SubmitRet (r : Z)   (* the answer to a submission in the first loop *)
| Event (e : event)   (* libusb delivers an event *)
| Return.             (* libusb_handle_events returns *)

Section Main.

(** The GPIO bits, defined in a header that is not part of the file. *)
Variables DITH RANDO : Z.
Variable cfg : device_config.

(** The command sequence between the submission loop and the event loop. *)
Definition configure (st : state) : state :=
  let gpio := 0 in
  let gpio := if dither cfg then Z.lor gpio DITH else gpio in
  let gpio := if randomizer st then Z.lor gpio RANDO else gpio in
  let st := emit (Usleep 5000) st in
  let st := emit (Command GPIOFX3 gpio) st in
  let st := emit (Usleep 5000) st in
  let st := emit (Command DAT31_ATT (att cfg)) st in
  let st := emit (Usleep 5000) st in
  let st := emit (Command AD8340_VGA (gain cfg)) st in
  let st := emit (Usleep 5000) st in
  let st := emit (Command STARTADC (samplerate cfg)) st in
  let st := emit (Usleep 5000) st in
  let st := emit (Command STARTFX3 0) st in
  let st := emit (Usleep 5000) st in
  emit (Command TUNERSTDBY 0) st.

(** The test [i < queuedepth] of the submission loop; when it fails the
    device is configured and the event loop is entered. *)
Definition enter_submit (i : nat) (st : state) : pc * state :=
  if (i <? queuedepth st)%nat then (Submitting i, st)
  else (Streaming, configure st).

(** The test of [while (xfers_in_progress != 0)]: either another round of
    the drain loop, or the stop command. *)
Definition drain_head (st : state) : pc * state :=
  if xfers_in_progress st =? 0 then
    (Stopped,
     emit (Command STOPFX3 0) (emit (Stderr MsgTransfersCompleted) st))
  else
    (Draining, emit (Stderr (MsgPending (xfers_in_progress st))) st).

(** The test of [do ... while (stop_transfers != true)] and what follows
    the loop. *)
Definition streaming_return (st : state) : pc * state :=
  if stop_transfers st then
    drain_head (set_stop_transfers true (emit (Stderr MsgTestComplete) st))
  else (Streaming, st).

Definition step (c : pc * state) (x : input) : pc * state :=
  let '(p, st) := c in
  match p, x with
  | _, Event Signal => (p, sig_stop st)
  | Submitting i, SubmitRet r => enter_submit (S i) (submit_iteration i r st)
  | Streaming, Event e => (Streaming, deliver e st)
  | Streaming, Return => streaming_return st
  | Draining, Event e => (Draining, deliver e st)
  | Draining, Return => drain_head (emit (Usleep 100000) st)
  | _, _ => c
  end.

Definition exec (xs : list input) (c : pc * state) : pc * state :=
  fold_left step xs c.

(** [main] from the submission loop on, for queue depth [q]. *)
Definition start (q : nat) (rnd : bool) : pc * state :=
  enter_submit 0 (initial q rnd).

Definition run (q : nat) (rnd : bool) (xs : list input) : pc * state :=
  exec xs (start q rnd).

End Main.

(** *** Observations on states and traces *)

(** The number of transfers libusb holds. *)
Definition count_submitted (slots : list slot_state) : Z :=
  Z.of_nat (length (List.filter is_submitted slots)).

(** The calls of [libusb_submit_transfer] in a trace. *)
Definition submissions (t : list io) : list (nat * Z) :=
  flat_map (fun e => match e with Submit i r => [(i, r)] | _ => [] end) t.

(** The bytes the sink has accepted. *)
Definition written (t : list io) : list byte :=
  flat_map (fun e => match e with
                     | Write data ret => take (Z.to_nat ret) data
                     | _ => []
                     end) t.

(** The [write] calls in a trace. *)
Definition writes (t : list io) : list (list byte * Z) :=
  flat_map (fun e => match e with Write d r => [(d, r)] | _ => [] end) t.

(** The lines printed on stderr. *)
Definition logged (t : list io) : list message :=
  flat_map (fun e => match e with Stderr m => [m] | _ => [] end) t.

(** How many times the stop command was sent. *)
Definition stop_commands (t : list io) : nat :=
  length (List.filter (fun e => match e with
                                | Command STOPFX3 _ => true
                                | _ => false
                                end) t).

(** The counters of the program. *)
Definition counters (st : state) : Z * Z :=
  (success_count st, failure_count st).

(** [xfers_in_progress] counts the transfers in flight and stays within the
    queue depth. *)
Definition in_flight_ok (st : state) : Prop :=
  length (usb st) = queuedepth st /\
  xfers_in_progress st = count_submitted (usb st) /\
  0 <= xfers_in_progress st <= Z.of_nat (queuedepth st).

(** Every transfer in flight completes somewhere in [xs]. *)
Definition completes_all (xs : list input) (st : state) : Prop :=
  forall i, usb st !! i = Some Submitted ->
    exists c, c_slot c = i /\ In (Event (Complete c)) xs.

(** What holds of the stop command and of the phases all along a run. *)
Definition shutdown_ok (c : pc * state) : Prop :=
  stop_commands (trace (snd c))
  = match fst c with Stopped => 1%nat | _ => 0%nat end /\
  (fst c = Stopped -> xfers_in_progress (snd c) = 0) /\
  (fst c = Draining \/ fst c = Stopped -> stop_transfers (snd c) = true).

(** The same completion with another answer from [write]. *)
Definition with_write_ret (r : Z) (c : completion) : completion :=
  Completion (c_slot c) (c_status c) (c_buffer c) (c_actual_length c) r
    (c_write_signal c) (c_submit_ret c).

(** The value of [stop_transfers] that the test [if (!stop_transfers)] of
    the callback reads: set before the callback, or by a handler that ran
    inside [write]. *)
Definition stop_seen (c : completion) (st : state) : bool :=
  stop_transfers st || (completed (c_status c) && c_write_signal c).

(** An input during which [sig_stop] runs when it is delivered: a signal,
    or a completed transfer whose [write] is interrupted by one. *)
Definition raises (x : input) : bool :=
  match x with
  | Event Signal => true
  | Event (Complete c) => completed (c_status c) && c_write_signal c
  | _ => false
  end.

(** A completed transfer whose [write] finds the pipe closed. *)
Definition broken_pipe (c : completion) : Prop :=
  completed (c_status c) = true /\
  c_write_signal c = true /\ c_write_ret c = -1.

(** A write falls short when it fails or takes fewer bytes than offered. *)
Definition write_short (c : completion) : Prop :=
  completed (c_status c) = true /\ c_write_ret c < c_actual_length c.

(** "Logged", in the words of the specification: the callback adds a line
    to stderr. *)
Definition write_failure_logged (c : completion) (st : state) : Prop :=
  logged (trace (transfer_callback c st)) <> logged (trace st).

(** "Counted", in the words of the specification: the counters after the
    callback differ from what a complete write would have left. *)
Definition write_failure_counted (c : completion) (st : state) : Prop :=
  counters (transfer_callback c st)
  <> counters (transfer_callback (with_write_ret (c_actual_length c) c) st).

(** *** A short session, used to exercise the statements *)

Definition demo_cfg : device_config := DeviceConfig false 0 0x80 32000000.

Definition demo_completion (slot : nat) : completion :=
  Completion slot LIBUSB_TRANSFER_COMPLETED (map byte.of_Z [1; 2; 3; 4]) 4 4
    false 0.

(** The reader of stdout has gone when transfer [slot] completes. *)
Definition demo_broken_pipe (slot : nat) : completion :=
  Completion slot LIBUSB_TRANSFER_COMPLETED (map byte.of_Z [1; 2; 3; 4]) 4 (-1)
    true 0.

(** Two transfers are submitted, the first completes and is resubmitted, a
    signal arrives and [libusb_handle_events] returns. *)
Definition demo_startup : list input :=
  [SubmitRet 0; SubmitRet 0; Event (Complete (demo_completion 0));
   Event Signal; Return].

(** Both transfers complete. *)
Definition demo_drain : list input :=
  [Event (Complete (demo_completion 1)); Event (Complete (demo_completion 0))].

(** The vendor commands in a trace, with their arguments. *)
Definition commands (t : list io) : list (vendor_op * Z) :=
  flat_map (fun e => match e with Command op x => [(op, x)] | _ => [] end) t.

(** The failed transfers reported on stderr. *)
Definition status_lines (t : list io) : list (transfer_status * Z) :=
  flat_map (fun e => match e with
                     | Stderr (MsgTransferStatus s n) => [(s, n)]
                     | _ => []
                     end) t.

(** The counters count what the trace shows: the calls of [write] and the
    failures reported, as [unsigned int]. *)
Definition counted (st : state) : Prop :=
  success_count st = uint32 (Z.of_nat (length (writes (trace st)))) /\
  failure_count st = uint32 (Z.of_nat (length (status_lines (trace st)))).

(** The commands [main] sends between the submission loop and the event
    loop, for the GPIO bits [DITH] and [RANDO] of the missing header. *)
Definition configuration (DITH RANDO : Z) (cfg : device_config) (rnd : bool)
  : list (vendor_op * Z) :=
  let gpio := if dither cfg then Z.lor 0 DITH else 0 in
  let gpio := if rnd then Z.lor gpio RANDO else gpio in
  [(GPIOFX3, gpio); (DAT31_ATT, att cfg); (AD8340_VGA, gain cfg);
   (STARTADC, samplerate cfg); (STARTFX3, 0); (TUNERSTDBY, 0)].

(** The commands that have gone to the device when [main] is at [p]. *)
Definition commands_at (DITH RANDO : Z) (cfg : device_config) (rnd : bool)
    (p : pc) : list (vendor_op * Z) :=
  match p with
  | Submitting _ => []
  | Streaming | Draining => configuration DITH RANDO cfg rnd
  | Stopped => configuration DITH RANDO cfg rnd ++ [(STOPFX3, 0)]
  end.

(** [main] is past the submission loop. *)
Definition past_submission (p : pc) : Prop :=
  match p with Submitting _ => False | _ => True end.

(** The owner of a transfer after its first submission was answered [r]. *)
Definition owner_after (r : Z) : slot_state :=
  if r =? 0 then Submitted else Idle.

End Pipeline.

(** ** The arithmetic of [double] *)

Module Double.

(** A finite [double] (IEEE 754 binary64) is kept as the rational number it
    denotes.  An operation of C on [double]s is the exact operation followed
    by [round]: to the nearest number with a significand of 53 bits, a tie
    going to the even significand.  This is the arithmetic of a compiler
    that evaluates [double] expressions in [double], as on x86-64 and
    AArch64, in the default rounding mode.  The bounds of the exponent are
    left out: what [actual_freq] computes lies between 2^-20 and 2^32, far
    from overflow and from the subnormal numbers. *)

Definition pow2 (e : Z) : Q := (2 ^ e)%Q.

(** The exponent of the binade of [x]: floor(log2 |x|), for [x] other than
    zero. *)
Definition ilogb (x : Q) : Z :=
  let k := Z.log2 (Z.abs (Qnum x)) - Z.log2 (Zpos (Qden x)) in
  if Qle_bool (pow2 k) (Qabs x) then k else k - 1.

(** The integer nearest to [x]; half-way between two integers, the even
    one. *)
Definition nearest_even (x : Q) : Z :=
  let f := Qfloor x in
  match (x - inject_Z f ?= 1 # 2)%Q with
  | Lt => f
  | Gt => f + 1
  | Eq => if Z.even f then f else f + 1
  end.

(** Rounding to [double]: the significand is [x] scaled into
    2^52 <= |x| / 2^e < 2^53 and rounded to an integer. *)
Definition round (x : Q) : Q :=
  if Qeq_bool x 0 then 0%Q
  else
    let e := ilogb x - 52 in
    Qred (inject_Z (nearest_even (x / pow2 e)) * pow2 e).

(** A [double]: a finite number, or [None] for a NaN. *)
Abbreviation double := (option Q).

(** The conversion [(double) n] of an integer. *)
Definition of_Z (n : Z) : double := Some (round (inject_Z n)).

Definition add (x y : double) : double :=
  match x, y with
  | Some a, Some b => Some (round (a + b))
  | _, _ => None
  end.

Definition mul (x y : double) : double :=
  match x, y with
  | Some a, Some b => Some (round (a * b))
  | _, _ => None
  end.

(** A quotient.  Zero divided by zero is a NaN; another number divided by
    zero is an infinity, which no division of the program produces and
    which is not told apart from a NaN here. *)
Definition div (x y : double) : double :=
  match x, y with
  | Some a, Some b => if Qeq_bool b 0 then None else Some (round (a / b))
  | _, _ => None
  end.

(** Half a unit in the last place, relative to the value: 2^-53. *)
Definition half_ulp : Q := 1 # 9007199254740992.

(** The same operations from the specification of IEEE 754 in the Standard
    Library, [SpecFloat], at the format of [double]: precision 53, largest
    exponent 1024. *)
Definition b64_of_Z (n : Z) : spec_float := binary_normalize 53 1024 n 0 false.
Definition b64_add : spec_float -> spec_float -> spec_float := SFadd 53 1024.
Definition b64_mul : spec_float -> spec_float -> spec_float := SFmul 53 1024.
Definition b64_div : spec_float -> spec_float -> spec_float := SFdiv 53 1024.

(** The rational a finite [spec_float] denotes; [None] for a NaN or an
    infinity. *)
Definition b64_to_Q (x : spec_float) : double :=
  match x with
  | S754_zero _ => Some 0%Q
  | S754_finite s m e =>
      Some (Qred (inject_Z (if s then Z.neg m else Z.pos m) * pow2 e))
  | _ => None
  end.

End Double.

(** ** The clock estimator *)

Module Clock.

(** The locals of [actual_freq], all of which it prints; the last one is
    the value it returns. *)
Record plan := Plan {
  frequency : Z;           (* after the doubling loop *)
  divider : Z;             (* uint32_t *)
  pllFreq : Z;             (* uint32_t *)
  mult : Z;                (* uint8_t *)
  l : Z;                   (* uint32_t *)
  num : Z;                 (* uint32_t *)
  denom : Z;               (* uint32_t *)
  actualPllFreq : Double.double;
  actualAdcFreq : Double.double
}.

(** [while (frequency < 1000000) frequency = frequency * 2;]

    [main] calls [actual_freq((double)samplerate)] with an [unsigned int],
    so [frequency] ranges over the integers, on which doubling is exact in
    [double].  The loop has no bound of its own (it never ends on 0), hence
    the fuel. *)
Fixpoint normalize (fuel : nat) (frequency : Z) : option Z :=
  if frequency <? 1000000 then
    match fuel with
    | O => None
    | S fuel' => normalize fuel' (frequency * 2)
    end
  else Some frequency.

(** [static double actual_freq(double frequency)], with the global
    [xtalFreq] as a parameter.

    The quotients [900000000UL / frequency] and [f / xtalFreq] are taken in
    [double] and truncated by the conversion to [uint32_t]; on integers of
    this size the rounding of the quotient never reaches the next integer,
    so the truncated value is the integer quotient, and the products
    [divider * frequency] and [f * 1048575] are integers that a [double]
    holds exactly (lemma [integers_in_double] below).  The last two lines,

    [actualPllFreq = (double) xtalFreq
                       * (mult + (double) num / (double) denom)] and
    [actualAdcFreq = actualPllFreq / (double) divider],

    are four operations on [double]s, each of them rounded.  The only
    divisor that can be zero is [divider], and then [actualPllFreq] is zero
    too: the quotient is a NaN. *)
Definition actual_freq (fuel : nat) (xtalFreq : Z) (frequency : Z)
  : option plan :=
  match normalize fuel frequency with
  | None => None
  | Some frequency =>
      let divider := 900000000 / frequency in
      let divider := if divider mod 2 =? 0 then divider
                     else uint32 (divider - 1) in
      let pllFreq := divider * frequency in
      let mult := uint8 (pllFreq / xtalFreq) in
      let l := pllFreq mod xtalFreq in
      let num := l * 1048575 / xtalFreq in
      let denom := 1048575 in
      let actualPllFreq :=
        Double.mul (Double.of_Z xtalFreq)
          (Double.add (Double.of_Z mult)
             (Double.div (Double.of_Z num) (Double.of_Z denom))) in
      let actualAdcFreq := Double.div actualPllFreq (Double.of_Z divider) in
      Some (Plan frequency divider pllFreq mult l num denom
              actualPllFreq actualAdcFreq)
  end.

(** The two reference crystals: 27 MHz, or 10 MHz with [--refclock-10M]. *)
Definition supported (xtalFreq : Z) : Prop :=
  xtalFreq = 27000000 \/ xtalFreq = 10000000.

(** Rounding a quotient of non-negative integers to the nearest integer,
    as the specification words the numerator ("round"). *)
Definition round_nearest (a b : Z) : Z := (2 * a + b) / (2 * b).

(** The numerator as the specification states it:
    N = round(L * 1,048,575 / X). *)
Definition spec_num (l xtalFreq : Z) : Z :=
  round_nearest (l * 1048575) xtalFreq.

(** The value returned as the specification states it, a rational number:
    X * (M + N / 1,048,575) / D. *)
Definition spec_actualAdcFreq (xtalFreq mult num divider : Z) : Q :=
  (inject_Z xtalFreq * (inject_Z mult + inject_Z num / inject_Z 1048575)
   / inject_Z divider)%Q.

(** The last two lines of [actual_freq] with the operations of
    [SpecFloat]. *)
Definition b64_actualAdcFreq (xtalFreq mult num denom divider : Z)
  : spec_float :=
  Double.b64_div
    (Double.b64_mul (Double.b64_of_Z xtalFreq)
       (Double.b64_add (Double.b64_of_Z mult)
          (Double.b64_div (Double.b64_of_Z num) (Double.b64_of_Z denom))))
    (Double.b64_of_Z divider).

(** Whether what [actual_freq] returns for [frequency] is what [SpecFloat]
    computes from the integers of the same plan. *)
Definition agrees_with_b64 (xtalFreq frequency : Z) : bool :=
  match actual_freq 0 xtalFreq frequency with
  | Some p =>
      match actualAdcFreq p,
            Double.b64_to_Q
              (b64_actualAdcFreq xtalFreq (mult p) (num p) (denom p)
                 (divider p)) with
      | Some a, Some b => Qeq_bool a b
      | None, None => true
      | _, _ => false
      end
  | None => false
  end.

(** Sample rates from 1 MHz to 495 MHz, 449,131 Hz apart. *)
Definition sample_rates : list Z :=
  map (fun k => 1000000 + 449131 * Z.of_nat k) (seq 0 1101).

End Clock.

(** ** The option loop of [main] *)

Module Options.

(** The two data models of Linux: [long] has 32 or 64 bits. *)
Inductive abi := ILP32 | LP64.

Definition long_bits (a : abi) : Z :=
  match a with ILP32 => 32 | LP64 => 64 end.

(** *** [strtol] and [strtoul] in base 10, as ISO C defines them *)

Definition isspace (c : ascii) : bool :=
  let n := Z.of_N (N_of_ascii c) in
  (n =? 32) || ((9 <=? n) && (n <=? 13)).

Definition digit (c : ascii) : option Z :=
  let n := Z.of_N (N_of_ascii c) in
  if (48 <=? n) && (n <=? 57) then Some (n - 48) else None.

Fixpoint skip_spaces (s : string) : string :=
  match s with
  | String c s' => if isspace c then skip_spaces s' else s
  | EmptyString => s
  end.

(** The value of the longest prefix of digits; 0 when there is none, which
    is also what the C functions return for "no conversion". *)
Fixpoint digits (acc : Z) (s : string) : Z :=
  match s with
  | String c s' =>
      match digit c with
      | Some d => digits (10 * acc + d) s'
      | None => acc
      end
  | EmptyString => acc
  end.

(** White space, an optional sign, digits: the sign and the magnitude. *)
Definition subject (s : string) : bool * Z :=
  match skip_spaces s with
  | String "-"%char s' => (true, digits 0 s')
  | String "+"%char s' => (false, digits 0 s')
  | s' => (false, digits 0 s')
  end.

(** [strtol(s, NULL, 10)]: out-of-range values saturate. *)
Definition strtol (a : abi) (s : string) : Z :=
  let '(neg, m) := subject s in
  let v := if neg then - m else m in
  let w := long_bits a in
  Z.max (- 2 ^ (w - 1)) (Z.min (2 ^ (w - 1) - 1) v).

(** [strtoul(s, NULL, 10)]: a value that does not fit gives [ULONG_MAX];
    after a minus sign the value is negated in [unsigned long]. *)
Definition strtoul (a : abi) (s : string) : Z :=
  let '(neg, m) := subject s in
  let w := long_bits a in
  if 2 ^ w - 1 <? m then 2 ^ w - 1
  else if neg then (- m) mod 2 ^ w
  else m.

(** *** The variables the loop sets *)

Record options := Options {
  samplerate : Z;              (* unsigned int *)
  gain : Z;                    (* unsigned int *)
  att : Z;                     (* unsigned int *)
  queuedepth : Z;              (* unsigned int *)
  reqsize : Z;                 (* unsigned int *)
  xtalFreq : Z;                (* uint32_t *)
  firmware : option string;    (* const char *, None for NULL *)
  randomizer : Z;              (* int *)
  dither : Z;                  (* int *)
  verbose : Z;                 (* int *)
  has_firmware : Z;            (* int *)
  refclock_10M : Z             (* int *)
}.

(** The initial values of the globals and of the locals of [main]. *)
Definition defaults : options :=
  Options 32000000 0x80 0 16 8 27000000 None 0 0 0 0 0.

Definition set_samplerate (v : Z) (o : options) : options :=
  Options v (gain o) (att o) (queuedepth o) (reqsize o) (xtalFreq o)
    (firmware o) (randomizer o) (dither o) (verbose o) (has_firmware o)
    (refclock_10M o).

Definition set_gain (v : Z) (o : options) : options :=
  Options (samplerate o) v (att o) (queuedepth o) (reqsize o) (xtalFreq o)
    (firmware o) (randomizer o) (dither o) (verbose o) (has_firmware o)
    (refclock_10M o).

Definition set_att (v : Z) (o : options) : options :=
  Options (samplerate o) (gain o) v (queuedepth o) (reqsize o) (xtalFreq o)
    (firmware o) (randomizer o) (dither o) (verbose o) (has_firmware o)
    (refclock_10M o).

Definition set_queuedepth (v : Z) (o : options) : options :=
  Options (samplerate o) (gain o) (att o) v (reqsize o) (xtalFreq o)
    (firmware o) (randomizer o) (dither o) (verbose o) (has_firmware o)
    (refclock_10M o).

Definition set_reqsize (v : Z) (o : options) : options :=
  Options (samplerate o) (gain o) (att o) (queuedepth o) v (xtalFreq o)
    (firmware o) (randomizer o) (dither o) (verbose o) (has_firmware o)
    (refclock_10M o).

Definition set_xtalFreq (v : Z) (o : options) : options :=
  Options (samplerate o) (gain o) (att o) (queuedepth o) (reqsize o) v
    (firmware o) (randomizer o) (dither o) (verbose o) (has_firmware o)
    (refclock_10M o).

Definition set_firmware (v : option string) (o : options) : options :=
  Options (samplerate o) (gain o) (att o) (queuedepth o) (reqsize o)
    (xtalFreq o) v (randomizer o) (dither o) (verbose o) (has_firmware o)
    (refclock_10M o).

Definition set_randomizer (v : Z) (o : options) : options :=
  Options (samplerate o) (gain o) (att o) (queuedepth o) (reqsize o)
    (xtalFreq o) (firmware o) v (dither o) (verbose o) (has_firmware o)
    (refclock_10M o).

Definition set_dither (v : Z) (o : options) : options :=
  Options (samplerate o) (gain o) (att o) (queuedepth o) (reqsize o)
    (xtalFreq o) (firmware o) (randomizer o) v (verbose o) (has_firmware o)
    (refclock_10M o).

Definition set_verbose (v : Z) (o : options) : options :=
  Options (samplerate o) (gain o) (att o) (queuedepth o) (reqsize o)
    (xtalFreq o) (firmware o) (randomizer o) (dither o) v (has_firmware o)
    (refclock_10M o).

Definition set_has_firmware (v : Z) (o : options) : options :=
  Options (samplerate o) (gain o) (att o) (queuedepth o) (reqsize o)
    (xtalFreq o) (firmware o) (randomizer o) (dither o) (verbose o) v
    (refclock_10M o).

Definition set_refclock_10M (v : Z) (o : options) : options :=
  Options (samplerate o) (gain o) (att o) (queuedepth o) (reqsize o)
    (xtalFreq o) (firmware o) (randomizer o) (dither o) (verbose o)
    (has_firmware o) v.

(** What the loop prints on stderr.  The numbers are the values [%d]
    shows: the variable read as an [int], also where it is an
    [unsigned int]. *)
Inductive diag :=
| InvalidSamplerate (v : Z)
| InvalidGainMode (s : string)
| InvalidGainValue (v : Z)
| InvalidAttenuation (v : Z)
| InvalidQueueDepth (v : Z)
| InvalidRequestSize (v : Z)
| Help.

(** The code of a character constant. *)
Definition chr (c : ascii) : Z := Z.of_N (N_of_ascii c).

(** The [int] variables that [long_options] names as a [flag]. *)
Inductive flag_var :=
| FlagVerbose | FlagHasFirmware | FlagDither | FlagRandomizer | FlagRefclock.

(** [static struct option long_options[]]: name, [flag], [val]. *)
Definition long_options : list (string * option flag_var * Z) :=
  [ ("verbose", Some FlagVerbose, 1);
    ("firmware", Some FlagHasFirmware, chr "f");
    ("dither", Some FlagDither, chr "d");
    ("rand", Some FlagRandomizer, chr "r");
    ("samplerate", None, chr "s");
    ("gainmode", None, chr "m");
    ("gain", None, chr "g");
    ("att", None, chr "a");
    ("queuedepth", None, chr "q");
    ("reqsize", None, chr "p");
    ("refclock-10M", Some FlagRefclock, chr "T");
    ("help", None, chr "h") ].

(** The store [getopt_long] makes through [flag] before it returns 0. *)
Definition store_flag (f : flag_var) (val : Z) (o : options) : options :=
  match f with
  | FlagVerbose => set_verbose val o
  | FlagHasFirmware => set_has_firmware val o
  | FlagDither => set_dither val o
  | FlagRandomizer => set_randomizer val o
  | FlagRefclock => set_refclock_10M val o
  end.

(** One result of [getopt_long]: the value it returns, [option_index] and
    [optarg] (empty for an option without argument). *)
Record parsed := Parsed {
  p_c : Z;
  p_option_index : nat;
  p_optarg : option string
}.

(** A short option as [getopt_long] reports it. *)
Definition short (c : ascii) (optarg : string) : parsed :=
  Parsed (chr c) 0 (Some optarg).

(** How the loop is left: [return 0] from inside the [switch], before
    anything but stderr has been touched, or through the end of the loop,
    after which [main] initialises libusb and drives the device. *)
Inductive outcome :=
| Exit (code : Z) (err : list diag)
| Proceed (o : options).

(** [optarg] of an option that requires an argument. *)
Definition arg (optarg : option string) : string := default "" optarg.

(** The body of [switch (c)]: the updated variables, or the lines printed
    before [return 0]. *)
Definition handle (a : abi) (c : Z) (optarg : option string) (o : options)
  : options + list diag :=
  if c =? chr "f" then inl (set_firmware optarg o)
  else if c =? chr "r" then inl (set_randomizer 1 o)
  else if c =? chr "d" then inl (set_dither 1 o)
  else if c =? chr "v" then
    match optarg with
    | Some s => inl (set_verbose (sint32 (strtoul a s)) o)
    | None => inl (set_verbose 1 o)
    end
  else if c =? chr "s" then
    let samplerate := uint32 (strtoul a (arg optarg)) in
    if samplerate <? 1000000 then
      inr [InvalidSamplerate (sint32 samplerate); Help]
    else inl (set_samplerate samplerate o)
  else if c =? chr "m" then
    if String.eqb (arg optarg) "high" then
      inl (set_gain (Z.lor (gain o) 0x80) o)
    else if String.eqb (arg optarg) "low" then
      inl (set_gain (Z.land (gain o) (uint32 (Z.lnot 0x80))) o)
    else inr [InvalidGainMode (arg optarg); Help]
  else if c =? chr "g" then
    let gainvalue := sint32 (strtol a (arg optarg)) in
    if (gainvalue <? 0) || (127 <? gainvalue) then
      inr [InvalidGainValue gainvalue; Help]
    else
      let gain := Z.land (gain o) (uint32 (Z.lnot 0x7f)) in
      inl (set_gain (Z.lor gain (uint32 gainvalue)) o)
  else if c =? chr "a" then
    let att := uint32 (strtol a (arg optarg)) in
    if (att <? 0) || (63 <? att) then
      inr [InvalidAttenuation (sint32 att); Help]
    else inl (set_att att o)
  else if c =? chr "q" then
    let queuedepth := uint32 (strtol a (arg optarg)) in
    if (queuedepth <? 1) || (64 <? queuedepth) then
      inr [InvalidQueueDepth (sint32 queuedepth); Help]
    else inl (set_queuedepth queuedepth o)
  else if c =? chr "p" then
    let reqsize := uint32 (strtol a (arg optarg)) in
    if (reqsize <? 1) || (64 <? reqsize) then
      inr [InvalidRequestSize (sint32 reqsize); Help]
    else inl (set_reqsize reqsize o)
  else if c =? chr "T" then inl (set_xtalFreq 10000000 o)
  else inr [Help].

(** [while (1) { c = getopt_long(...); ... }] over the results
    [getopt_long] produces for the command line; the end of the list is its
    answer -1.  A [break] directly inside the [if (c == 0)] leaves the
    [while] loop. *)
Fixpoint option_loop (a : abi) (rs : list parsed) (o : options) : outcome :=
  match rs with
  | [] => Proceed o
  | r :: rs' =>
      let dispatch c :=
        match handle a c (p_optarg r) o with
        | inl o' => option_loop a rs' o'
        | inr err => Exit 0 err
        end in
      if p_c r =? -1 then Proceed o
      else if p_c r =? 0 then
        match long_options !! p_option_index r with
        | Some (_, Some f, val) => Proceed (store_flag f val o)
        | Some (_, None, val) => dispatch val
        | None => Proceed o
        end
      else dispatch (p_c r)
  end.

(** The values the device part of [main] can work with: a sample rate of at
    least 1 MHz in an [unsigned int], the gain byte, attenuation up to 63,
    queue depth and request size in 1..64, one of the two crystals. *)
Definition in_range (o : options) : Prop :=
  1000000 <= samplerate o < 2 ^ 32 /\
  0 <= gain o < 256 /\
  0 <= att o <= 63 /\
  1 <= queuedepth o <= 64 /\
  1 <= reqsize o <= 64 /\
  (xtalFreq o = 27000000 \/ xtalFreq o = 10000000).

(** Every variable of the loop but [gain]. *)
Definition beside_gain (o : options)
  : Z * Z * Z * Z * Z * option string * Z * Z * Z * Z * Z :=
  (samplerate o, att o, queuedepth o, reqsize o, xtalFreq o, firmware o,
   randomizer o, dither o, verbose o, has_firmware o, refclock_10M o).

(** The variables the device part reads, without the [int] flags. *)
Definition settings (o : options)
  : Z * Z * Z * Z * Z * Z * option string :=
  (samplerate o, gain o, att o, queuedepth o, reqsize o, xtalFreq o,
   firmware o).

End Options.

(** ** Buffers and transfers: allocation and release in [main] *)

Module Startup.

(** [pktsize = endpointDesc->wMaxPacketSize * (ep_comp->bMaxBurst + 1)]: a
    [uint16_t] and a [uint8_t], multiplied in [int] and stored in an
    [unsigned int]. *)
Definition pktsize (wMaxPacketSize bMaxBurst : Z) : Z :=
  uint32 (wMaxPacketSize * (bMaxBurst + 1)).

(** [reqsize * pktsize], the size given to [malloc]. *)
Definition request_bytes (reqsize pktsize : Z) : Z := uint32 (reqsize * pktsize).

(** The same value as the [int length] of [libusb_fill_bulk_transfer]. *)
Definition transfer_length (reqsize pktsize : Z) : Z :=
  sint32 (request_bytes reqsize pktsize).

(** What the program holds: memory from [calloc] and [malloc], transfers
    from [libusb_alloc_transfer]; each is named by the number of the call
    that returned it. *)
Inductive resource := Memory (id : nat) | Transfer (id : nat).

Inductive heap_event :=
| Allocated (r : resource)
| Released (r : resource).

(** A pointer: [None] is NULL. *)
Abbreviation pointer := (option nat).

Section Allocation.

(** Whether the [k]-th allocation call of the program succeeds. *)
Variable ok : nat -> bool.



(** One of the two loops of [free_transfer_buffers]: every entry that is not
    NULL is released. *)
Definition release_entries (kind : nat -> resource) (entries : list pointer)
  : list heap_event :=
  flat_map (fun p => match p with
                     | Some id => [Released (kind id)]
                     | None => []
                     end) entries.



End Allocation.

Definition allocated (t : list heap_event) : list resource :=
  flat_map (fun e => match e with Allocated r => [r] | _ => [] end) t.

Definition released (t : list heap_event) : list resource :=
  flat_map (fun e => match e with Released r => [r] | _ => [] end) t.

(** What an array points to. *)
Definition held (kind : nat -> resource) (entries : list pointer)
  : list resource :=
  flat_map (fun p => match p with Some id => [kind id] | None => [] end)
    entries.


End Startup.

(** ** Device discovery: the loop at the label [search] in [main] *)

Module Bringup.

(** The block is guarded by [if (firmware)]: all of this is for a run that
    was given a firmware path with [-f]. *)

(** What the environment answers about one entry of the device list. *)
Record device := Device {
  descriptor_ret : Z;   (* libusb_get_device_descriptor *)
  idVendor : Z;         (* uint16_t *)
  idProduct : Z;        (* uint16_t *)
  open_ret : Z;         (* libusb_open *)
  load_ret : Z;         (* ezusb_load_ram through a handle on it *)
  driver_active : Z;    (* libusb_kernel_driver_active *)
  detach_ret : Z        (* libusb_detach_kernel_driver *)
}.

(** [dev_handle]: NULL, a handle open on a device, or a handle that
    [libusb_close] has been called on. *)
Inductive handle :=
| NoHandle
| Handle (d : device)
| Stale.

Inductive message :=
| MsgNoDescriptor              (* unable to get device descriptor *)
| MsgOpenError (ret : Z)       (* Error or device could not be found: ... *)
| MsgFirmwareUpdated
| MsgUploadFailed
| MsgTryLoadingFirmware        (* ... could not be found, try loading firmware *)
| MsgKernelDriverActive
| MsgCouldNotDetach.

Inductive io :=
| Stderr (m : message)
| Open (d : device) (ret : Z)
| LoadRam (d : device) (ret : Z)
| Close (d : device)
| KernelDriverActive (d : device) (ret : Z)
| DetachKernelDriver (d : device) (ret : Z)
| Sleep (seconds : Z).

(** [libusb_open(devs[i], &dev_handle)]: the handle is stored only when the
    call returns 0. *)
Definition libusb_open (d : device) (h : handle) : Z * handle :=
  if open_ret d =? 0 then (0, Handle d) else (open_ret d, h).

(** How one turn of the [for] loop ends: at the next device, at the label
    [close], at the label [search], or in a call on a handle that is NULL
    or closed, which libusb leaves undefined. *)
Inductive flow :=
| Next (h : handle)
| GotoClose (h : handle)
| GotoSearch (h : handle)
| BadHandle.

(** [if (desc.idProduct == 0x00f3) { ... }]: a device without firmware. *)
Definition upload (d : device) (h : handle) (t : list io) : flow * list io :=
  let '(ret, h) := libusb_open d h in
  let t := t ++ [Open d ret] in
  if 0 <? ret then (GotoClose h, t ++ [Stderr (MsgOpenError ret)])
  else
    match h with
    | Handle d' =>
        let t := t ++ [LoadRam d' (load_ret d')] in
        if load_ret d' =? 0 then
          (GotoSearch Stale,
           t ++ [Stderr MsgFirmwareUpdated; Close d'; Sleep 3])
        else (Next h, t ++ [Stderr MsgUploadFailed])
    | NoHandle | Stale => (BadHandle, t)
    end.

(** [if (desc.idProduct == 0x00f1) { ... }]: a device with firmware. *)
Definition take_over (d : device) (h : handle) (t : list io)
  : flow * list io :=
  let '(ret, h) := libusb_open d h in
  let t := t ++ [Open d ret] in
  match h with
  | NoHandle => (GotoClose h, t ++ [Stderr MsgTryLoadingFirmware])
  | Stale => (BadHandle, t)
  | Handle d' =>
      let t := t ++ [KernelDriverActive d' (driver_active d')] in
      if driver_active d' =? 0 then (Next h, t)
      else
        let t := t ++ [Stderr MsgKernelDriverActive;
                       DetachKernelDriver d' (detach_ret d')] in
        if detach_ret d' =? 0 then (Next h, t)
        else (GotoClose h, t ++ [Stderr MsgCouldNotDetach])
  end.

(** The body of the [for] loop for [devs[i]]. *)
Definition visit (d : device) (h : handle) (t : list io) : flow * list io :=
  if descriptor_ret d <? 0 then (Next h, t ++ [Stderr MsgNoDescriptor])
  else if idVendor d =? 0x04b4 then
    let '(f, t) :=
      if idProduct d =? 0x00f3 then upload d h t else (Next h, t) in
    match f with
    | Next h => if idProduct d =? 0x00f1 then take_over d h t else (Next h, t)
    | _ => (f, t)
    end
  else (Next h, t).

(** The [for] loop over the device list. *)
Fixpoint visit_all (ds : list device) (h : handle) (t : list io)
  : flow * list io :=
  match ds with
  | [] => (Next h, t)
  | d :: ds' =>
      match visit d h t with
      | (Next h', t') => visit_all ds' h' t'
      | other => other
      end
  end.

(** What [libusb_get_device_list] returns: a list, or a negative error,
    which the program stores in a [size_t] and then reads the list it did
    not get. *)
Inductive enumeration :=
| Devices (ds : list device)
| EnumError.

(** How the code between [search:] and [sleep(1)] ends. *)
Inductive outcome :=
| Found (h : handle) (t : list io)     (* the loop is over: sleep(1) is next *)
| Closed (h : handle) (t : list io)    (* goto close *)
| Undefined (t : list io)    (* a call on a NULL or closed handle, or on a
                                list that was not returned *)
| Starved (h : handle) (t : list io).  (* no further enumeration to read *)

(** From the label [search] on, with the device lists the environment
    returns to the successive calls of [libusb_get_device_list]. *)
Fixpoint search (lists : list enumeration) (h : handle) (t : list io)
  : outcome :=
  match lists with
  | [] => Starved h t
  | EnumError :: _ => Undefined t
  | Devices ds :: rest =>
      match visit_all ds h t with
      | (Next h', t') => Found h' t'
      | (GotoClose h', t') => Closed h' t'
      | (GotoSearch h', t') => search rest h' t'
      | (BadHandle, t') => Undefined t'
      end
  end.

(** A list entry the loop passes over: its descriptor cannot be read, or it
    is not one of the two products of vendor 0x04b4. *)
Definition passed_over (d : device) : Prop :=
  descriptor_ret d < 0 \/
  idVendor d <> 0x04b4 \/
  (idProduct d <> 0x00f3 /\ idProduct d <> 0x00f1).

(** What the loop prints for the entries it passes over. *)
Definition passing (ds : list device) : list io :=
  flat_map (fun d => if descriptor_ret d <? 0 then [Stderr MsgNoDescriptor]
                     else []) ds.

(** A device without firmware that can be read and opened. *)
Definition unprogrammed (d : device) : Prop :=
  0 <= descriptor_ret d /\ idVendor d = 0x04b4 /\ idProduct d = 0x00f3 /\
  open_ret d = 0.

(** A device with firmware that can be read and opened, and whose kernel
    driver, if there is one, lets go. *)
Definition operational (d : device) : Prop :=
  0 <= descriptor_ret d /\ idVendor d = 0x04b4 /\ idProduct d = 0x00f1 /\
  open_ret d = 0 /\ (driver_active d = 0 \/ detach_ret d = 0).

(** Every entry that the loop would open does open. *)
Definition opens (d : device) : Prop :=
  0 <= descriptor_ret d -> idVendor d = 0x04b4 ->
  idProduct d = 0x00f3 \/ idProduct d = 0x00f1 ->
  open_ret d = 0.

Definition all_open (e : enumeration) : Prop :=
  match e with
  | Devices ds => Forall opens ds
  | EnumError => False
  end.

(** Three entries to exercise the statements: a hub of another vendor, the
    receiver before and after the firmware is loaded. *)
Definition demo_hub : device := Device 0 0x1d6b 0x0002 0 (-1) 0 0.
Definition demo_blank : device := Device 0 0x04b4 0x00f3 0 0 0 0.
Definition demo_ready : device := Device 0 0x04b4 0x00f1 0 (-1) 1 0.

End Bringup.

(** * Part II: properties *)

(** ** Fixed-width integers *)

Lemma uint16_range z : 0 <= uint16 z < 65536.
Proof. unfold uint16. apply Z.mod_pos_bound. reflexivity. Qed.

Lemma uint32_range z : 0 <= uint32 z < 4294967296.
Proof. unfold uint32. apply Z.mod_pos_bound. reflexivity. Qed.

Lemma uint32_small z : 0 <= z < 4294967296 -> uint32 z = z.
Proof. intros H. unfold uint32. apply Z.mod_small. exact H. Qed.

Lemma uint16_small z : 0 <= z < 65536 -> uint16 z = z.
Proof. intros H. unfold uint16. apply Z.mod_small. exact H. Qed.

(** Bits 16 and up of a 16-bit value are clear. *)
Lemma testbit_high16 z n : 0 <= z < 65536 -> 16 <= n -> Z.testbit z n = false.
Proof.
  intros Hz Hn. rewrite <- (uint16_small z Hz). unfold uint16.
  apply Z.mod_pow2_bits_high. lia.
Qed.

(** ** The sample post-processor *)

Module SampleFacts.
Import Sample.

Lemma land_1 s : Z.land s 1 = if Z.testbit s 0 then 1 else 0.
Proof.
  change 1 with (Z.ones 1) at 1. rewrite Z.land_ones by lia.
  rewrite <- Z.bit0_mod. destruct (Z.testbit s 0); reflexivity.
Qed.

Lemma lxor_fffe_range s : 0 <= s < 65536 -> 0 <= Z.lxor s 0xfffe < 65536.
Proof.
  intros Hs.
  assert (E : uint16 (Z.lxor s 0xfffe) = Z.lxor s 0xfffe).
  { unfold uint16. apply Z.bits_inj'. intros n Hn.
    destruct (Z.lt_ge_cases n 16) as [Hlt | Hge].
    - apply Z.mod_pow2_bits_low. lia.
    - rewrite Z.mod_pow2_bits_high by lia.
      rewrite Z.lxor_spec, (testbit_high16 s n), (testbit_high16 0xfffe n);
        [reflexivity | lia | lia | lia | lia]. }
  rewrite <- E. apply uint16_range.
Qed.

(** The two cases of the transform on one sample. *)
Lemma unrandomize_cases s :
  0 <= s < 65536 ->
  unrandomize s = if Z.testbit s 0 then Z.lxor s 0xfffe else s.
Proof.
  intros Hs. unfold unrandomize. rewrite land_1.
  destruct (Z.testbit s 0).
  - rewrite Z.mul_1_r. apply uint16_small, lxor_fffe_range, Hs.
  - rewrite Z.mul_0_r, Z.lxor_0_r. apply uint16_small, Hs.
Qed.

Lemma unrandomize_range s : 0 <= unrandomize s < 65536.
Proof. apply uint16_range. Qed.

Lemma unrandomize_involutive s :
  0 <= s < 65536 -> unrandomize (unrandomize s) = s.
Proof.
  intros Hs.
  rewrite (unrandomize_cases (unrandomize s)) by apply unrandomize_range.
  rewrite (unrandomize_cases s Hs).
  destruct (Z.testbit s 0) eqn:E.
  - rewrite Z.lxor_spec, E. simpl.
    rewrite Z.lxor_assoc, Z.lxor_nilpotent, Z.lxor_0_r. reflexivity.
  - rewrite E. reflexivity.
Qed.

Lemma load16_range buf i : 0 <= load16 buf i < 65536.
Proof.
  unfold load16.
  destruct (buf !! (2 * i)%nat) as [lo|]; [|lia].
  destruct (buf !! (2 * i + 1)%nat) as [hi|]; [|lia].
  apply (le_combine_bound [lo; hi]).
Qed.

Lemma length_store16 buf i v : length (store16 buf i v) = length buf.
Proof. unfold store16. rewrite !length_insert. reflexivity. Qed.

Lemma lookup_store16_other buf i v k :
  k <> (2 * i)%nat -> k <> (2 * i + 1)%nat ->
  store16 buf i v !! k = buf !! k.
Proof.
  intros H0 H1. unfold store16.
  rewrite !list_lookup_insert_ne by congruence. reflexivity.
Qed.

Lemma load16_store16_same buf i v :
  (2 * i + 1 < length buf)%nat -> load16 (store16 buf i v) i = uint16 v.
Proof.
  intros Hlen. unfold load16, store16.
  rewrite list_lookup_insert_ne by lia.
  rewrite !list_lookup_insert_eq by (rewrite ?length_insert; lia).
  change [byte.of_Z v; byte.of_Z (v / 256)] with
    (byte.of_Z v :: byte.of_Z (v / 2 ^ 8) :: []).
  rewrite <- Z.shiftr_div_pow2 by lia.
  change (byte.of_Z v :: byte.of_Z (Z.shiftr v 8) :: []) with (le_split 2 v).
  rewrite le_combine_split. reflexivity.
Qed.

Lemma load16_store16_other buf i j v :
  i <> j -> load16 (store16 buf i v) j = load16 buf j.
Proof.
  intros Hij. unfold load16.
  rewrite !lookup_store16_other by lia. reflexivity.
Qed.

(** What [n] iterations starting at sample [i] do: the length is kept, the
    bytes outside samples [i .. i+n-1] are kept, and each of these samples is
    transformed once. *)
Lemma derandomize_loop_spec n : forall i buf,
  (2 * (i + n) <= length buf)%nat ->
  length (derandomize_loop n i buf) = length buf /\
  (forall k, (k < 2 * i \/ 2 * (i + n) <= k)%nat ->
     derandomize_loop n i buf !! k = buf !! k) /\
  (forall j, (i <= j < i + n)%nat ->
     load16 (derandomize_loop n i buf) j = unrandomize (load16 buf j)).
Proof.
  induction n as [|n IH]; intros i buf Hlen; simpl.
  - split; [reflexivity|]. split; [reflexivity|]. intros j Hj. lia.
  - set (buf' := store16 buf i (unrandomize (load16 buf i))).
    assert (Hlen' : length buf' = length buf) by apply length_store16.
    destruct (IH (S i) buf') as (IHl & IHk & IHs); [lia|].
    split; [congruence|]. split.
    + intros k Hk. rewrite IHk by lia.
      apply lookup_store16_other; lia.
    + intros j Hj. destruct (decide (j = i)) as [->|Hne].
      * unfold load16 at 1. rewrite !IHk by lia.
        fold (load16 buf' i). unfold buf'.
        rewrite load16_store16_same by lia.
        apply uint16_small, unrandomize_range.
      * rewrite IHs by lia. unfold buf'.
        rewrite load16_store16_other by lia. reflexivity.
Qed.

(** Two buffers with the same samples below [n] and the same bytes from
    [2n] on are equal. *)
Lemma buffer_ext n (b1 b2 : buffer) :
  length b1 = length b2 ->
  (2 * n <= length b1)%nat ->
  (forall k, (2 * n <= k)%nat -> b1 !! k = b2 !! k) ->
  (forall j, (j < n)%nat -> load16 b1 j = load16 b2 j) ->
  b1 = b2.
Proof.
  intros Hlen Hn Hhi Hlo. apply list_eq. intros k.
  destruct (le_lt_dec (2 * n) k) as [Hk|Hk]; [apply Hhi, Hk|].
  specialize (Hlo (k / 2)%nat).
  assert (Hj : (k / 2 < n)%nat) by (apply Nat.Div0.div_lt_upper_bound; lia).
  specialize (Hlo Hj). unfold load16 in Hlo.
  pose proof (Nat.div_mod_eq k 2) as Hdm.
  pose proof (Nat.mod_upper_bound k 2 ltac:(lia)) as Hm.
  destruct (lookup_lt_is_Some_2 b1 (2 * (k / 2))%nat ltac:(lia)) as [lo1 E1].
  destruct (lookup_lt_is_Some_2 b1 (2 * (k / 2) + 1)%nat ltac:(lia)) as [hi1 F1].
  destruct (lookup_lt_is_Some_2 b2 (2 * (k / 2))%nat ltac:(lia)) as [lo2 E2].
  destruct (lookup_lt_is_Some_2 b2 (2 * (k / 2) + 1)%nat ltac:(lia)) as [hi2 F2].
  rewrite E1, F1, E2, F2 in Hlo.
  apply le_combine_inj in Hlo; [|reflexivity].
  injection Hlo as -> ->.
  destruct (decide (k mod 2 = 0)%nat) as [Hz|Hz].
  - replace k with (2 * (k / 2))%nat by lia. congruence.
  - replace k with (2 * (k / 2) + 1)%nat by lia. congruence.
Qed.

(** The transform undoes itself on any prefix of a buffer. *)
Lemma derandomize_involutive size buf :
  0 <= size <= Z.of_nat (length buf) ->
  derandomize size (derandomize size buf) = buf.
Proof.
  intros Hsize. unfold derandomize.
  set (n := Z.to_nat (Z.quot size 2)).
  assert (Hn : (2 * (0 + n) <= length buf)%nat).
  { unfold n. rewrite Z.quot_div_nonneg by lia.
    pose proof (Z.mul_div_le size 2 ltac:(lia)). lia. }
  destruct (derandomize_loop_spec n 0 buf Hn) as (L1 & K1 & S1).
  destruct (derandomize_loop_spec n 0 (derandomize_loop n 0 buf))
    as (L2 & K2 & S2); [lia|].
  apply (buffer_ext n).
  - congruence.
  - lia.
  - intros k Hk. rewrite K2, K1 by lia. reflexivity.
  - intros j Hj. rewrite S2, S1 by lia.
    apply unrandomize_involutive, load16_range.
Qed.

(** C1.  The output-randomizer reversal is an involution: for every buffer
    of even length, transforming all of it twice (XOR with 0xFFFE exactly
    for the 16-bit little-endian samples whose bit 0 is set) gives back the
    original buffer, byte for byte. *)
Theorem derandomize_twice (buf : buffer) :
  Nat.Even (length buf) ->
  derandomize (Z.of_nat (length buf))
    (derandomize (Z.of_nat (length buf)) buf) = buf.
Proof. intros _. apply derandomize_involutive. lia. Qed.

Lemma derandomize_twice_witness :
  Nat.Even (length (map byte.of_Z [1; 2; 254; 255])) /\
  derandomize 4 (derandomize 4 (map byte.of_Z [1; 2; 254; 255]))
  = map byte.of_Z [1; 2; 254; 255].
Proof.
  split.
  - exists 2%nat. reflexivity.
  - apply (derandomize_twice (map byte.of_Z [1; 2; 254; 255])).
    exists 2%nat. reflexivity.
Defined.

(** C3.  For a completed buffer of which [size] bytes are valid, processed
    with the transform enabled: every 16-bit sample below [size / 2] with
    bit 0 clear keeps its value, every such sample with bit 0 set becomes
    its value XOR 0xFFFE, no byte from offset [2 * (size / 2)] on changes,
    and in particular when [size] is odd the trailing byte at [size - 1] is
    left untouched. *)
Theorem derandomize_samples (size : Z) (buf : buffer) :
  0 <= size <= Z.of_nat (length buf) ->
  let out := derandomize size buf in
  length out = length buf /\
  (forall i : nat, Z.of_nat i < size / 2 ->
     load16 out i = if Z.testbit (load16 buf i) 0
                    then Z.lxor (load16 buf i) 0xfffe
                    else load16 buf i) /\
  (forall k : nat, 2 * (size / 2) <= Z.of_nat k -> out !! k = buf !! k) /\
  (Z.odd size = true ->
     out !! Z.to_nat (size - 1) = buf !! Z.to_nat (size - 1)).
Proof.
  intros Hsize out. unfold out, derandomize.
  rewrite Z.quot_div_nonneg by lia.
  pose proof (Z.mul_div_le size 2 ltac:(lia)) as Hle.
  pose proof (Z.div_pos size 2 ltac:(lia) ltac:(lia)) as Hpos.
  set (n := Z.to_nat (size / 2)).
  destruct (derandomize_loop_spec n 0 buf) as (L & K & S); [lia|].
  split; [exact L|]. split; [|split].
  - intros i Hi. rewrite S by lia.
    apply unrandomize_cases, load16_range.
  - intros k Hk. apply K. lia.
  - intros Hodd. apply K. right.
    rewrite Z.odd_spec in Hodd. destruct Hodd as [m Hm].
    assert (size / 2 = m).
    { subst size. rewrite Z.mul_comm, Z.div_add_l by lia.
      change (1 / 2) with 0. lia. }
    lia.
Qed.

Lemma derandomize_samples_witness :
  0 <= 5 <= Z.of_nat (length (map byte.of_Z [1; 2; 4; 6; 9])) /\
  load16 (derandomize 5 (map byte.of_Z [1; 2; 4; 6; 9])) 0
  = Z.lxor (load16 (map byte.of_Z [1; 2; 4; 6; 9]) 0) 0xfffe /\
  load16 (derandomize 5 (map byte.of_Z [1; 2; 4; 6; 9])) 1
  = load16 (map byte.of_Z [1; 2; 4; 6; 9]) 1 /\
  derandomize 5 (map byte.of_Z [1; 2; 4; 6; 9]) !! 4%nat
  = map byte.of_Z [1; 2; 4; 6; 9] !! 4%nat.
Proof.
  assert (H : 0 <= 5 <= Z.of_nat (length (map byte.of_Z [1; 2; 4; 6; 9])))
    by (simpl; lia).
  destruct (derandomize_samples 5 (map byte.of_Z [1; 2; 4; 6; 9]) H)
    as (_ & S & _ & O).
  split; [exact H|]. split; [|split].
  - apply (S 0%nat). reflexivity.
  - apply (S 1%nat). reflexivity.
  - apply O. reflexivity.
Defined.

End SampleFacts.

(** ** The transfer pipeline *)

Module PipelineFacts.
Import Pipeline.

(** *** Counting the transfers in flight *)

Lemma count_submitted_cons s slots :
  count_submitted (s :: slots)
  = Z.b2z (is_submitted s) + count_submitted slots.
Proof.
  unfold count_submitted. cbn [List.filter].
  destruct (is_submitted s); cbn [length Z.b2z]; lia.
Qed.

Lemma count_submitted_bounds slots :
  0 <= count_submitted slots <= Z.of_nat (length slots).
Proof.
  induction slots as [|s slots IH].
  - unfold count_submitted. simpl. lia.
  - rewrite count_submitted_cons. simpl length. destruct s; simpl; lia.
Qed.

Lemma count_submitted_replicate q : count_submitted (replicate q Idle) = 0.
Proof.
  induction q as [|q IH]; [reflexivity|].
  simpl replicate. rewrite count_submitted_cons, IH. reflexivity.
Qed.

(** Changing the owner of one slot changes the count by the difference. *)
Lemma count_submitted_insert slots : forall i s0 s,
  slots !! i = Some s0 ->
  count_submitted (<[i := s]> slots)
  = count_submitted slots - Z.b2z (is_submitted s0) + Z.b2z (is_submitted s).
Proof.
  induction slots as [|x slots IH]; intros i s0 s Hi; [discriminate|].
  destruct i as [|i]; simpl in Hi |- *.
  - injection Hi as ->. rewrite !count_submitted_cons. lia.
  - rewrite !count_submitted_cons, (IH i s0 s Hi). lia.
Qed.

Lemma count_submitted_zero slots :
  count_submitted slots = 0 <-> forall i, slots !! i <> Some Submitted.
Proof.
  induction slots as [|s slots IH].
  - split; [intros _ i; simpl; discriminate | reflexivity].
  - rewrite count_submitted_cons.
    pose proof (count_submitted_bounds slots) as Hb. split.
    + intros H i. destruct s; simpl in H; [|lia].
      destruct i as [|i]; simpl; [discriminate|]. apply IH. lia.
    + intros H. destruct s.
      * simpl. apply IH. intros i. apply (H (S i)).
      * exfalso. apply (H 0%nat). reflexivity.
Qed.

(** *** What one submission does *)

Lemma libusb_submit_transfer_count i r slots :
  count_submitted (snd (libusb_submit_transfer i r slots))
  = count_submitted slots
    + (if fst (libusb_submit_transfer i r slots) =? 0 then 1 else 0).
Proof.
  unfold libusb_submit_transfer.
  destruct (slots !! i) as [[|]|] eqn:E; simpl; try lia.
  destruct (r =? 0) eqn:Er; simpl.
  - rewrite (count_submitted_insert slots i Idle Submitted E). simpl. lia.
  - rewrite Er. lia.
Qed.

Lemma libusb_submit_transfer_length i r slots :
  length (snd (libusb_submit_transfer i r slots)) = length slots.
Proof.
  unfold libusb_submit_transfer.
  destruct (slots !! i) as [[|]|]; simpl; try reflexivity.
  destruct (r =? 0); simpl; [apply length_insert | reflexivity].
Qed.

(** The fields of the state after [resubmit]. *)
Lemma resubmit_fields c st :
  let sub := libusb_submit_transfer (c_slot c) (c_submit_ret c) (usb st) in
  let go := negb (stop_transfers st) in
  queuedepth (resubmit c st) = queuedepth st /\
  randomizer (resubmit c st) = randomizer st /\
  stop_transfers (resubmit c st) = stop_transfers st /\
  success_count (resubmit c st) = success_count st /\
  failure_count (resubmit c st) = failure_count st /\
  xfers_in_progress (resubmit c st)
  = xfers_in_progress st + (if go && (fst sub =? 0) then 1 else 0) /\
  usb (resubmit c st) = (if go then snd sub else usb st) /\
  trace (resubmit c st)
  = trace st ++ (if go then [Submit (c_slot c) (fst sub)] else []).
Proof.
  unfold resubmit. destruct (stop_transfers st) eqn:Es; simpl.
  - rewrite Es, app_nil_r. repeat split; lia.
  - destruct (libusb_submit_transfer _ _ _) as [ret slots]. simpl.
    destruct (ret =? 0); simpl; rewrite ?Es; repeat split; lia.
Qed.

(** The fields of the state after [transfer_callback]. *)
Lemma transfer_callback_fields c st :
  let ok := completed (c_status c) in
  let sub := libusb_submit_transfer (c_slot c) (c_submit_ret c) (usb st) in
  let go := negb (stop_seen c st) in
  let st' := transfer_callback c st in
  queuedepth st' = queuedepth st /\
  randomizer st' = randomizer st /\
  stop_transfers st' = stop_seen c st /\
  success_count st'
  = (if ok then uint32 (success_count st + 1) else success_count st) /\
  failure_count st'
  = (if ok then failure_count st else uint32 (failure_count st + 1)) /\
  xfers_in_progress st'
  = xfers_in_progress st - 1 + (if go && (fst sub =? 0) then 1 else 0) /\
  usb st' = (if go then snd sub else usb st) /\
  trace st'
  = (trace st
     ++ (if ok then
           Write (processed c st) (c_write_ret c)
           :: (if c_write_signal c then [Stderr MsgAbort] else [])
           ++ (if c_write_ret c <? 0 then [Stderr MsgWriteError] else [])
         else [Stderr (MsgTransferStatus (c_status c) (c_actual_length c))]))
    ++ (if go then [Submit (c_slot c) (fst sub)] else []).
Proof.
  intros ok sub go st'. subst ok sub go st'.
  unfold transfer_callback, write, stop_seen.
  match goal with |- context [resubmit c ?m] =>
    destruct (resubmit_fields c m) as (Q & R & S & SC & FC & X & U & T);
    rewrite Q, R, S, SC, FC, X, U, T; clear Q R S SC FC X U T
  end.
  destruct (completed (c_status c)); simpl.
  - destruct (c_write_signal c), (c_write_ret c <? 0); simpl;
      rewrite <- ?app_assoc, ?orb_true_r, ?orb_false_r; simpl;
      repeat split; reflexivity.
  - rewrite orb_false_r. repeat split; reflexivity.
Qed.

(** *** Observations distribute over the trace *)

Lemma submissions_app t1 t2 :
  submissions (t1 ++ t2) = submissions t1 ++ submissions t2.
Proof. apply flat_map_app. Qed.

Lemma writes_app t1 t2 : writes (t1 ++ t2) = writes t1 ++ writes t2.
Proof. apply flat_map_app. Qed.

Lemma written_app t1 t2 : written (t1 ++ t2) = written t1 ++ written t2.
Proof. apply flat_map_app. Qed.

Lemma logged_app t1 t2 : logged (t1 ++ t2) = logged t1 ++ logged t2.
Proof. apply flat_map_app. Qed.

Lemma stop_commands_app t1 t2 :
  stop_commands (t1 ++ t2) = (stop_commands t1 + stop_commands t2)%nat.
Proof.
  unfold stop_commands. rewrite List.filter_app, length_app. reflexivity.
Qed.

(** With the randomizer enabled, what a completed transfer hands to [write]
    is the valid part of the transformed buffer. *)
Lemma write_gets_derandomized c st :
  completed (c_status c) = true ->
  randomizer st = true ->
  writes (trace (transfer_callback c st))
  = writes (trace st)
    ++ [(take (Z.to_nat (c_actual_length c))
           (Sample.derandomize (c_actual_length c) (c_buffer c)),
         c_write_ret c)].
Proof.
  intros Hc Hr.
  destruct (transfer_callback_fields c st) as (_ & _ & _ & _ & _ & _ & _ & T).
  rewrite T, Hc, !writes_app. unfold processed. rewrite Hr.
  destruct (c_write_signal c), (c_write_ret c <? 0), (negb (stop_seen c st));
    simpl; rewrite ?app_nil_r; reflexivity.
Qed.

(** Neither a callback nor a signal handler sends a vendor command. *)
Lemma stop_commands_transfer_callback c st :
  stop_commands (trace (transfer_callback c st)) = stop_commands (trace st).
Proof.
  destruct (transfer_callback_fields c st) as (_ & _ & _ & _ & _ & _ & _ & T).
  rewrite T, !stop_commands_app.
  destruct (completed (c_status c)), (c_write_signal c), (c_write_ret c <? 0),
    (negb (stop_seen c st)); unfold stop_commands; simpl; lia.
Qed.

Lemma stop_commands_deliver e st :
  stop_commands (trace (deliver e st)) = stop_commands (trace st).
Proof.
  destruct e as [c|]; simpl.
  - destruct (usb st !! c_slot c) as [[|]|]; try reflexivity.
    rewrite stop_commands_transfer_callback. reflexivity.
  - rewrite stop_commands_app. unfold stop_commands. simpl. lia.
Qed.

(** *** The in-flight counter *)

Lemma in_flight_ok_initial q rnd : in_flight_ok (initial q rnd).
Proof.
  unfold in_flight_ok. simpl.
  rewrite length_replicate, count_submitted_replicate. lia.
Qed.

Lemma in_flight_ok_emit e st : in_flight_ok st -> in_flight_ok (emit e st).
Proof. intros H. exact H. Qed.

Lemma in_flight_ok_set_stop b st :
  in_flight_ok st -> in_flight_ok (set_stop_transfers b st).
Proof. intros H. exact H. Qed.

Lemma in_flight_ok_sig_stop st : in_flight_ok st -> in_flight_ok (sig_stop st).
Proof. intros H. exact H. Qed.

Lemma submit_iteration_fields i r st :
  let sub := libusb_submit_transfer i r (usb st) in
  queuedepth (submit_iteration i r st) = queuedepth st /\
  stop_transfers (submit_iteration i r st) = stop_transfers st /\
  xfers_in_progress (submit_iteration i r st)
  = xfers_in_progress st + (if fst sub =? 0 then 1 else 0) /\
  usb (submit_iteration i r st) = snd sub /\
  trace (submit_iteration i r st) = trace st ++ [Submit i (fst sub)].
Proof.
  unfold submit_iteration.
  destruct (libusb_submit_transfer i r (usb st)) as [ret slots]. simpl.
  destruct (ret =? 0); simpl; repeat split; lia.
Qed.

Lemma in_flight_ok_submit_iteration i r st :
  in_flight_ok st -> in_flight_ok (submit_iteration i r st).
Proof.
  intros (L & C & B). unfold in_flight_ok.
  destruct (submit_iteration_fields i r st) as (Q & _ & X & U & _).
  rewrite Q, X, U, libusb_submit_transfer_length, libusb_submit_transfer_count.
  pose proof (libusb_submit_transfer_count i r (usb st)) as Hc.
  pose proof (count_submitted_bounds (snd (libusb_submit_transfer i r (usb st))))
    as Hb.
  rewrite libusb_submit_transfer_length in Hb.
  destruct (fst (libusb_submit_transfer i r (usb st)) =? 0); lia.
Qed.

Lemma in_flight_ok_deliver e st :
  in_flight_ok st -> in_flight_ok (deliver e st).
Proof.
  intros H. destruct e as [c|]; [|apply in_flight_ok_sig_stop, H].
  simpl. destruct (usb st !! c_slot c) as [[|]|] eqn:E; try exact H.
  destruct H as (L & C & B). unfold in_flight_ok.
  set (st0 := set_usb (<[c_slot c := Idle]> (usb st)) st).
  destruct (transfer_callback_fields c st0) as (Q & _ & _ & _ & _ & X & U & _).
  rewrite Q, X, U. subst st0. cbn [queuedepth xfers_in_progress usb set_usb].
  change (stop_seen c (set_usb (<[c_slot c := Idle]> (usb st)) st))
    with (stop_seen c st).
  set (slots := <[c_slot c := Idle]> (usb st)).
  assert (Hs : count_submitted slots = count_submitted (usb st) - 1).
  { unfold slots. rewrite (count_submitted_insert _ _ _ Idle E). simpl. lia. }
  assert (Hl : length slots = length (usb st)) by apply length_insert.
  pose proof (libusb_submit_transfer_count (c_slot c) (c_submit_ret c) slots)
    as Hc.
  pose proof (libusb_submit_transfer_length (c_slot c) (c_submit_ret c) slots)
    as Hl'.
  pose proof (count_submitted_bounds slots) as Hb.
  destruct (negb (stop_seen c st)); simpl.
  - pose proof (count_submitted_bounds
                  (snd (libusb_submit_transfer (c_slot c) (c_submit_ret c) slots)))
      as Hb'.
    destruct (fst (libusb_submit_transfer (c_slot c) (c_submit_ret c) slots) =? 0);
      lia.
  - lia.
Qed.

Lemma queuedepth_deliver e st : queuedepth (deliver e st) = queuedepth st.
Proof.
  destruct e as [c|]; [|reflexivity]. simpl.
  destruct (usb st !! c_slot c) as [[|]|]; try reflexivity.
  destruct (transfer_callback_fields c (set_usb (<[c_slot c := Idle]> (usb st)) st))
    as (Q & _).
  exact Q.
Qed.

(** A signal sets the flag and nothing clears it. *)
Lemma stop_transfers_deliver e st :
  stop_transfers st = true -> stop_transfers (deliver e st) = true.
Proof.
  intros H. destruct e as [c|]; [|reflexivity]. simpl.
  destruct (usb st !! c_slot c) as [[|]|]; try exact H.
  destruct (transfer_callback_fields c (set_usb (<[c_slot c := Idle]> (usb st)) st))
    as (_ & _ & S & _).
  rewrite S. unfold stop_seen. simpl. rewrite H. reflexivity.
Qed.

Section MainFacts.

Variables DITH RANDO : Z.
Variable cfg : device_config.

Local Abbreviation configure := (configure DITH RANDO cfg).
Local Abbreviation enter_submit := (enter_submit DITH RANDO cfg).
Local Abbreviation step := (step DITH RANDO cfg).
Local Abbreviation exec := (exec DITH RANDO cfg).
Local Abbreviation run := (run DITH RANDO cfg).

Lemma in_flight_ok_configure st : in_flight_ok st -> in_flight_ok (configure st).
Proof. intros H. exact H. Qed.

Lemma in_flight_ok_enter_submit i st :
  in_flight_ok st -> in_flight_ok (snd (enter_submit i st)).
Proof.
  intros H. unfold Pipeline.enter_submit.
  destruct (i <? queuedepth st)%nat; exact H.
Qed.

Lemma in_flight_ok_drain_head st :
  in_flight_ok st -> in_flight_ok (snd (drain_head st)).
Proof.
  intros H. unfold drain_head. destruct (xfers_in_progress st =? 0); exact H.
Qed.

Lemma in_flight_ok_streaming_return st :
  in_flight_ok st -> in_flight_ok (snd (streaming_return st)).
Proof.
  intros H. unfold streaming_return. destruct (stop_transfers st); [|exact H].
  apply in_flight_ok_drain_head. exact H.
Qed.

Lemma in_flight_ok_step c x :
  in_flight_ok (snd c) -> in_flight_ok (snd (step c x)).
Proof.
  destruct c as [p st]. simpl. intros H.
  destruct x as [r|[c|]|]; destruct p; simpl; try exact H.
  - apply in_flight_ok_enter_submit, in_flight_ok_submit_iteration, H.
  - apply (in_flight_ok_deliver (Complete c)), H.
  - apply (in_flight_ok_deliver (Complete c)), H.
  - apply in_flight_ok_streaming_return, H.
  - apply in_flight_ok_drain_head. exact H.
Qed.

Lemma in_flight_ok_exec xs : forall c,
  in_flight_ok (snd c) -> in_flight_ok (snd (exec xs c)).
Proof.
  induction xs as [|x xs IH]; intros c H; [exact H|].
  apply IH, in_flight_ok_step, H.
Qed.

Lemma queuedepth_enter_submit i st :
  queuedepth (snd (enter_submit i st)) = queuedepth st.
Proof.
  unfold Pipeline.enter_submit. destruct (i <? queuedepth st)%nat; reflexivity.
Qed.

Lemma queuedepth_drain_head st : queuedepth (snd (drain_head st)) = queuedepth st.
Proof. unfold drain_head. destruct (xfers_in_progress st =? 0); reflexivity. Qed.

Lemma queuedepth_step c x : queuedepth (snd (step c x)) = queuedepth (snd c).
Proof.
  destruct c as [p st].
  destruct x as [r|[c|]|]; destruct p; simpl; try reflexivity.
  - rewrite queuedepth_enter_submit. apply submit_iteration_fields.
  - apply (queuedepth_deliver (Complete c)).
  - apply (queuedepth_deliver (Complete c)).
  - unfold streaming_return. destruct (stop_transfers st); [|reflexivity].
    rewrite queuedepth_drain_head. reflexivity.
  - rewrite queuedepth_drain_head. reflexivity.
Qed.

Lemma queuedepth_exec xs : forall c,
  queuedepth (snd (exec xs c)) = queuedepth (snd c).
Proof.
  induction xs as [|x xs IH]; intros c; [reflexivity|].
  simpl. rewrite IH. apply queuedepth_step.
Qed.

(** C2.  In every state the transfer phase can reach -- after any part of
    the submission loop, any sequence of completion callbacks with success
    or failure status and their resubmissions, signals, and any part of the
    drain loop -- [xfers_in_progress] equals the number of transfers libusb
    holds and lies between 0 and the queue depth.  It goes up by one exactly
    when [libusb_submit_transfer] returns 0 (in the submission loop and in
    the callback, which calls it unless [stop_transfers] was set before or
    by a signal handler inside [write]) and down by one once in every
    callback. *)
Theorem xfers_in_progress_counts_in_flight :
  (forall (q : nat) (rnd : bool) (xs : list input),
     let st := snd (run q rnd xs) in
     length (usb st) = q /\
     queuedepth st = q /\
     xfers_in_progress st = count_submitted (usb st) /\
     0 <= xfers_in_progress st <= Z.of_nat q) /\
  (forall (i : nat) (r : Z) (st : state),
     xfers_in_progress (submit_iteration i r st)
     = xfers_in_progress st
       + (if fst (libusb_submit_transfer i r (usb st)) =? 0 then 1 else 0)) /\
  (forall (c : completion) (st : state),
     xfers_in_progress (transfer_callback c st)
     = xfers_in_progress st - 1
       + (if stop_transfers st || (completed (c_status c) && c_write_signal c)
          then 0
          else if fst (libusb_submit_transfer (c_slot c) (c_submit_ret c)
                         (usb st)) =? 0
               then 1 else 0)).
Proof.
  split; [|split].
  - intros q rnd xs st.
    assert (H : in_flight_ok st).
    { apply in_flight_ok_exec, in_flight_ok_enter_submit, in_flight_ok_initial. }
    assert (Q : queuedepth st = q).
    { subst st. unfold Pipeline.run, Pipeline.start.
      rewrite queuedepth_exec, queuedepth_enter_submit. reflexivity. }
    destruct H as (L & C & B). rewrite Q in L, B. auto.
  - intros i r st. apply submit_iteration_fields.
  - intros c st.
    destruct (transfer_callback_fields c st) as (_ & _ & _ & _ & _ & X & _).
    rewrite X. unfold stop_seen.
    destruct (stop_transfers st || _); reflexivity.
Qed.

(** C4.  A transfer that completes with a status other than
    [LIBUSB_TRANSFER_COMPLETED]: [failure_count] goes up by one (as an
    [unsigned int]), [success_count] does not change, [write] is not called
    so no byte of the buffer reaches the sink, the status is logged, and
    [libusb_submit_transfer] is called again for the same transfer unless
    [stop_transfers] is set.  The failure does not stop the pipeline: the
    stop flag is not touched and [main] stays in the loop it is in. *)
Theorem failed_transfer_is_absorbed (c : completion) (st : state) :
  completed (c_status c) = false ->
  let st' := transfer_callback c st in
  failure_count st' = uint32 (failure_count st + 1) /\
  success_count st' = success_count st /\
  writes (trace st') = writes (trace st) /\
  written (trace st') = written (trace st) /\
  logged (trace st')
  = logged (trace st) ++ [MsgTransferStatus (c_status c) (c_actual_length c)] /\
  submissions (trace st')
  = submissions (trace st)
    ++ (if stop_transfers st then []
        else [(c_slot c,
               fst (libusb_submit_transfer (c_slot c) (c_submit_ret c)
                      (usb st)))]) /\
  stop_transfers st' = stop_transfers st /\
  (forall p : pc, fst (step (p, st) (Event (Complete c))) = p).
Proof.
  intros Hc st'. subst st'.
  destruct (transfer_callback_fields c st) as (_ & _ & S & SC & FC & _ & _ & T).
  assert (E : stop_seen c st = stop_transfers st)
    by (unfold stop_seen; rewrite Hc; apply orb_false_r).
  rewrite Hc in SC, FC, T. rewrite E in S, T. rewrite S, SC, FC, T.
  rewrite !writes_app, !written_app, !logged_app, !submissions_app.
  repeat split.
  - destruct (stop_transfers st); simpl; rewrite !app_nil_r; reflexivity.
  - destruct (stop_transfers st); simpl; rewrite !app_nil_r; reflexivity.
  - destruct (stop_transfers st); simpl; rewrite ?app_nil_r; reflexivity.
  - destruct (stop_transfers st); simpl; rewrite ?app_nil_r; reflexivity.
  - intros p. destruct p; reflexivity.
Qed.

(** C8 as the program has it.  After a completed transfer, a [write] that
    returns a negative value is logged and any other result, a short count
    included, is not; no counter depends on the result of [write]
    ([success_count] has gone up before the call, [failure_count] is not
    touched).  What decides whether the pipeline continues is not the value
    [write] returns but whether a signal was handled inside it: without
    one the stop flag is as before and the transfer is resubmitted unless
    the flag was set; with one, as when the reader has closed the pipe and
    [write] raises SIGPIPE, [sig_stop] has printed its line and set
    [stop_transfers] before the callback tests it, so the transfer is not
    resubmitted.  In every case [xfers_in_progress] still counts the
    transfers in flight, and it, the owner table, the counters and the stop
    flag are the same for every value [write] returns. *)
Theorem write_outcome_is_absorbed (c : completion) (st : state) :
  completed (c_status c) = true ->
  let st' := transfer_callback c st in
  let stop := stop_transfers st || c_write_signal c in
  logged (trace st')
  = logged (trace st)
    ++ (if c_write_signal c then [MsgAbort] else [])
    ++ (if c_write_ret c <? 0 then [MsgWriteError] else []) /\
  counters st' = (uint32 (success_count st + 1), failure_count st) /\
  stop_transfers st' = stop /\
  submissions (trace st')
  = submissions (trace st)
    ++ (if stop then []
        else [(c_slot c,
               fst (libusb_submit_transfer (c_slot c) (c_submit_ret c)
                      (usb st)))]) /\
  usb st'
  = (if stop then usb st
     else snd (libusb_submit_transfer (c_slot c) (c_submit_ret c) (usb st))) /\
  xfers_in_progress st'
  = xfers_in_progress st - 1
    + (if stop then 0
       else if fst (libusb_submit_transfer (c_slot c) (c_submit_ret c)
                      (usb st)) =? 0
            then 1 else 0) /\
  (forall p : pc, fst (step (p, st) (Event (Complete c))) = p) /\
  (in_flight_ok st -> in_flight_ok (deliver (Complete c) st)) /\
  (forall r : Z,
     let st'' := transfer_callback (with_write_ret r c) st in
     xfers_in_progress st'' = xfers_in_progress st' /\
     usb st'' = usb st' /\
     counters st'' = counters st' /\
     stop_transfers st'' = stop_transfers st' /\
     submissions (trace st'') = submissions (trace st')).
Proof.
  intros Hc st' stop. subst st' stop.
  destruct (transfer_callback_fields c st) as (_ & _ & S & SC & FC & X & U & T).
  assert (E : stop_seen c st = stop_transfers st || c_write_signal c)
    by (unfold stop_seen; rewrite Hc; reflexivity).
  rewrite Hc in SC, FC, T. rewrite E in S, X, U, T.
  unfold counters. rewrite S, SC, FC, X, U, T.
  rewrite !logged_app, !submissions_app.
  split; [|split; [|split; [|split; [|split; [|split; [|split; [|split]]]]]]].
  - destruct (c_write_signal c), (c_write_ret c <? 0), (stop_transfers st);
      simpl; rewrite ?app_nil_r; reflexivity.
  - reflexivity.
  - reflexivity.
  - destruct (c_write_signal c), (c_write_ret c <? 0), (stop_transfers st);
      simpl; rewrite ?app_nil_r; reflexivity.
  - destruct (stop_transfers st || c_write_signal c); reflexivity.
  - destruct (stop_transfers st || c_write_signal c); reflexivity.
  - intros p. destruct p; reflexivity.
  - apply in_flight_ok_deliver.
  - intros r. cbv zeta.
    destruct (transfer_callback_fields (with_write_ret r c) st)
      as (_ & _ & S' & SC' & FC' & X' & U' & T').
    assert (E' : stop_seen (with_write_ret r c) st
                 = stop_transfers st || c_write_signal c)
      by (unfold stop_seen; simpl; rewrite Hc; reflexivity).
    simpl in SC', FC', X', U', T'. rewrite Hc in SC', FC', T'.
    rewrite E' in S', X', U', T'.
    rewrite S', X', U', SC', FC', T'.
    rewrite !submissions_app.
    destruct (r <? 0), (c_write_signal c), (c_write_ret c <? 0),
      (stop_transfers st); simpl; rewrite ?app_nil_r; repeat split; reflexivity.
Qed.

(** *** Shutdown *)

Lemma usb_deliver_stopped c st :
  stop_transfers st = true ->
  usb (deliver (Complete c) st)
  = match usb st !! c_slot c with
    | Some Submitted => <[c_slot c := Idle]> (usb st)
    | _ => usb st
    end.
Proof.
  intros H. simpl. destruct (usb st !! c_slot c) as [[|]|]; try reflexivity.
  destruct (transfer_callback_fields c (set_usb (<[c_slot c := Idle]> (usb st)) st))
    as (_ & _ & _ & _ & _ & _ & U & _).
  rewrite U. unfold stop_seen. simpl. rewrite H. reflexivity.
Qed.

Lemma stop_transfers_step c x :
  stop_transfers (snd c) = true -> stop_transfers (snd (step c x)) = true.
Proof.
  destruct c as [p st]. simpl. intros H.
  destruct x as [r|[c|]|]; destruct p; simpl; try exact H; try reflexivity.
  - unfold Pipeline.enter_submit.
    destruct (submit_iteration_fields i r st) as (_ & S & _).
    destruct (_ <? _)%nat; simpl; rewrite S; exact H.
  - apply (stop_transfers_deliver (Complete c)), H.
  - apply (stop_transfers_deliver (Complete c)), H.
  - unfold streaming_return, drain_head. rewrite H. simpl.
    destruct (_ =? 0); reflexivity.
  - unfold drain_head. simpl. destruct (_ =? 0); exact H.
Qed.

Lemma stop_transfers_exec xs : forall c,
  stop_transfers (snd c) = true -> stop_transfers (snd (exec xs c)) = true.
Proof.
  induction xs as [|x xs IH]; intros c H; [exact H|].
  apply IH, stop_transfers_step, H.
Qed.

(** The drain loop does not give up: as long as a transfer is pending,
    returns of [libusb_handle_events] without a completion only lead to the
    next call. *)
Lemma drain_waits n : forall st,
  xfers_in_progress st <> 0 ->
  exists st',
    exec (repeat Return n) (Draining, st) = (Draining, st') /\
    xfers_in_progress st' = xfers_in_progress st /\
    usb st' = usb st /\
    stop_commands (trace st') = stop_commands (trace st).
Proof.
  induction n as [|n IH]; intros st Hx.
  - exists st. repeat split.
  - simpl. unfold drain_head. simpl.
    destruct (xfers_in_progress st =? 0) eqn:E; [lia|].
    edestruct IH as (st' & He & Hx' & Hu & Hs); [|rewrite He].
    + simpl. exact Hx.
    + exists st'. split; [reflexivity|]. simpl in Hx', Hu, Hs.
      rewrite Hx', Hu, Hs, !stop_commands_app. unfold stop_commands. simpl.
      repeat split. lia.
Qed.

(** The drain loop ends once every pending transfer has completed. *)
Lemma drain_completes xs : forall p st,
  p = Draining \/ p = Stopped ->
  in_flight_ok st ->
  stop_transfers st = true ->
  (p = Draining -> completes_all xs st) ->
  fst (exec (xs ++ [Return]) (p, st)) = Stopped.
Proof.
  induction xs as [|x xs IH]; intros p st Hp Hok Hstop Hall.
  - destruct Hp as [-> | ->]; [|reflexivity].
    simpl. unfold drain_head. simpl.
    assert (E : xfers_in_progress st = 0).
    { destruct Hok as (_ & C & _). rewrite C. apply count_submitted_zero.
      intros i Hi. destruct (Hall eq_refl i Hi) as (c & _ & []). }
    rewrite E. reflexivity.
  - change (exec ((x :: xs) ++ [Return]) (p, st))
      with (exec (xs ++ [Return]) (step (p, st) x)).
    pose proof (in_flight_ok_step (p, st) x Hok) as Hok'.
    pose proof (stop_transfers_step (p, st) x Hstop) as Hstop'.
    destruct (step (p, st) x) as [p' st'] eqn:Es.
    simpl in Hok', Hstop'.
    destruct Hp as [-> | ->].
    + assert (Hp' : (p' = Draining \/ p' = Stopped) /\
                    forall i, usb st' !! i = Some Submitted ->
                              usb st !! i = Some Submitted /\
                              forall c, x = Event (Complete c) -> c_slot c <> i).
      { destruct x as [r|[c|]|]; simpl in Es.
        - injection Es as <- <-. split; [auto|]. intros i Hi.
          split; [exact Hi | discriminate].
        - injection Es as <- <-. split; [auto|]. intros i Hi.
          pose proof (usb_deliver_stopped c st Hstop) as U. simpl in U.
          rewrite U in Hi.
          destruct (usb st !! c_slot c) as [[|]|] eqn:E.
          + split; [exact Hi|]. intros c' [= <-]. congruence.
          + destruct (decide (c_slot c = i)) as [<-|Hne].
            * rewrite list_lookup_insert_eq in Hi; [discriminate|].
              apply lookup_lt_is_Some. eauto.
            * rewrite list_lookup_insert_ne in Hi by exact Hne.
              split; [exact Hi|]. intros c' [= <-]. exact Hne.
          + split; [exact Hi|]. intros c' [= <-]. congruence.
        - injection Es as <- <-. split; [auto|]. intros i Hi.
          split; [exact Hi | discriminate].
        - unfold drain_head in Es. simpl in Es.
          destruct (xfers_in_progress st =? 0); injection Es as <- <-;
            (split; [auto|]); intros i Hi; (split; [exact Hi | discriminate]). }
      destruct Hp' as (Hp' & Hsub).
      apply IH; try assumption.
      intros _ i Hi. destruct (Hsub i Hi) as (Hi0 & Hne).
      destruct (Hall eq_refl i Hi0) as (c & Hc & [Hx | Hin]).
      * exfalso. apply (Hne c); [exact Hx | exact Hc].
      * exists c. split; assumption.
    + assert (p' = Stopped).
      { destruct x as [r|[c|]|]; simpl in Es; congruence. }
      apply IH; try assumption; [auto | intros; congruence].
Qed.

Ltac split_shutdown :=
  unfold shutdown_ok; simpl;
  repeat match goal with
         | |- _ /\ _ => split
         | |- _ -> _ => intro
         | H : _ \/ _ |- _ => destruct H
         end;
  try discriminate; try assumption; try lia; auto.

Lemma stop_commands_emit e st :
  stop_commands (trace (emit e st))
  = (stop_commands (trace st) + stop_commands [e])%nat.
Proof. simpl. apply stop_commands_app. Qed.


Lemma shutdown_ok_drain_head st :
  stop_commands (trace st) = 0%nat ->
  stop_transfers st = true ->
  shutdown_ok (drain_head st).
Proof.
  intros Hs Hstop. unfold drain_head.
  destruct (xfers_in_progress st =? 0) eqn:E; unfold shutdown_ok;
    cbn [fst snd]; rewrite ?stop_commands_emit, Hs; split_shutdown.
Qed.

Lemma shutdown_ok_step c x : shutdown_ok c -> shutdown_ok (step c x).
Proof.
  destruct c as [p st]. intros (Hs & Hx & Hstop). simpl in Hs, Hx, Hstop.
  destruct x as [r|[c|]|]; destruct p; cbn [Pipeline.step];
    try (split; [exact Hs | split; [exact Hx | exact Hstop]]).
  - unfold Pipeline.enter_submit.
    destruct (submit_iteration_fields i r st) as (_ & _ & _ & _ & T).
    destruct (_ <? _)%nat; unfold shutdown_ok, Pipeline.configure;
      cbn [fst snd];
      rewrite ?stop_commands_emit, T, stop_commands_app, Hs;
      split_shutdown.
  - unfold shutdown_ok. cbn [fst snd].
    rewrite (stop_commands_deliver (Complete c)), Hs. split_shutdown.
  - unfold shutdown_ok. cbn [fst snd].
    rewrite (stop_commands_deliver (Complete c)), Hs. split_shutdown.
    apply (stop_transfers_deliver (Complete c)). auto.
  - unfold shutdown_ok. simpl. rewrite stop_commands_app, Hs. split_shutdown.
  - unfold shutdown_ok. simpl. rewrite stop_commands_app, Hs. split_shutdown.
  - unfold shutdown_ok. simpl. rewrite stop_commands_app, Hs. split_shutdown.
  - unfold shutdown_ok. simpl. rewrite stop_commands_app, Hs. split_shutdown.
  - unfold streaming_return. destruct (stop_transfers st) eqn:E.
    + apply shutdown_ok_drain_head; [|reflexivity].
      simpl. rewrite stop_commands_app, Hs. reflexivity.
    + split_shutdown.
  - apply shutdown_ok_drain_head.
    + simpl. rewrite stop_commands_app, Hs. reflexivity.
    + simpl. auto.
Qed.

Lemma shutdown_ok_exec xs : forall c, shutdown_ok c -> shutdown_ok (exec xs c).
Proof.
  induction xs as [|x xs IH]; intros c H; [exact H|].
  apply IH, shutdown_ok_step, H.
Qed.

Lemma shutdown_ok_start q rnd : shutdown_ok (start DITH RANDO cfg q rnd).
Proof.
  unfold start, Pipeline.enter_submit, shutdown_ok. simpl.
  destruct (0 <? q)%nat; split_shutdown.
Qed.

Lemma exec_app xs ys c : exec (xs ++ ys) c = exec ys (exec xs c).
Proof. unfold Pipeline.exec. apply fold_left_app. Qed.

(** C5.  Once [stop_transfers] is set it stays set and no callback calls
    [libusb_submit_transfer]: the transfer stays with the program and the
    counter goes down by one.  In the drain loop, as long as
    [xfers_in_progress] is not zero, [libusb_handle_events] may return any
    number of times without [main] leaving the loop (there is no timeout);
    when every transfer in flight has completed the loop ends.  All along a
    run the stop command has been sent exactly once when [main] is past the
    drain loop, where [xfers_in_progress] is zero, and not at all before. *)
Theorem shutdown_drains_then_stops_once :
  (forall (c : completion) (st : state),
     stop_transfers st = true ->
     let st' := transfer_callback c st in
     submissions (trace st') = submissions (trace st) /\
     usb st' = usb st /\
     xfers_in_progress st' = xfers_in_progress st - 1 /\
     stop_transfers st' = true) /\
  (forall (xs : list input) (c : pc * state),
     stop_transfers (snd c) = true ->
     stop_transfers (snd (exec xs c)) = true) /\
  (forall (n : nat) (st : state),
     xfers_in_progress st <> 0 ->
     exists st',
       exec (repeat Return n) (Draining, st) = (Draining, st') /\
       xfers_in_progress st' = xfers_in_progress st /\
       stop_commands (trace st') = stop_commands (trace st)) /\
  (forall (q : nat) (rnd : bool) (xs ys : list input),
     fst (run q rnd xs) = Draining ->
     completes_all ys (snd (run q rnd xs)) ->
     fst (run q rnd (xs ++ ys ++ [Return])) = Stopped) /\
  (forall (q : nat) (rnd : bool) (xs : list input),
     stop_commands (trace (snd (run q rnd xs)))
     = match fst (run q rnd xs) with Stopped => 1%nat | _ => 0%nat end /\
     (fst (run q rnd xs) = Stopped ->
      xfers_in_progress (snd (run q rnd xs)) = 0 /\
      stop_transfers (snd (run q rnd xs)) = true)).
Proof.
  assert (K : forall q rnd xs, shutdown_ok (run q rnd xs)).
  { intros q rnd xs. apply shutdown_ok_exec, shutdown_ok_start. }
  split; [|split; [|split; [|split]]].
  - intros c st Hstop st'. subst st'.
    destruct (transfer_callback_fields c st) as (_ & _ & S & _ & _ & X & U & T).
    assert (E : stop_seen c st = true)
      by (unfold stop_seen; rewrite Hstop; reflexivity).
    rewrite S, X, U, T, E, !submissions_app. simpl.
    rewrite app_nil_r.
    destruct (completed (c_status c)), (c_write_signal c), (c_write_ret c <? 0);
      simpl; rewrite ?app_nil_r; repeat split; lia.
  - intros xs c H. apply stop_transfers_exec, H.
  - intros n st Hx. destruct (drain_waits n st Hx) as (st' & He & Hx' & _ & Hs).
    exists st'. auto.
  - intros q rnd xs ys Hp Hall. unfold Pipeline.run in *.
    rewrite exec_app.
    destruct (K q rnd xs) as (_ & _ & Hstop).
    pose proof (in_flight_ok_exec xs (start DITH RANDO cfg q rnd)
                  (in_flight_ok_enter_submit 0 (initial q rnd)
                     (in_flight_ok_initial q rnd))) as Hok.
    unfold Pipeline.run in *.
    destruct (exec xs (start DITH RANDO cfg q rnd)) as [p st].
    simpl in Hp, Hall, Hstop, Hok. subst p.
    apply drain_completes; auto.
  - intros q rnd xs. destruct (K q rnd xs) as (Hs & Hx & Hstop).
    split; [exact Hs|]. intros Hp. split; [apply Hx, Hp | apply Hstop; auto].
Qed.

End MainFacts.

Lemma shutdown_drains_then_stops_once_witness :
  stop_transfers (snd (run 1 2 demo_cfg 2 false demo_startup)) = true /\
  submissions
    (trace (transfer_callback (demo_completion 0)
              (snd (run 1 2 demo_cfg 2 false demo_startup))))
  = submissions (trace (snd (run 1 2 demo_cfg 2 false demo_startup))) /\
  xfers_in_progress (snd (run 1 2 demo_cfg 2 false demo_startup)) <> 0 /\
  (exists st',
     exec 1 2 demo_cfg (repeat Return 3)
       (Draining, snd (run 1 2 demo_cfg 2 false demo_startup))
     = (Draining, st') /\
     xfers_in_progress st' = 2) /\
  fst (run 1 2 demo_cfg 2 false demo_startup) = Draining /\
  completes_all demo_drain (snd (run 1 2 demo_cfg 2 false demo_startup)) /\
  fst (run 1 2 demo_cfg 2 false (demo_startup ++ demo_drain ++ [Return]))
  = Stopped /\
  stop_commands
    (trace (snd (run 1 2 demo_cfg 2 false
                   (demo_startup ++ demo_drain ++ [Return])))) = 1%nat.
Proof.
  destruct (shutdown_drains_then_stops_once 1 2 demo_cfg)
    as (A & _ & C & D & E).
  assert (Hstop : stop_transfers (snd (run 1 2 demo_cfg 2 false demo_startup))
                  = true) by reflexivity.
  assert (Hx : xfers_in_progress (snd (run 1 2 demo_cfg 2 false demo_startup))
               <> 0) by (vm_compute; discriminate).
  assert (Hall : completes_all demo_drain
                   (snd (run 1 2 demo_cfg 2 false demo_startup))).
  { intros i Hi. destruct i as [|[|i]].
    - exists (demo_completion 0). split; [reflexivity | right; left; reflexivity].
    - exists (demo_completion 1). split; [reflexivity | left; reflexivity].
    - vm_compute in Hi. discriminate. }
  split; [exact Hstop|].
  split; [apply (A (demo_completion 0) _ Hstop)|].
  split; [exact Hx|].
  split.
  { destruct (C 3%nat _ Hx) as (st' & He & Hx' & _).
    exists st'. split; [exact He | rewrite Hx'; reflexivity]. }
  split; [reflexivity|].
  split; [exact Hall|].
  split; [apply (D 2%nat false demo_startup demo_drain eq_refl Hall)|].
  apply (E 2%nat false (demo_startup ++ demo_drain ++ [Return])).
Defined.

Lemma failed_transfer_is_absorbed_witness :
  completed LIBUSB_TRANSFER_ERROR = false /\
  failure_count
    (transfer_callback
       (Completion 0 LIBUSB_TRANSFER_ERROR (map byte.of_Z [1; 2]) 0 0 false 0)
       (State 1 false 0 false 7 3 [Idle] []))
  = uint32 (3 + 1).
Proof.
  split; [reflexivity|].
  apply (failed_transfer_is_absorbed 1 2 (DeviceConfig false 0 128 32000000)
           (Completion 0 LIBUSB_TRANSFER_ERROR (map byte.of_Z [1; 2]) 0 0
              false 0)
           (State 1 false 0 false 7 3 [Idle] [])).
  reflexivity.
Defined.

Lemma write_outcome_is_absorbed_witness :
  broken_pipe (demo_broken_pipe 0) /\
  completed (c_status (demo_broken_pipe 0)) = true /\
  logged (trace (transfer_callback (demo_broken_pipe 0)
                   (State 1 false 1 false 7 3 [Idle] [])))
  = [MsgAbort; MsgWriteError] /\
  counters (transfer_callback (demo_broken_pipe 0)
              (State 1 false 1 false 7 3 [Idle] []))
  = (8, 3) /\
  stop_transfers (transfer_callback (demo_broken_pipe 0)
                    (State 1 false 1 false 7 3 [Idle] []))
  = true /\
  submissions (trace (transfer_callback (demo_broken_pipe 0)
                        (State 1 false 1 false 7 3 [Idle] [])))
  = [] /\
  xfers_in_progress (transfer_callback (demo_broken_pipe 0)
                       (State 1 false 1 false 7 3 [Idle] []))
  = 0.
Proof.
  assert (H : completed (c_status (demo_broken_pipe 0)) = true) by reflexivity.
  destruct (write_outcome_is_absorbed 1 2 demo_cfg (demo_broken_pipe 0)
              (State 1 false 1 false 7 3 [Idle] []) H)
    as (L & C & S & B & _ & X & _).
  split; [repeat split|].
  split; [exact H|]. split; [exact L|]. split; [exact C|].
  split; [exact S|]. split; [exact B | exact X].
Defined.

(** C8 as stated fails: a completed four-byte transfer of which [write]
    takes only two bytes is a short write, yet the callback prints nothing
    and leaves the counters a complete write would leave. *)
Lemma short_write_not_reported :
  write_short
    (Completion 0 LIBUSB_TRANSFER_COMPLETED (map byte.of_Z [1; 2; 3; 4]) 4 2
       false 0)
  /\
  ~ write_failure_logged
      (Completion 0 LIBUSB_TRANSFER_COMPLETED (map byte.of_Z [1; 2; 3; 4]) 4 2
       false 0)
      (State 1 false 0 false 7 3 [Idle] [])
  /\
  ~ write_failure_counted
      (Completion 0 LIBUSB_TRANSFER_COMPLETED (map byte.of_Z [1; 2; 3; 4]) 4 2
       false 0)
      (State 1 false 0 false 7 3 [Idle] []).
Proof.
  split; [split; [reflexivity | simpl; lia]|].
  split; intros H; apply H; reflexivity.
Qed.


End PipelineFacts.

(** ** The arithmetic of [double] *)

Module DoubleFacts.
Import Double.

Lemma pow2_pos e : (0 < pow2 e)%Q.
Proof. unfold pow2. apply Qpower_0_lt. reflexivity. Qed.

Lemma pow2_add a b : (pow2 (a + b) == pow2 a * pow2 b)%Q.
Proof. unfold pow2. apply Qpower_plus. discriminate. Qed.

(** A power of two with a difference of non-negative exponents, as a
    fraction of integers. *)
Lemma pow2_sub a b :
  0 <= a -> 0 <= b -> (pow2 (a - b) == inject_Z (2 ^ a) / inject_Z (2 ^ b))%Q.
Proof.
  intros Ha Hb. unfold pow2. rewrite Qpower_minus by discriminate.
  rewrite !Zpower_Qpower by assumption. reflexivity.
Qed.

(** Comparing two fractions with positive denominators. *)
Lemma Qdiv_le_cross (a b c d : Z) :
  0 < b -> 0 < d ->
  (inject_Z a / inject_Z b <= inject_Z c / inject_Z d)%Q <-> a * d <= c * b.
Proof.
  intros Hb Hd. destruct b as [|b|b]; try lia. destruct d as [|d|d]; try lia.
  rewrite <- !Qmake_Qdiv. unfold Qle. simpl. reflexivity.
Qed.

Lemma Qdiv_lt_cross (a b c d : Z) :
  0 < b -> 0 < d ->
  (inject_Z a / inject_Z b < inject_Z c / inject_Z d)%Q <-> a * d < c * b.
Proof.
  intros Hb Hd. destruct b as [|b|b]; try lia. destruct d as [|d|d]; try lia.
  rewrite <- !Qmake_Qdiv. unfold Qlt. simpl. reflexivity.
Qed.

Lemma Qabs_pos_fraction (x : Q) :
  (0 < x)%Q ->
  0 < Qnum x /\ (Qabs x == inject_Z (Qnum x) / inject_Z (Z.pos (Qden x)))%Q.
Proof.
  intros Hx. destruct x as [n d]. unfold Qlt in Hx. simpl in Hx |- *.
  split; [lia|]. rewrite <- Qmake_Qdiv. rewrite Z.abs_eq by lia. reflexivity.
Qed.

(** [ilogb x] is the exponent of the binade of [x]. *)
Lemma ilogb_spec (x : Q) :
  (0 < x)%Q -> (pow2 (ilogb x) <= x < pow2 (ilogb x + 1))%Q.
Proof.
  intros Hx. destruct (Qabs_pos_fraction x Hx) as (Hn & Ex).
  assert (Ea : (Qabs x == x)%Q) by (apply Qabs_pos, Qlt_le_weak, Hx).
  unfold ilogb. rewrite (Z.abs_eq (Qnum x)) by lia.
  set (n := Qnum x) in *. set (d := Z.pos (Qden x)) in *.
  assert (Hd : 0 < d) by (unfold d; lia).
  pose proof (Z.log2_spec n Hn) as Ln. pose proof (Z.log2_spec d Hd) as Ld.
  pose proof (Z.log2_nonneg n) as Hln. pose proof (Z.log2_nonneg d) as Hld.
  set (a := Z.log2 n) in *. set (b := Z.log2 d) in *.
  rewrite Z.pow_succ_r in Ln, Ld by assumption.
  assert (Pa : 0 < 2 ^ a) by (apply Z.pow_pos_nonneg; lia).
  assert (Pb : 0 < 2 ^ b) by (apply Z.pow_pos_nonneg; lia).
  destruct (Qle_bool (pow2 (a - b)) (Qabs x)) eqn:E.
  - apply Qle_bool_iff in E. rewrite Ea in E. split; [exact E|].
    rewrite <- Ea, Ex.
    replace (a - b + 1) with (a + 1 - b) by lia.
    rewrite pow2_sub by lia. apply Qdiv_lt_cross; [lia | lia |].
    rewrite Z.pow_add_r by lia. change (2 ^ 1) with 2. nia.
  - assert (E' : (x < pow2 (a - b))%Q).
    { apply Qnot_le_lt. intros H. rewrite <- Ea in H.
      apply Qle_bool_iff in H. congruence. }
    replace (a - b - 1 + 1) with (a - b) by lia. split; [|exact E'].
    rewrite <- Ea, Ex.
    replace (a - b - 1) with (a - (b + 1)) by lia.
    rewrite pow2_sub by lia. apply Qdiv_le_cross; [|lia|].
    + apply Z.pow_pos_nonneg; lia.
    + rewrite Z.pow_add_r by lia. change (2 ^ 1) with 2. nia.
Qed.

(** The nearest integer is at most one half away. *)
Lemma nearest_even_error (y : Q) :
  (y - (1 # 2) <= inject_Z (nearest_even y) <= y + (1 # 2))%Q.
Proof.
  unfold nearest_even.
  pose proof (Qfloor_le y) as Hlo. pose proof (Qlt_floor y) as Hhi.
  rewrite inject_Z_plus in Hhi. change (inject_Z 1) with 1%Q in Hhi.
  destruct (Qcompare_spec (y - inject_Z (Qfloor y)) (1 # 2)) as [E|E|E].
  - destruct (Z.even (Qfloor y)); rewrite ?inject_Z_plus;
      change (inject_Z 1) with 1%Q;
      set (f := inject_Z (Qfloor y)) in *; clearbody f; lra.
  - set (f := inject_Z (Qfloor y)) in *; clearbody f; lra.
  - rewrite inject_Z_plus. change (inject_Z 1) with 1%Q.
    set (f := inject_Z (Qfloor y)) in *; clearbody f; lra.
Qed.

Lemma nearest_even_range (y : Q) (lo hi : Z) :
  (inject_Z lo <= y)%Q -> (y <= inject_Z hi)%Q ->
  lo <= nearest_even y <= hi.
Proof.
  intros Hlo Hhi.
  assert (Hf : lo <= Qfloor y <= hi).
  { split.
    - rewrite <- (Qfloor_Z lo). apply Qfloor_resp_le, Hlo.
    - rewrite <- (Qfloor_Z hi). apply Qfloor_resp_le, Hhi. }
  assert (Hc : (inject_Z (Qfloor y) == y)%Q \/ Qfloor y + 1 <= hi).
  { destruct (Z.eq_dec (Qfloor y) hi) as [E|E]; [|right; lia].
    left. apply Qle_antisym; [apply Qfloor_le|]. rewrite E. exact Hhi. }
  unfold nearest_even.
  destruct (Qcompare_spec (y - inject_Z (Qfloor y)) (1 # 2)) as [E|E|E].
  - destruct Hc as [Hc|Hc]; [rewrite Hc in E; exfalso; lra|].
    destruct (Z.even (Qfloor y)); lia.
  - lia.
  - destruct Hc as [Hc|Hc]; [rewrite Hc in E; exfalso; lra | lia].
Qed.

Lemma round_eq (x : Q) :
  (0 < x)%Q ->
  (round x == inject_Z (nearest_even (x / pow2 (ilogb x - 52)))
              * pow2 (ilogb x - 52))%Q.
Proof.
  intros Hx. unfold round.
  destruct (Qeq_bool x 0) eqn:E.
  - apply Qeq_bool_iff in E. rewrite E in Hx. discriminate.
  - apply Qred_correct.
Qed.

Lemma pow2_ulp (k : Z) : (pow2 (k - 52) == pow2 k * (1 # 4503599627370496))%Q.
Proof. unfold Z.sub. rewrite pow2_add. reflexivity. Qed.

(** Rounding moves a positive number by at most half a unit in the last
    place, that is by at most 2^-53 of its value. *)
Lemma round_error (x : Q) :
  (0 <= x)%Q ->
  (x - x * half_ulp <= round x <= x + x * half_ulp)%Q.
Proof.
  intros H0. destruct (Qle_lt_or_eq _ _ H0) as [Hx|Hx].
  2:{ assert (E : round x = 0%Q).
      { unfold round. destruct (Qeq_bool x 0) eqn:E; [reflexivity|].
        apply Qeq_bool_neq in E. elim E. symmetry. exact Hx. }
      rewrite E, <- Hx. split; discriminate. }
  rewrite (round_eq x Hx).
  destruct (ilogb_spec x Hx) as (Hlo & _).
  pose proof (pow2_pos (ilogb x - 52)) as Hp.
  pose proof (pow2_ulp (ilogb x)) as Eu.
  set (p := pow2 (ilogb x - 52)) in *.
  pose proof (nearest_even_error (x / p)) as (N1 & N2).
  set (n := inject_Z (nearest_even (x / p))) in *. clearbody n.
  assert (Ey : (x / p * p == x)%Q) by (field; lra).
  assert (M1 : ((x / p - (1 # 2)) * p <= n * p)%Q)
    by (apply Qmult_le_compat_r; lra).
  assert (M2 : (n * p <= (x / p + (1 # 2)) * p)%Q)
    by (apply Qmult_le_compat_r; lra).
  setoid_replace ((x / p - (1 # 2)) * p)%Q with (x / p * p - (1 # 2) * p)%Q
    using relation Qeq in M1 by ring.
  setoid_replace ((x / p + (1 # 2)) * p)%Q with (x / p * p + (1 # 2) * p)%Q
    using relation Qeq in M2 by ring.
  rewrite Ey in M1, M2.
  set (q := pow2 (ilogb x)) in *. clearbody q p. unfold half_ulp.
  set (np := (n * p)%Q) in *. clearbody np. lra.
Qed.

(** What [round] returns has a significand of 53 bits. *)
Lemma round_significand (x : Q) :
  (0 < x)%Q ->
  exists m : Z,
    (round x == inject_Z m * pow2 (ilogb x - 52))%Q /\
    2 ^ 52 <= m <= 2 ^ 53.
Proof.
  intros Hx. exists (nearest_even (x / pow2 (ilogb x - 52))).
  split; [apply round_eq, Hx|].
  destruct (ilogb_spec x Hx) as (Hlo & Hhi).
  pose proof (pow2_pos (ilogb x - 52)) as Hp.
  pose proof (pow2_ulp (ilogb x)) as Eu.
  assert (Eu' : (pow2 (ilogb x + 1) == pow2 (ilogb x) * 2)%Q)
    by (rewrite pow2_add; reflexivity).
  set (p := pow2 (ilogb x - 52)) in *.
  set (q := pow2 (ilogb x)) in *. set (q' := pow2 (ilogb x + 1)) in *.
  clearbody p q q'.
  apply nearest_even_range.
  - apply Qle_shift_div_l; [exact Hp|].
    change (inject_Z (2 ^ 52)) with (4503599627370496%Q). lra.
  - apply Qle_shift_div_r; [exact Hp|].
    change (inject_Z (2 ^ 53)) with (9007199254740992%Q). lra.
Qed.

Lemma nearest_even_Z (k : Z) : nearest_even (inject_Z k) = k.
Proof.
  unfold nearest_even. rewrite Qfloor_Z.
  destruct (Qcompare_spec (inject_Z k - inject_Z k) (1 # 2)) as [E|E|E].
  - exfalso. lra.
  - reflexivity.
  - exfalso. lra.
Qed.

#[global] Instance nearest_even_comp : Proper (Qeq ==> eq) nearest_even.
Proof.
  intros x y E. unfold nearest_even. rewrite (Qfloor_comp x y E).
  assert (E' : (x - inject_Z (Qfloor y) == y - inject_Z (Qfloor y))%Q)
    by (rewrite E; reflexivity).
  rewrite (Qcompare_comp _ _ E' (1 # 2) (1 # 2) (Qeq_refl _)). reflexivity.
Qed.

(** The conversion of an integer below 2^53 to [double] is exact. *)
Lemma round_Z (n : Z) : 0 <= n < 2 ^ 53 -> (round (inject_Z n) == inject_Z n)%Q.
Proof.
  intros Hn. destruct (Z.eq_dec n 0) as [->|Hn0]; [reflexivity|].
  assert (Hx : (0 < inject_Z n)%Q) by (rewrite <- (Zlt_Qlt 0); lia).
  rewrite (round_eq _ Hx).
  destruct (ilogb_spec _ Hx) as (Hlo & _).
  set (k := ilogb (inject_Z n)) in *.
  assert (Hk : k <= 52).
  { destruct (Z.le_gt_cases k 52) as [H|H]; [exact H|]. exfalso.
    assert (H53 : (pow2 53 <= pow2 k)%Q)
      by (apply Qpower_le_compat_l; [lia | discriminate]).
    change (pow2 53) with (inject_Z (2 ^ 53)) in H53.
    assert (H' : (inject_Z (2 ^ 53) <= inject_Z n)%Q)
      by (eapply Qle_trans; eassumption).
    rewrite <- Zle_Qle in H'. lia. }
  assert (Ep : (pow2 (k - 52) * pow2 (52 - k) == 1)%Q).
  { rewrite <- pow2_add. replace (k - 52 + (52 - k)) with 0 by lia.
    reflexivity. }
  assert (Ez : (pow2 (52 - k) == inject_Z (2 ^ (52 - k)))%Q).
  { unfold pow2. rewrite Zpower_Qpower by lia. reflexivity. }
  pose proof (pow2_pos (k - 52)) as Hp.
  set (p := pow2 (k - 52)) in *. set (q := pow2 (52 - k)) in *.
  assert (Ey : (inject_Z n / p == inject_Z (n * 2 ^ (52 - k)))%Q).
  { rewrite inject_Z_mult, <- Ez.
    setoid_replace (inject_Z n / p)%Q with (inject_Z n * (p * q) / p)%Q
      using relation Qeq by (rewrite Ep; field; lra).
    field. lra. }
  rewrite Ey, nearest_even_Z, inject_Z_mult, <- Ez.
  setoid_replace (inject_Z n * q * p)%Q with (inject_Z n * (p * q))%Q
    using relation Qeq by ring.
  rewrite Ep. ring.
Qed.

Lemma round_Z_nonzero (n : Z) :
  0 < n < 2 ^ 53 -> Qeq_bool (round (inject_Z n)) 0 = false.
Proof.
  intros Hn. destruct (Qeq_bool (round (inject_Z n)) 0) eqn:E; [|reflexivity].
  apply Qeq_bool_iff in E. rewrite round_Z in E by lia.
  exfalso. unfold Qeq in E. simpl in E. lia.
Qed.

(** Dividing by at least two halves a bound. *)
Lemma Qdiv_halves (w b d : Q) :
  (2 <= d)%Q -> (- b <= w <= b)%Q ->
  (- (b * (1 # 2)) <= w / d <= b * (1 # 2))%Q.
Proof.
  intros Hd [H1 H2].
  assert (Hb : (0 <= b)%Q) by lra.
  assert (Hbd : (b * 2 <= b * d)%Q).
  { rewrite !(Qmult_comm b). apply Qmult_le_compat_r; assumption. }
  set (bd := (b * d)%Q) in *.
  split.
  - apply Qle_shift_div_l; [lra|].
    setoid_replace (- (b * (1 # 2)) * d)%Q with (- (1 # 2) * bd)%Q
      using relation Qeq by (unfold bd; ring).
    clearbody bd. lra.
  - apply Qle_shift_div_r; [lra|].
    setoid_replace (b * (1 # 2) * d)%Q with ((1 # 2) * bd)%Q
      using relation Qeq by (unfold bd; ring).
    clearbody bd. lra.
Qed.

(** The binade of a positive number is unique. *)
Lemma ilogb_unique (x : Q) (k : Z) :
  (pow2 k <= x < pow2 (k + 1))%Q -> ilogb x = k.
Proof.
  intros [Hlo Hhi].
  assert (Hx : (0 < x)%Q)
    by (eapply Qlt_le_trans; [apply (pow2_pos k) | exact Hlo]).
  destruct (ilogb_spec x Hx) as (Llo & Lhi).
  assert (H1 : (pow2 (ilogb x) < pow2 (k + 1))%Q)
    by (eapply Qle_lt_trans; eassumption).
  assert (H2 : (pow2 k < pow2 (ilogb x + 1))%Q)
    by (eapply Qle_lt_trans; eassumption).
  apply Qpower_lt_compat_l_inv in H1; [|reflexivity].
  apply Qpower_lt_compat_l_inv in H2; [|reflexivity].
  lia.
Qed.

(** [round] does not depend on how the fraction is written. *)
Lemma round_comp (x y : Q) : (0 < x)%Q -> (x == y)%Q -> round x = round y.
Proof.
  intros Hx E.
  assert (Hy : (0 < y)%Q) by (rewrite <- E; exact Hx).
  assert (Ek : ilogb y = ilogb x).
  { apply ilogb_unique. rewrite <- E. apply ilogb_spec, Hx. }
  unfold round. rewrite Ek.
  destruct (Qeq_bool x 0) eqn:E0.
  { apply Qeq_bool_iff in E0. rewrite E0 in Hx. discriminate. }
  destruct (Qeq_bool y 0) eqn:E1.
  { apply Qeq_bool_iff in E1. rewrite E1 in Hy. discriminate. }
  apply Qred_complete.
  assert (En : nearest_even (x / pow2 (ilogb x - 52))
               = nearest_even (y / pow2 (ilogb x - 52))).
  { apply nearest_even_comp. apply Qmult_comp; [exact E | reflexivity]. }
  rewrite En. reflexivity.
Qed.

Lemma Qfloor_unique (r : Q) (q : Z) :
  (inject_Z q <= r < inject_Z (q + 1))%Q -> Qfloor r = q.
Proof.
  intros [Hlo Hhi].
  assert (H1 : q <= Qfloor r).
  { rewrite <- (Qfloor_Z q). apply Qfloor_resp_le, Hlo. }
  assert (H2 : (inject_Z (Qfloor r) < inject_Z (q + 1))%Q)
    by (eapply Qle_lt_trans; [apply Qfloor_le | exact Hhi]).
  rewrite <- Zlt_Qlt in H2. lia.
Qed.

(** A quotient of integers taken in [double] and truncated is the integer
    quotient: the rounding never reaches the next integer. *)
Lemma Qfloor_round_div (a b : Z) :
  0 <= a < 2 ^ 53 -> 0 < b ->
  Qfloor (round (inject_Z a / inject_Z b)) = a / b.
Proof.
  intros Ha Hb.
  assert (Qb : (0 < inject_Z b)%Q) by (rewrite <- (Zlt_Qlt 0); exact Hb).
  pose proof (Z.div_mod a b ltac:(lia)) as Ediv.
  pose proof (Z.mod_pos_bound a b Hb) as Hm.
  assert (Hq : 0 <= a / b <= a).
  { split; [apply Z.div_pos; lia|]. apply Z.div_le_upper_bound; nia. }
  set (q := a / b) in *. set (m := a mod b) in *.
  assert (Ey : (inject_Z a / inject_Z b
                == inject_Z q + inject_Z m / inject_Z b)%Q).
  { rewrite Ediv, inject_Z_plus, inject_Z_mult. field. lra. }
  destruct (Z.eq_dec m 0) as [Em|Em].
  - (* the quotient is an integer *)
    assert (Ey' : (inject_Z a / inject_Z b == inject_Z q)%Q).
    { rewrite Ey, Em. field. lra. }
    destruct (Z.eq_dec q 0) as [Eq0|Eq0].
    + assert (E0 : round (inject_Z a / inject_Z b) = 0%Q).
      { unfold round.
        destruct (Qeq_bool (inject_Z a / inject_Z b) 0) eqn:E; [reflexivity|].
        apply Qeq_bool_neq in E. elim E. rewrite Ey', Eq0. reflexivity. }
      rewrite E0, Eq0. reflexivity.
    + assert (Hpos : (0 < inject_Z a / inject_Z b)%Q).
      { rewrite Ey'. rewrite <- (Zlt_Qlt 0). lia. }
      rewrite (round_comp _ _ Hpos Ey').
      rewrite (Qfloor_comp _ _ (round_Z q ltac:(lia))). apply Qfloor_Z.
  - (* at least 1/b away from the integers around it *)
    assert (P0 : (0 <= inject_Z a / inject_Z b)%Q).
    { apply Qle_shift_div_l; [exact Qb|]. rewrite Qmult_0_l.
      rewrite <- (Zle_Qle 0). lia. }
    pose proof (round_error _ P0) as R. unfold half_ulp in R.
    set (r := round (inject_Z a / inject_Z b)) in *. clearbody r.
    set (v := (/ inject_Z b)%Q).
    assert (Hv : (0 < v)%Q) by (apply Qinv_lt_0_compat, Qb).
    assert (Ebv : (inject_Z b * v == 1)%Q) by (unfold v; field; lra).
    assert (Eav : (inject_Z a / inject_Z b == inject_Z a * v)%Q)
      by reflexivity.
    assert (Emv : (inject_Z m / inject_Z b == inject_Z m * v)%Q)
      by reflexivity.
    rewrite Eav in R. rewrite Eav, Emv in Ey.
    assert (M1 : (1 * v <= inject_Z m * v)%Q).
    { apply Qmult_le_compat_r; [|lra]. change 1%Q with (inject_Z 1).
      rewrite <- Zle_Qle. lia. }
    assert (M2 : (inject_Z m * v <= (inject_Z b - 1) * v)%Q).
    { apply Qmult_le_compat_r; [|lra]. change 1%Q with (inject_Z 1).
      unfold Qminus.
      rewrite <- inject_Z_opp, <- inject_Z_plus, <- Zle_Qle. lia. }
    assert (A1 : (inject_Z a * (1 # 9007199254740992) * v < 1 * v)%Q).
    { apply Qmult_lt_compat_r; [exact Hv|].
      assert (Ha' : (inject_Z a < 9007199254740992)%Q).
      { change 9007199254740992%Q with (inject_Z (2 ^ 53)).
        rewrite <- Zlt_Qlt. lia. }
      lra. }
    apply Qfloor_unique. rewrite inject_Z_plus. change (inject_Z 1) with 1%Q.
    set (av := (inject_Z a * v)%Q) in *. set (mv := (inject_Z m * v)%Q) in *.
    setoid_replace (inject_Z a * (1 # 9007199254740992) * v)%Q
      with (av * (1 # 9007199254740992))%Q using relation Qeq in A1
      by (unfold av; ring).
    setoid_replace ((inject_Z b - 1) * v)%Q with (inject_Z b * v - v)%Q
      using relation Qeq in M2 by ring.
    rewrite Ebv in M2.
    set (iq := inject_Z q) in *. clearbody av mv iq v. lra.
Qed.

Lemma round_comp_nonneg (x y : Q) :
  (0 <= x)%Q -> (x == y)%Q -> round x = round y.
Proof.
  intros Hx E. destruct (Qle_lt_or_eq _ _ Hx) as [H|H].
  - apply round_comp; assumption.
  - unfold round.
    assert (E0 : Qeq_bool x 0 = true)
      by (apply Qeq_bool_iff; symmetry; exact H).
    assert (E1 : Qeq_bool y 0 = true)
      by (apply Qeq_bool_iff; rewrite <- E; symmetry; exact H).
    rewrite E0, E1. reflexivity.
Qed.

(** A product of integers that is below 2^53 is exact in [double]. *)
Lemma round_mul_Z (a b : Z) :
  0 <= a < 2 ^ 53 -> 0 <= b < 2 ^ 53 -> a * b < 2 ^ 53 ->
  (round (round (inject_Z a) * round (inject_Z b)) == inject_Z (a * b))%Q.
Proof.
  intros Ha Hb Hab.
  assert (E : (round (inject_Z a) * round (inject_Z b) == inject_Z (a * b))%Q).
  { rewrite (round_Z a Ha), (round_Z b Hb), inject_Z_mult. reflexivity. }
  assert (P : (0 <= round (inject_Z a) * round (inject_Z b))%Q).
  { rewrite E. rewrite <- (Zle_Qle 0). nia. }
  rewrite (round_comp_nonneg _ _ P E). apply round_Z. nia.
Qed.

(** [(uint32_t) (((double) l * 1048575) / (double) x)] and the like: the
    product is exact and the truncated quotient is the integer quotient. *)
Lemma Qfloor_round_mul_div (a c b : Z) :
  0 <= a < 2 ^ 53 -> 0 <= c < 2 ^ 53 -> a * c < 2 ^ 53 -> 0 < b < 2 ^ 53 ->
  Qfloor (round (round (round (inject_Z a) * round (inject_Z c))
                 / round (inject_Z b)))
  = a * c / b.
Proof.
  intros Ha Hc Hac Hb.
  assert (Qb : (0 < inject_Z b)%Q) by (rewrite <- (Zlt_Qlt 0); lia).
  assert (E : (round (round (inject_Z a) * round (inject_Z c))
               / round (inject_Z b)
               == inject_Z (a * c) / inject_Z b)%Q).
  { rewrite (round_mul_Z a c Ha Hc Hac), (round_Z b) by lia. reflexivity. }
  assert (P : (0 <= round (round (inject_Z a) * round (inject_Z c))
                    / round (inject_Z b))%Q).
  { rewrite E. apply Qle_shift_div_l; [exact Qb|]. rewrite Qmult_0_l.
    rewrite <- (Zle_Qle 0). nia. }
  rewrite (round_comp_nonneg _ _ P E). apply Qfloor_round_div; [nia | lia].
Qed.

Lemma Qfloor_round_div_Z (a b : Z) :
  0 <= a < 2 ^ 53 -> 0 < b < 2 ^ 53 ->
  Qfloor (round (round (inject_Z a) / round (inject_Z b))) = a / b.
Proof.
  intros Ha Hb.
  assert (Qb : (0 < inject_Z b)%Q) by (rewrite <- (Zlt_Qlt 0); lia).
  assert (E : (round (inject_Z a) / round (inject_Z b)
               == inject_Z a / inject_Z b)%Q).
  { rewrite (round_Z a Ha), (round_Z b) by lia. reflexivity. }
  assert (P : (0 <= round (inject_Z a) / round (inject_Z b))%Q).
  { rewrite E. apply Qle_shift_div_l; [exact Qb|]. rewrite Qmult_0_l.
    rewrite <- (Zle_Qle 0). lia. }
  rewrite (round_comp_nonneg _ _ P E). apply Qfloor_round_div; lia.
Qed.

End DoubleFacts.

(** ** The clock estimator *)

Module ClockFacts.
Import Clock DoubleFacts.

(** The doubling loop ends on every frequency of at least 1 Hz, with the
    first doubled value that reaches 1 MHz. *)
Lemma normalize_spec fuel : forall f,
  1 <= f ->
  1000000 <= f * 2 ^ Z.of_nat fuel ->
  exists k,
    0 <= k /\
    normalize fuel f = Some (f * 2 ^ k) /\
    1000000 <= f * 2 ^ k /\
    (k = 0 \/ f * 2 ^ (k - 1) < 1000000).
Proof.
  induction fuel as [|fuel IH]; intros f Hf Hfuel.
  - exists 0. simpl in *. rewrite Z.mul_1_r in *.
    destruct (f <? 1000000) eqn:E; [lia|]. auto with zarith.
  - simpl normalize. destruct (f <? 1000000) eqn:E.
    + destruct (IH (f * 2)) as (k & Hk & Hn & Hge & Hlt).
      * lia.
      * rewrite Nat2Z.inj_succ, Z.pow_succ_r in Hfuel by lia. lia.
      * exists (k + 1). rewrite Z.pow_add_r by lia.
        replace (k + 1 - 1) with k by lia.
        change (2 ^ 1) with 2.
        replace (f * (2 ^ k * 2)) with (f * 2 * 2 ^ k) by lia.
        split; [lia|]. split; [exact Hn|]. split; [exact Hge|]. right.
        apply Z.ltb_lt in E.
        destruct (Z.eq_dec k 0) as [-> | Hk0]; [simpl; lia|].
        destruct Hlt as [-> | Hlt]; [simpl; lia|].
        replace k with (k - 1 + 1) at 1 by lia.
        rewrite Z.pow_add_r by lia. change (2 ^ 1) with 2. lia.
    + exists 0. rewrite Z.mul_1_r. split; [lia|]. split; [reflexivity|].
      split; [lia | left; reflexivity].
Qed.

Lemma normalize_enough fuel f :
  1 <= f -> (20 <= fuel)%nat ->
  exists k,
    0 <= k /\
    normalize fuel f = Some (f * 2 ^ k) /\
    1000000 <= f * 2 ^ k /\
    (k = 0 \/ f * 2 ^ (k - 1) < 1000000).
Proof.
  intros Hf Hfuel. apply normalize_spec; [exact Hf|].
  assert (2 ^ 20 <= 2 ^ Z.of_nat fuel) by (apply Z.pow_le_mono_r; lia).
  change (2 ^ 20) with 1048576 in *. nia.
Qed.

(** The even divider: at most 900, and zero exactly above 450 MHz. *)
Lemma even_divider f :
  1000000 <= f ->
  let d := 900000000 / f in
  let divider := if d mod 2 =? 0 then d else uint32 (d - 1) in
  divider = (if Z.odd d then d - 1 else d) /\
  0 <= divider <= 900 /\
  0 <= divider * f <= 900000000 /\
  (divider = 0 <-> 450000000 < f).
Proof.
  intros Hf d divider.
  assert (Hd : 0 <= d <= 900).
  { unfold d. split; [apply Z.div_pos; lia|].
    apply Z.div_le_upper_bound; lia. }
  assert (Hdf : d * f <= 900000000).
  { unfold d. rewrite Z.mul_comm. apply Z.mul_div_le. lia. }
  assert (Hdf' : 900000000 < (d + 1) * f).
  { unfold d. pose proof (Z.mod_pos_bound 900000000 f ltac:(lia)).
    pose proof (Z.div_mod 900000000 f ltac:(lia)). nia. }
  assert (E : divider = if Z.odd d then d - 1 else d).
  { unfold divider. rewrite Zmod_odd.
    destruct (Z.odd d) eqn:Ho; simpl; [|reflexivity].
    apply uint32_small.
    assert (d <> 0) by (intros ->; discriminate). lia. }
  split; [exact E|]. rewrite E.
  destruct (Z.odd d) eqn:Ho.
  - assert (d <> 0) by (intros ->; discriminate).
    split; [lia|]. split; [nia|]. split; [intros; nia|].
    intros H1. assert (d < 2) by nia. lia.
  - split; [lia|]. split; [nia|]. split; [intros; nia|].
    intros H1. assert (d < 2) by nia.
    assert (d <> 1) by (intros ->; discriminate). lia.
Qed.

(** The divider, when it is not zero, and the PLL frequency it gives. *)
Lemma divider_pll_ranges g :
  1000000 <= g ->
  let d := 900000000 / g in
  let D := if d mod 2 =? 0 then d else uint32 (d - 1) in
  D <> 0 ->
  Z.even D = true /\ 2 <= D <= 900 /\ 450000000 < D * g <= 900000000.
Proof.
  intros Hg d D HD.
  destruct (even_divider g Hg) as (E & Hr & Hp & _).
  fold d in E, Hr, Hp. fold D in E, Hr, Hp.
  assert (Hdg : d * g <= 900000000 < (d + 1) * g).
  { unfold d. pose proof (Z.mod_pos_bound 900000000 g ltac:(lia)).
    pose proof (Z.div_mod 900000000 g ltac:(lia)). nia. }
  assert (Hd0 : 0 <= d) by (unfold d; apply Z.div_pos; lia).
  rewrite E in *. clear E D.
  destruct (Z.odd d) eqn:Ho.
  - assert (Hev : Z.even (d - 1) = true).
    { rewrite Z.even_sub, <- !Z.negb_odd, Ho. reflexivity. }
    assert (3 <= d).
    { destruct (Z.eq_dec d 1) as [->|]; [lia|].
      destruct (Z.eq_dec d 0) as [->|]; [discriminate|].
      destruct (Z.eq_dec d 2) as [->|]; [discriminate|]. lia. }
    split; [exact Hev|]. split; [lia|]. split; [nia | lia].
  - assert (Hev : Z.even d = true) by (rewrite <- Z.negb_odd, Ho; reflexivity).
    assert (2 <= d).
    { destruct (Z.eq_dec d 1) as [->|]; [discriminate|]. lia. }
    split; [exact Hev|]. split; [lia|]. split; [nia | lia].
Qed.

(** The multiplier and the numerator for a PLL frequency of at most
    900 MHz. *)
Lemma mult_num_ranges (X P : Z) :
  supported X -> 0 <= P <= 900000000 ->
  uint8 (P / X) = P / X /\
  0 <= P / X <= 90 /\
  0 <= P mod X * 1048575 / X < 1048575.
Proof.
  intros HX HP.
  assert (H0 : 0 < X) by (destruct HX; lia).
  assert (HM : 0 <= P / X <= 90).
  { split; [apply Z.div_pos; lia|].
    apply Z.lt_succ_r, Z.div_lt_upper_bound; destruct HX; lia. }
  split; [|split; [exact HM|]].
  - unfold uint8. apply Z.mod_small. change (2 ^ 8) with 256. lia.
  - pose proof (Z.mod_pos_bound P X ltac:(lia)) as HL. split.
    + apply Z.div_pos; lia.
    + apply Z.div_lt_upper_bound; lia.
Qed.

(** The lines of [actual_freq] that go through [double] on the way to an
    integer: [900000000UL / frequency], [divider * frequency] and
    [f = (double) l; f *= 1048575; f /= xtalFreq], each converted to
    [uint32_t].  For a frequency that is an integer below 2^32 the
    products are exact and the truncated quotients are the integer
    quotients, which is how [Clock.actual_freq] writes them. *)
Lemma integers_in_double (X g : Z) :
  supported X -> 1000000 <= g < 2 ^ 32 ->
  let D := (let d := 900000000 / g in
            if d mod 2 =? 0 then d else uint32 (d - 1)) in
  let L := (D * g) mod X in
  (exists q : Q,
     Double.div (Double.of_Z 900000000) (Double.of_Z g) = Some q /\
     Qfloor q = 900000000 / g) /\
  (exists q : Q,
     Double.mul (Double.of_Z D) (Double.of_Z g) = Some q /\
     Qfloor q = D * g) /\
  (exists q : Q,
     Double.div (Double.mul (Double.of_Z L) (Double.of_Z 1048575))
       (Double.of_Z X) = Some q /\
     Qfloor q = L * 1048575 / X).
Proof.
  intros HX Hg D L.
  change (2 ^ 32) with 4294967296 in Hg.
  assert (P53 : 2 ^ 53 = 9007199254740992) by reflexivity.
  destruct (even_divider g ltac:(lia)) as (_ & HD & HP & _).
  cbv zeta in HD, HP. fold D in HD, HP.
  assert (H0 : 0 < X <= 27000000) by (destruct HX; lia).
  pose proof (Z.mod_pos_bound (D * g) X ltac:(lia)) as HL. fold L in HL.
  unfold Double.div, Double.mul, Double.of_Z.
  rewrite (round_Z_nonzero g), (round_Z_nonzero X) by (rewrite P53; lia).
  split; [|split]; eexists; (split; [reflexivity|]).
  - apply Qfloor_round_div_Z; rewrite P53; lia.
  - rewrite (Qfloor_comp _ _ (round_mul_Z D g ltac:(rewrite P53; lia)
                                ltac:(rewrite P53; lia)
                                ltac:(rewrite P53; lia))).
    apply Qfloor_Z.
  - apply Qfloor_round_mul_div; rewrite P53; nia.
Qed.

(** [actualPllFreq] is a number, whatever the integers. *)
Lemma pll_is_number (X M N : Z) :
  exists q : Q,
    Double.mul (Double.of_Z X)
      (Double.add (Double.of_Z M)
         (Double.div (Double.of_Z N) (Double.of_Z 1048575)))
    = Some q.
Proof.
  unfold Double.of_Z, Double.add, Double.mul, Double.div.
  rewrite (round_Z_nonzero 1048575) by (split; [lia | reflexivity]).
  eexists. reflexivity.
Qed.

(** The last quotient is a NaN exactly when the divider is zero. *)
Lemma returned_nan (x : Q) (D : Z) :
  0 <= D < 2 ^ 53 ->
  Double.div (Some x) (Double.of_Z D) = None <-> D = 0.
Proof.
  intros HD. unfold Double.div, Double.of_Z.
  destruct (Z.eq_dec D 0) as [->|H0].
  - split; reflexivity.
  - rewrite (round_Z_nonzero D) by lia. split; [discriminate | contradiction].
Qed.

(** The last two lines of [actual_freq]: four rounded operations, each
    within 2^-53 of its exact result, end within a millionth of a hertz of
    the exact value of the formula, on a number with a significand of 53
    bits. *)
Lemma returned_value (X M N D : Z) :
  supported X -> 1 <= M <= 90 -> 0 <= N < 1048575 -> 2 <= D <= 900 ->
  exists a : Q,
    Double.div
      (Double.mul (Double.of_Z X)
         (Double.add (Double.of_Z M)
            (Double.div (Double.of_Z N) (Double.of_Z 1048575))))
      (Double.of_Z D)
    = Some a /\
    (spec_actualAdcFreq X M N D - (1 # 1000000) < a
     < spec_actualAdcFreq X M N D + (1 # 1000000))%Q /\
    exists m e : Z,
      (a == inject_Z m * Double.pow2 e)%Q /\ 2 ^ 52 <= m <= 2 ^ 53.
Proof.
  intros HX HM HN HD.
  assert (P53 : 2 ^ 53 = 9007199254740992) by reflexivity.
  unfold Double.of_Z, Double.add, Double.mul, Double.div.
  rewrite (round_Z_nonzero 1048575), (round_Z_nonzero D) by (rewrite P53; lia).
  eexists. split; [reflexivity|].
  assert (EX : (Double.round (inject_Z X) == inject_Z X)%Q)
    by (apply round_Z; rewrite P53; destruct HX; lia).
  assert (EM : (Double.round (inject_Z M) == inject_Z M)%Q)
    by (apply round_Z; rewrite P53; lia).
  assert (EN : (Double.round (inject_Z N) == inject_Z N)%Q)
    by (apply round_Z; rewrite P53; lia).
  assert (ED : (Double.round (inject_Z D) == inject_Z D)%Q)
    by (apply round_Z; rewrite P53; lia).
  assert (Ed : (Double.round (inject_Z 1048575) == inject_Z 1048575)%Q)
    by (apply round_Z; rewrite P53; lia).
  set (qX := Double.round (inject_Z X)) in *.
  set (qM := Double.round (inject_Z M)) in *.
  set (qN := Double.round (inject_Z N)) in *.
  set (qD := Double.round (inject_Z D)) in *.
  set (qd := Double.round (inject_Z 1048575)) in *.
  assert (BM : (1 <= inject_Z M <= 90)%Q).
  { change 1%Q with (inject_Z 1). change 90%Q with (inject_Z 90).
    rewrite <- !Zle_Qle. exact HM. }
  assert (BN : (0 <= inject_Z N <= 1048575)%Q).
  { change 0%Q with (inject_Z 0). change 1048575%Q with (inject_Z 1048575).
    rewrite <- !Zle_Qle. lia. }
  assert (BD : (2 <= inject_Z D)%Q).
  { change 2%Q with (inject_Z 2). rewrite <- Zle_Qle. lia. }
  change (inject_Z 1048575) with 1048575%Q in *.
  unfold spec_actualAdcFreq. change (inject_Z 1048575) with 1048575%Q.
  assert (HXq : (inject_Z X == 27000000 \/ inject_Z X == 10000000)%Q).
  { destruct HX as [-> | ->]; [left | right]; reflexivity. }
  unfold Double.half_ulp in *.
  set (x := inject_Z X) in *. set (m := inject_Z M) in *.
  set (n := inject_Z N) in *. set (d := inject_Z D) in *.
  clearbody x m n d.
  (* the four rounded values *)
  assert (E1 : (qN / qd == n * (1 # 1048575))%Q)
    by (rewrite EN, Ed; reflexivity).
  assert (P1 : (0 <= qN / qd)%Q) by (rewrite E1; lra).
  pose proof (round_error _ P1) as R1.
  set (r1 := Double.round (qN / qd)) in *. clearbody r1. rewrite E1 in R1.
  unfold Double.half_ulp in R1.
  assert (E2 : (qM + r1 == m + r1)%Q) by (rewrite EM; reflexivity).
  assert (P2 : (0 <= qM + r1)%Q) by (rewrite E2; lra).
  pose proof (round_error _ P2) as R2.
  set (r2 := Double.round (qM + r1)) in *. clearbody r2. rewrite E2 in R2.
  unfold Double.half_ulp in R2.
  assert (E3 : (qX * r2 == x * r2)%Q) by (rewrite EX; reflexivity).
  assert (P3 : (0 <= qX * r2)%Q)
    by (rewrite E3; destruct HXq as [-> | ->]; lra).
  pose proof (round_error _ P3) as R3.
  set (r3 := Double.round (qX * r2)) in *. clearbody r3. rewrite E3 in R3.
  unfold Double.half_ulp in R3.
  assert (E4 : (r3 / qD == r3 / d)%Q) by (rewrite ED; reflexivity).
  set (e := (x * (m + n * (1 # 1048575)))%Q).
  assert (W : (- (6 # 10000000) <= r3 - e <= 6 # 10000000)%Q /\
              (1 <= r3 <= 2500000000)%Q).
  { unfold e. destruct HXq as [Hx | Hx]; rewrite Hx in R3 |- *; split; lra. }
  destruct W as (W & B3).
  pose proof (Qdiv_halves (r3 - e) (6 # 10000000) d BD W) as W'.
  assert (B3' : (- 2500000000 <= r3 <= 2500000000)%Q) by lra.
  pose proof (Qdiv_halves r3 2500000000 d BD B3') as B4.
  assert (P4' : (0 < r3 / qD)%Q).
  { rewrite E4. apply Qlt_shift_div_l; lra. }
  assert (P4 : (0 <= r3 / qD)%Q) by (apply Qlt_le_weak, P4').
  pose proof (round_error _ P4) as R4.
  destruct (round_significand _ P4') as (ms & Es & Hms).
  split; [|exists ms, (Double.ilogb (r3 / qD) - 52); split; assumption].
  clear Es.
  set (r4 := Double.round (r3 / qD)) in *. clearbody r4. rewrite E4 in R4.
  unfold Double.half_ulp in R4.
  setoid_replace
    (x * (m + n / 1048575) / d)%Q
    with (e / d)%Q using relation Qeq by (unfold e; field; lra).
  setoid_replace ((r3 - e) / d)%Q
    with (r3 / d - e / d)%Q using relation Qeq in W' by (field; lra).
  set (t := (r3 / d)%Q) in *. set (s := (e / d)%Q) in *.
  clearbody t s. lra.
Qed.

(** C6 as the program has it.  For every requested frequency [f] of at
    least 1 Hz and either supported crystal [X], given fuel for twenty
    doublings: [f] is doubled while below 1,000,000; the divider [D] is
    floor(900,000,000 / f), less one if odd; the PLL frequency is P = D * f;
    the multiplier is M = floor(P / X) and the remainder L = P mod X; the
    numerator is N = floor(L * 1,048,575 / X), a truncation and not a
    rounding, over the denominator 1,048,575.  The value returned is
    X * (M + N / 1,048,575) / D evaluated in [double], the quotient N /
    1,048,575 first, then the sum, the product and the last quotient, each
    rounded: it is not a number exactly when D is zero, that is when the
    frequency is above 450 MHz, and otherwise lies within a millionth of a
    hertz of the exact value of the formula, which as a rule it does not
    equal, being a number m * 2^e with a significand m of 53 bits. *)
Theorem actual_freq_plan (fuel : nat) (X f : Z) :
  1 <= f -> supported X -> (20 <= fuel)%nat ->
  exists (k : Z) (p : plan),
    actual_freq fuel X f = Some p /\
    0 <= k /\
    frequency p = f * 2 ^ k /\
    1000000 <= frequency p /\
    (k = 0 \/ f * 2 ^ (k - 1) < 1000000) /\
    divider p = (let d := 900000000 / frequency p in
                 if Z.odd d then d - 1 else d) /\
    pllFreq p = divider p * frequency p /\
    mult p = pllFreq p / X /\
    l p = pllFreq p mod X /\
    num p = l p * 1048575 / X /\
    denom p = 1048575 /\
    (divider p = 0 <-> 450000000 < frequency p) /\
    actualAdcFreq p
    = Double.div
        (Double.mul (Double.of_Z X)
           (Double.add (Double.of_Z (mult p))
              (Double.div (Double.of_Z (num p)) (Double.of_Z 1048575))))
        (Double.of_Z (divider p)) /\
    (actualAdcFreq p = None <-> divider p = 0) /\
    (forall a : Q,
       actualAdcFreq p = Some a ->
       (Qabs (a - spec_actualAdcFreq X (mult p) (num p) (divider p))
        < 1 # 1000000)%Q /\
       exists m e : Z,
         (a == inject_Z m * Double.pow2 e)%Q /\ 2 ^ 52 <= m <= 2 ^ 53).
Proof.
  intros Hf HX Hfuel.
  destruct (normalize_enough fuel f Hf Hfuel) as (k & Hk & Hn & Hge & Hlt).
  unfold actual_freq. rewrite Hn.
  destruct (even_divider (f * 2 ^ k) Hge) as (Ed & Hd & Hp & Hz).
  cbv zeta in Ed, Hd, Hp, Hz.
  set (D := if 900000000 / (f * 2 ^ k) mod 2 =? 0
            then 900000000 / (f * 2 ^ k)
            else uint32 (900000000 / (f * 2 ^ k) - 1)) in *.
  destruct (mult_num_ranges X (D * (f * 2 ^ k)) HX Hp) as (HM8 & HM & HN).
  rewrite HM8.
  eexists k, _. split; [reflexivity|].
  cbn [frequency divider pllFreq mult l num denom actualAdcFreq].
  split; [exact Hk|]. split; [reflexivity|]. split; [exact Hge|].
  split; [exact Hlt|]. split; [exact Ed|]. split; [reflexivity|].
  split; [reflexivity|].
  split; [reflexivity|]. split; [reflexivity|]. split; [reflexivity|].
  split; [exact Hz|]. split; [reflexivity|].
  destruct (Z.eq_dec D 0) as [E0|E0].
  - assert (EN : Double.div
                   (Double.mul (Double.of_Z X)
                      (Double.add (Double.of_Z (D * (f * 2 ^ k) / X))
                         (Double.div
                            (Double.of_Z
                               ((D * (f * 2 ^ k)) mod X * 1048575 / X))
                            (Double.of_Z 1048575))))
                   (Double.of_Z D) = None).
    { rewrite E0. unfold Double.div at 1.
      destruct (Double.mul _ _); reflexivity. }
    rewrite EN. split; [split; [intros _; exact E0 | reflexivity]|].
    intros a Ha. discriminate Ha.
  - destruct (divider_pll_ranges (f * 2 ^ k) Hge E0) as (_ & HD2 & HP2).
    fold D in HD2, HP2.
    assert (HM1 : 1 <= D * (f * 2 ^ k) / X <= 90).
    { split; [|lia]. apply Z.div_le_lower_bound; destruct HX; lia. }
    destruct (returned_value X _ _ D HX HM1 HN HD2)
      as (a & Ea & (Ha1 & Ha2) & Hsig).
    rewrite Ea. split; [split; [discriminate | intros E; contradiction]|].
    intros a' [= <-]. split; [|exact Hsig].
    apply Qabs_Qlt_condition. split; lra.
Qed.

Lemma actual_freq_plan_witness :
  1 <= 3 /\ supported 27000000 /\ (20 <= 30)%nat /\
  exists (k : Z) (p : plan),
    actual_freq 30 27000000 3 = Some p /\
    frequency p = 3 * 2 ^ k /\
    num p = l p * 1048575 / 27000000 /\
    (forall a : Q,
       actualAdcFreq p = Some a ->
       (Qabs (a - spec_actualAdcFreq 27000000 (mult p) (num p) (divider p))
        < 1 # 1000000)%Q /\
       exists m e : Z,
         (a == inject_Z m * Double.pow2 e)%Q /\ 2 ^ 52 <= m <= 2 ^ 53).
Proof.
  assert (H1 : 1 <= 3) by lia.
  assert (H2 : supported 27000000) by (left; reflexivity).
  assert (H3 : (20 <= 30)%nat) by lia.
  split; [exact H1|]. split; [exact H2|]. split; [exact H3|].
  destruct (actual_freq_plan 30 27000000 3 H1 H2 H3)
    as (k & p & Hp & _ & Hfq & _ & _ & _ & _ & _ & _ & Hnum & _ & _ & _ & _
        & Hclose).
  exists k, p. auto.
Defined.

(** C6 as stated fails on the numerator: for 8 MHz and the 27 MHz crystal
    the remainder is 5,000,000 and 5,000,000 * 1,048,575 / 27,000,000 is
    194,180.55...; the program keeps 194,180 where rounding gives
    194,181. *)
Lemma num_is_not_rounded :
  exists p,
    actual_freq 0 27000000 8000000 = Some p /\
    l p = 5000000 /\
    num p = 194180 /\
    spec_num (l p) 27000000 = 194181 /\
    num p <> spec_num (l p) 27000000.
Proof.
  eexists. split; [reflexivity|]. simpl.
  split; [reflexivity|]. split; [reflexivity|]. split; [reflexivity|].
  discriminate.
Qed.

(** C7.  For 8,000,000 Hz and the 27 MHz crystal, whatever the fuel: the
    doubling loop does not run and leaves the frequency at 8,000,000, the
    divider is 112, the PLL frequency is 896,000,000, and the value returned
    differs from 8,000,000 by less than a quarter of a hertz. *)
Theorem actual_freq_8MHz (fuel : nat) :
  normalize fuel 8000000 = Some 8000000 /\
  exists (p : plan) (a : Q),
    actual_freq fuel 27000000 8000000 = Some p /\
    frequency p = 8000000 /\
    divider p = 112 /\
    pllFreq p = 896000000 /\
    actualAdcFreq p = Some a /\
    (Qabs (a - inject_Z 8000000) < 1 # 4)%Q.
Proof.
  assert (Hn : normalize fuel 8000000 = Some 8000000)
    by (destruct fuel; reflexivity).
  split; [exact Hn|].
  unfold actual_freq. rewrite Hn.
  exists (Plan 8000000 112 896000000 33 5000000 194180 1048575
            (Some (3758096323999943 # 4194304))
            (Some (8589934454857013 # 1073741824))),
         (8589934454857013 # 1073741824)%Q.
  split; [vm_compute; reflexivity|].
  cbn [frequency divider pllFreq actualAdcFreq].
  split; [reflexivity|]. split; [reflexivity|]. split; [reflexivity|].
  split; [reflexivity|]. vm_compute. reflexivity.
Qed.

(** The value returned for 8 MHz, which is 7999999.87227564025... (printed
    with 17 digits: 7999999.8722756403), and the value returned for
    450 MHz, which is 450000000 + 2^-24 (450000000.00000006), above the
    request.  Both are what the operations of [SpecFloat] give, as are the
    values for eleven hundred sample rates between 1 MHz and 495 MHz with
    either crystal. *)
Lemma actual_freq_values :
  (exists p,
     actual_freq 0 27000000 8000000 = Some p /\
     actualAdcFreq p = Some (8589934454857013 # 1073741824)%Q /\
     (799999987227564025 # 100000000000 < 8589934454857013 # 1073741824
      < 799999987227564026 # 100000000000)%Q) /\
  (exists p,
     actual_freq 0 27000000 450000000 = Some p /\
     actualAdcFreq p = Some (7549747200000001 # 16777216)%Q /\
     (7549747200000001 # 16777216 == 450000000 + (1 # 16777216))%Q) /\
  forallb (agrees_with_b64 27000000) sample_rates = true /\
  forallb (agrees_with_b64 10000000) sample_rates = true.
Proof.
  split; [|split; [|split]].
  - eexists. split; [vm_compute; reflexivity|].
    split; [reflexivity|]. split; reflexivity.
  - eexists. split; [vm_compute; reflexivity|].
    split; [reflexivity|]. reflexivity.
  - vm_compute. reflexivity.
  - vm_compute. reflexivity.
Qed.


End ClockFacts.

(** ** The option loop *)

Module OptionsFacts.
Import Options.

(** *** Bits of the masks *)

Lemma testbit_small x k n :
  0 <= k -> 0 <= x < 2 ^ k -> k <= n -> Z.testbit x n = false.
Proof.
  intros Hk Hx Hn. rewrite <- (Z.mod_small x (2 ^ k)) by exact Hx.
  apply Z.mod_pow2_bits_high. lia.
Qed.

Lemma testbit_uint32_lnot c n :
  0 <= n ->
  Z.testbit (uint32 (Z.lnot c)) n = (n <? 32) && negb (Z.testbit c n).
Proof.
  intros Hn. unfold uint32. destruct (Z.ltb_spec n 32).
  - rewrite Z.mod_pow2_bits_low by lia. rewrite Z.lnot_spec by lia. reflexivity.
  - rewrite Z.mod_pow2_bits_high by lia. reflexivity.
Qed.

Lemma testbit_0x7f n : 0 <= n -> Z.testbit 0x7f n = (n <? 7).
Proof. intros Hn. change 0x7f with (Z.ones 7). apply Z.testbit_ones_nonneg; lia. Qed.

Lemma testbit_0x80 n : Z.testbit 0x80 n = (7 =? n).
Proof. change 0x80 with (2 ^ 7). apply Z.pow2_bits_eqb. lia. Qed.

(** Splits a goal on the bits of the masks and of the small operands. *)
Ltac mask_bits n :=
  repeat (rewrite Z.lor_spec || rewrite Z.land_spec);
  rewrite ?testbit_uint32_lnot, ?testbit_0x7f, ?testbit_0x80, ?Z.bits_0 by lia;
  destruct (Z.ltb_spec n 32), (Z.ltb_spec n 7), (Z.eqb_spec 7 n);
  try lia; simpl;
  rewrite ?andb_true_r, ?andb_false_r, ?orb_true_r, ?orb_false_r;
  try reflexivity.

Lemma handle_gainmode_high a o :
  handle a (chr "m") (Some "high") o = inl (set_gain (Z.lor (gain o) 0x80) o).
Proof. reflexivity. Qed.

Lemma handle_gainmode_low a o :
  handle a (chr "m") (Some "low") o
  = inl (set_gain (Z.land (gain o) (uint32 (Z.lnot 0x80))) o).
Proof. reflexivity. Qed.

Lemma sint32_small v : - 2147483648 <= v < 2147483648 -> sint32 v = v.
Proof.
  intros H. unfold sint32.
  change (2 ^ 31) with 2147483648. change (2 ^ 32) with 4294967296.
  rewrite Z.mod_small; lia.
Qed.

(** Decides the comparisons of [switch (c)] on a known option character. *)
Ltac switch_on_c :=
  unfold handle;
  repeat match goal with
         | |- context [chr ?c1 =? chr ?c2] =>
             let b := eval vm_compute in (chr c1 =? chr c2) in
             change (chr c1 =? chr c2) with b
         end;
  cbv iota; simpl arg.

Lemma handle_gain a s o :
  0 <= strtol a s <= 127 ->
  handle a (chr "g") (Some s) o
  = inl (set_gain (Z.lor (Z.land (gain o) (uint32 (Z.lnot 0x7f))) (strtol a s)) o).
Proof.
  intros Hv. switch_on_c. rewrite sint32_small by lia.
  destruct (Z.ltb_spec (strtol a s) 0); [lia|].
  destruct (Z.ltb_spec 127 (strtol a s)); [lia|].
  simpl orb. cbv iota. rewrite (uint32_small (strtol a s)) by lia. reflexivity.
Qed.

(** One turn of the loop on an option character. *)
Lemma option_loop_short a c s rs o :
  chr c <> 0 ->
  option_loop a (short c s :: rs) o
  = match handle a (chr c) (Some s) o with
    | inl o' => option_loop a rs o'
    | inr err => Exit 0 err
    end.
Proof.
  intros Hc. cbn [option_loop short p_c p_optarg].
  assert (0 <= chr c) by (unfold chr; apply N2Z.is_nonneg).
  destruct (Z.eqb_spec (chr c) (-1)); [lia|].
  destruct (Z.eqb_spec (chr c) 0); [lia|]. reflexivity.
Qed.

(** *** One option at a time *)

Lemma gainmode_high_bits g :
  Z.testbit (Z.lor g 0x80) 7 = true /\
  Z.land (Z.lor g 0x80) 0x7f = Z.land g 0x7f.
Proof.
  split.
  - rewrite Z.lor_spec, testbit_0x80. apply orb_true_r.
  - apply Z.bits_inj'. intros n Hn. mask_bits n.
Qed.

Lemma gainmode_low_bits g :
  Z.testbit (Z.land g (uint32 (Z.lnot 0x80))) 7 = false /\
  Z.land (Z.land g (uint32 (Z.lnot 0x80))) 0x7f = Z.land g 0x7f.
Proof.
  split.
  - rewrite Z.land_spec, testbit_uint32_lnot, testbit_0x80 by lia.
    apply andb_false_r.
  - apply Z.bits_inj'. intros n Hn. mask_bits n.
Qed.

Lemma gain_value_bits g v :
  0 <= v <= 127 ->
  Z.land (Z.lor (Z.land g (uint32 (Z.lnot 0x7f))) v) 0x7f = v /\
  Z.testbit (Z.lor (Z.land g (uint32 (Z.lnot 0x7f))) v) 7 = Z.testbit g 7.
Proof.
  intros Hv.
  assert (Hhi : forall n, 7 <= n -> Z.testbit v n = false).
  { intros n Hn. apply (testbit_small v 7 n); lia. }
  split.
  - apply Z.bits_inj'. intros n Hn. mask_bits n;
      rewrite ?Hhi by lia; reflexivity.
  - rewrite Z.lor_spec, Z.land_spec, testbit_uint32_lnot, testbit_0x7f by lia.
    rewrite Hhi by lia. simpl. rewrite andb_true_r, orb_false_r. reflexivity.
Qed.

(** *** Both orders *)

Lemma gain_high_then_value g v :
  0 <= g < 256 -> 0 <= v <= 127 ->
  Z.lor (Z.land (Z.lor g 0x80) (uint32 (Z.lnot 0x7f))) v = Z.lor 0x80 v.
Proof.
  intros Hg Hv.
  assert (Hgh : forall n, 8 <= n -> Z.testbit g n = false).
  { intros n Hn. apply (testbit_small g 8 n); lia. }
  apply Z.bits_inj'. intros n Hn. mask_bits n; rewrite ?Hgh by lia; reflexivity.
Qed.

Lemma gain_value_then_high g v :
  0 <= g < 256 -> 0 <= v <= 127 ->
  Z.lor (Z.lor (Z.land g (uint32 (Z.lnot 0x7f))) v) 0x80 = Z.lor 0x80 v.
Proof.
  intros Hg Hv.
  assert (Hgh : forall n, 8 <= n -> Z.testbit g n = false).
  { intros n Hn. apply (testbit_small g 8 n); lia. }
  apply Z.bits_inj'. intros n Hn. mask_bits n; rewrite ?Hgh by lia;
    try reflexivity; destruct (Z.testbit v n); reflexivity.
Qed.

Lemma gain_low_then_value g v :
  0 <= g < 256 -> 0 <= v <= 127 ->
  Z.lor (Z.land (Z.land g (uint32 (Z.lnot 0x80))) (uint32 (Z.lnot 0x7f))) v
  = Z.lor 0 v.
Proof.
  intros Hg Hv.
  assert (Hgh : forall n, 8 <= n -> Z.testbit g n = false).
  { intros n Hn. apply (testbit_small g 8 n); lia. }
  apply Z.bits_inj'. intros n Hn. mask_bits n; rewrite ?Hgh by lia;
    try reflexivity.
Qed.

Lemma gain_value_then_low g v :
  0 <= g < 256 -> 0 <= v <= 127 ->
  Z.land (Z.lor (Z.land g (uint32 (Z.lnot 0x7f))) v) (uint32 (Z.lnot 0x80))
  = Z.lor 0 v.
Proof.
  intros Hg Hv.
  assert (Hgh : forall n, 8 <= n -> Z.testbit g n = false).
  { intros n Hn. apply (testbit_small g 8 n); lia. }
  assert (Hvh : forall n, 7 <= n -> Z.testbit v n = false).
  { intros n Hn. apply (testbit_small v 7 n); lia. }
  apply Z.bits_inj'. intros n Hn. mask_bits n;
    rewrite ?Hgh, ?Hvh by lia; try reflexivity.
Qed.

Lemma mode_or_value_byte (b : bool) v :
  0 <= v <= 127 -> 0 <= Z.lor (if b then 0x80 else 0) v < 256.
Proof.
  intros Hv. destruct b.
  - rewrite <- Z.lxor_lor, <- Z.add_nocarry_lxor.
    + lia.
    + apply Z.bits_inj'. intros n Hn. mask_bits n.
      apply (testbit_small v 7 n); lia.
    + apply Z.bits_inj'. intros n Hn. mask_bits n.
      apply (testbit_small v 7 n); lia.
  - rewrite Z.lor_0_l. lia.
Qed.

(** C10.  Gain mode and gain value share one byte, the variable [gain],
    that starts as 0x80 (mode high, value 0).  Read back from the variables
    the option leaves: [-m high] sets bit 7 of [gain] and [-m low] clears
    it, both leaving bits 0 to 6 as they were; [-g v] with v in 0..127 makes
    bits 0 to 6 equal to v and leaves bit 7 as it was; none of them touches
    another variable; and the two options leave the same byte, mode bit OR
    value, in either order. *)
Theorem gain_byte_packing (a : abi) :
  gain defaults = 0x80 /\
  (forall o : options,
     exists o',
       handle a (chr "m") (Some "high") o = inl o' /\
       Z.testbit (gain o') 7 = true /\
       Z.land (gain o') 0x7f = Z.land (gain o) 0x7f /\
       beside_gain o' = beside_gain o) /\
  (forall o : options,
     exists o',
       handle a (chr "m") (Some "low") o = inl o' /\
       Z.testbit (gain o') 7 = false /\
       Z.land (gain o') 0x7f = Z.land (gain o) 0x7f /\
       beside_gain o' = beside_gain o) /\
  (forall (o : options) (s : string),
     0 <= strtol a s <= 127 ->
     exists o',
       handle a (chr "g") (Some s) o = inl o' /\
       Z.land (gain o') 0x7f = strtol a s /\
       Z.testbit (gain o') 7 = Z.testbit (gain o) 7 /\
       beside_gain o' = beside_gain o) /\
  (forall (o : options) (mode s : string),
     mode = "high" \/ mode = "low" ->
     0 <= strtol a s <= 127 ->
     0 <= gain o < 256 ->
     exists o',
       option_loop a [short "m" mode; short "g" s] o = Proceed o' /\
       option_loop a [short "g" s; short "m" mode] o = Proceed o' /\
       gain o' = Z.lor (if String.eqb mode "high" then 0x80 else 0)
                   (strtol a s) /\
       Z.testbit (gain o') 7 = String.eqb mode "high" /\
       Z.land (gain o') 0x7f = strtol a s /\
       0 <= gain o' < 256 /\
       beside_gain o' = beside_gain o).
Proof.
  split; [reflexivity|]. split; [|split; [|split]].
  - intros o. eexists. split; [apply handle_gainmode_high|].
    cbn [gain set_gain].
    destruct (gainmode_high_bits (gain o)) as (H7 & Hlow).
    split; [exact H7|]. split; [exact Hlow | reflexivity].
  - intros o. eexists. split; [apply handle_gainmode_low|].
    cbn [gain set_gain].
    destruct (gainmode_low_bits (gain o)) as (H7 & Hlow).
    split; [exact H7|]. split; [exact Hlow | reflexivity].
  - intros o s Hv. eexists. split; [apply handle_gain, Hv|].
    cbn [gain set_gain].
    destruct (gain_value_bits (gain o) (strtol a s) Hv) as (Hlow & H7).
    split; [exact Hlow|]. split; [exact H7 | reflexivity].
  - intros o mode s Hmode Hv Hg.
    rewrite !option_loop_short by discriminate.
    rewrite (handle_gain a s o Hv).
    assert (Hhi : forall n, 7 <= n -> Z.testbit (strtol a s) n = false).
    { intros n Hn. apply (testbit_small (strtol a s) 7 n); lia. }
    destruct Hmode as [-> | ->].
    + change ("high" =? "high")%string with true. cbv iota.
      rewrite handle_gainmode_high.
      rewrite !option_loop_short by discriminate.
      rewrite handle_gainmode_high, (handle_gain a s _ Hv).
      cbn [option_loop]. unfold set_gain. cbn [gain].
      rewrite gain_high_then_value, gain_value_then_high by lia.
      eexists. split; [reflexivity|]. split; [reflexivity|]. cbn [gain].
      split; [reflexivity|]. split.
      { rewrite Z.lor_spec, testbit_0x80. reflexivity. }
      split.
      { apply Z.bits_inj'. intros n Hn. mask_bits n;
          rewrite ?Hhi by lia; reflexivity. }
      split; [apply (mode_or_value_byte true); exact Hv | reflexivity].
    + change ("low" =? "high")%string with false. cbv iota.
      rewrite handle_gainmode_low.
      rewrite !option_loop_short by discriminate.
      rewrite handle_gainmode_low, (handle_gain a s _ Hv).
      cbn [option_loop]. unfold set_gain. cbn [gain].
      rewrite gain_low_then_value, gain_value_then_low by lia.
      eexists. split; [reflexivity|]. split; [reflexivity|]. cbn [gain].
      split; [reflexivity|]. split.
      { rewrite Z.lor_spec, Z.bits_0. apply Hhi. lia. }
      split.
      { apply Z.bits_inj'. intros n Hn. mask_bits n;
          rewrite ?Hhi by lia; reflexivity. }
      split; [apply (mode_or_value_byte false); exact Hv | reflexivity].
Qed.

Lemma gain_byte_packing_witness :
  ("low" = "high" \/ "low" = "low") /\
  0 <= strtol LP64 "5" <= 127 /\
  0 <= gain defaults < 256 /\
  exists o',
    option_loop LP64 [short "m" "low"; short "g" "5"] defaults = Proceed o' /\
    option_loop LP64 [short "g" "5"; short "m" "low"] defaults = Proceed o' /\
    gain o' = 5 /\
    Z.testbit (gain o') 7 = false /\
    Z.land (gain o') 0x7f = 5.
Proof.
  assert (H1 : "low" = "high" \/ "low" = "low") by (right; reflexivity).
  assert (H2 : 0 <= strtol LP64 "5" <= 127) by (vm_compute; split; discriminate).
  assert (H3 : 0 <= gain defaults < 256) by (simpl; lia).
  destruct (gain_byte_packing LP64) as (_ & _ & _ & _ & O).
  destruct (O defaults "low" "5" H1 H2 H3) as (o' & A & B & G & T & L & _).
  split; [exact H1|]. split; [exact H2|]. split; [exact H3|].
  exists o'. split; [exact A|]. split; [exact B|].
  split; [exact G|]. split; [exact T | exact L].
Defined.

(** The checks the loop makes, on the values it has converted: each one
    prints its message and the help and returns 0 from [main]. *)
Lemma out_of_range_values_exit a s rs o :
  (uint32 (strtoul a s) < 1000000 ->
   option_loop a (short "s" s :: rs) o
   = Exit 0 [InvalidSamplerate (sint32 (uint32 (strtoul a s))); Help]) /\
  (sint32 (strtol a s) < 0 \/ 127 < sint32 (strtol a s) ->
   option_loop a (short "g" s :: rs) o
   = Exit 0 [InvalidGainValue (sint32 (strtol a s)); Help]) /\
  (63 < uint32 (strtol a s) ->
   option_loop a (short "a" s :: rs) o
   = Exit 0 [InvalidAttenuation (sint32 (uint32 (strtol a s))); Help]) /\
  (uint32 (strtol a s) < 1 \/ 64 < uint32 (strtol a s) ->
   option_loop a (short "q" s :: rs) o
   = Exit 0 [InvalidQueueDepth (sint32 (uint32 (strtol a s))); Help]) /\
  (uint32 (strtol a s) < 1 \/ 64 < uint32 (strtol a s) ->
   option_loop a (short "p" s :: rs) o
   = Exit 0 [InvalidRequestSize (sint32 (uint32 (strtol a s))); Help]) /\
  (s <> "high" -> s <> "low" ->
   option_loop a (short "m" s :: rs) o = Exit 0 [InvalidGainMode s; Help]).
Proof.
  repeat split; intros H; try intros H';
    rewrite option_loop_short by discriminate; switch_on_c.
  - destruct (Z.ltb_spec (uint32 (strtoul a s)) 1000000); [reflexivity | lia].
  - destruct (Z.ltb_spec (sint32 (strtol a s)) 0),
      (Z.ltb_spec 127 (sint32 (strtol a s))); try reflexivity; lia.
  - destruct (Z.ltb_spec (uint32 (strtol a s)) 0),
      (Z.ltb_spec 63 (uint32 (strtol a s))); try reflexivity; lia.
  - destruct (Z.ltb_spec (uint32 (strtol a s)) 1),
      (Z.ltb_spec 64 (uint32 (strtol a s))); try reflexivity; lia.
  - destruct (Z.ltb_spec (uint32 (strtol a s)) 1),
      (Z.ltb_spec 64 (uint32 (strtol a s))); try reflexivity; lia.
  - destruct (String.eqb_spec s "high"); [congruence|].
    destruct (String.eqb_spec s "low"); [congruence|]. reflexivity.
Qed.

(** C9 on the program: [-s -5] is a sample rate below 1,000,000, yet
    [strtoul] negates it in [unsigned long] and the conversion to
    [unsigned int] leaves 4,294,967,291, which passes the test
    [samplerate < 1000000]: nothing is printed and [main] goes on to the
    device.  The same happens with a 32-bit and with a 64-bit [long]. *)
Theorem negative_samplerate_is_accepted (a : abi) :
  strtoul a "-5" = 2 ^ long_bits a - 5 /\
  option_loop a [short "s" "-5"] defaults
  = Proceed (set_samplerate 4294967291 defaults).
Proof. destruct a; split; reflexivity. Qed.

End OptionsFacts.

(** * Part III: further properties of the program *)

(** ** The option loop *)

Module OptionsMore.
Import Options OptionsFacts.

(** A non-negative number whose bits from [k] on are clear is below
    [2 ^ k]. *)
Lemma below_pow2_of_bits x k :
  0 <= k -> 0 <= x ->
  (forall n, k <= n -> Z.testbit x n = false) ->
  x < 2 ^ k.
Proof.
  intros Hk Hx Hbits.
  assert (E : x mod 2 ^ k = x).
  { apply Z.bits_inj'. intros n Hn. destruct (Z.lt_ge_cases n k).
    - apply Z.mod_pow2_bits_low. lia.
    - rewrite Z.mod_pow2_bits_high by lia. symmetry. apply Hbits. lia. }
  rewrite <- E. apply Z.mod_pos_bound. apply Z.pow_pos_nonneg; lia.
Qed.

Lemma gain_byte_high g : 0 <= g < 256 -> 0 <= Z.lor g 0x80 < 256.
Proof.
  intros Hg. split; [apply Z.lor_nonneg; lia|].
  apply (below_pow2_of_bits _ 8); [lia | apply Z.lor_nonneg; lia|].
  intros n Hn. rewrite Z.lor_spec, testbit_0x80, (testbit_small g 8 n) by lia.
  destruct (Z.eqb_spec 7 n); [lia | reflexivity].
Qed.

Lemma gain_byte_low g :
  0 <= g < 256 -> 0 <= Z.land g (uint32 (Z.lnot 0x80)) < 256.
Proof.
  intros Hg. split; [apply Z.land_nonneg; lia|].
  apply (below_pow2_of_bits _ 8); [lia | apply Z.land_nonneg; lia|].
  intros n Hn. rewrite Z.land_spec, (testbit_small g 8 n) by lia. reflexivity.
Qed.

Lemma gain_byte_value g v :
  0 <= g < 256 -> 0 <= v <= 127 ->
  0 <= Z.lor (Z.land g (uint32 (Z.lnot 0x7f))) v < 256.
Proof.
  intros Hg Hv.
  assert (Hn0 : 0 <= Z.lor (Z.land g (uint32 (Z.lnot 0x7f))) v).
  { apply Z.lor_nonneg. split; [apply Z.land_nonneg|]; lia. }
  split; [exact Hn0|].
  apply (below_pow2_of_bits _ 8); [lia | exact Hn0|].
  intros n Hn.
  rewrite Z.lor_spec, Z.land_spec, (testbit_small g 8 n),
    (testbit_small v 7 n) by lia.
  reflexivity.
Qed.

(** Peels the tests of [handle] off a hypothesis, one at a time. *)
Ltac peel_handle H :=
  repeat match type of H with
         | context [if ?b then _ else _] => destruct b eqn:?
         | context [match ?x with Some _ => _ | None => _ end] => destruct x
         end;
  try discriminate H.

Lemma handle_in_range a c optarg o o' :
  in_range o -> handle a c optarg o = inl o' -> in_range o'.
Proof.
  intros (Hs & Hg & Ha & Hq & Hp & Hx) H. unfold handle in H.
  peel_handle H; injection H as <-; unfold in_range; simpl;
    repeat match goal with
           | E : (_ || _) = false |- _ => apply orb_false_elim in E; destruct E
           | E : (_ <? _) = false |- _ => apply Z.ltb_ge in E
           end;
    try (repeat split; (assumption || lia)).
  - pose proof (uint32_range (strtoul a (arg optarg))).
    change (2 ^ 32) with 4294967296. repeat split; (assumption || lia).
  - repeat split; try (assumption || lia); apply gain_byte_high, Hg.
  - repeat split; try (assumption || lia); apply gain_byte_low, Hg.
  - set (v := sint32 (strtol a (arg optarg))) in *.
    rewrite (uint32_small v) by lia.
    repeat split; try (assumption || lia); apply gain_byte_value; lia.
Qed.

Lemma store_flag_settings f val o : settings (store_flag f val o) = settings o.
Proof. destruct f; reflexivity. Qed.

Lemma store_flag_in_range f val o : in_range o -> in_range (store_flag f val o).
Proof. intros H. destruct f; exact H. Qed.

(** One turn of the loop, whatever [getopt_long] returned. *)
Lemma option_loop_cons a r rs o :
  option_loop a (r :: rs) o
  = if p_c r =? -1 then Proceed o
    else if p_c r =? 0 then
      match long_options !! p_option_index r with
      | Some (_, Some f, val) => Proceed (store_flag f val o)
      | Some (_, None, val) =>
          match handle a val (p_optarg r) o with
          | inl o' => option_loop a rs o'
          | inr err => Exit 0 err
          end
      | None => Proceed o
      end
    else
      match handle a (p_c r) (p_optarg r) o with
      | inl o' => option_loop a rs o'
      | inr err => Exit 0 err
      end.
Proof. reflexivity. Qed.

(** The loop keeps the settings in range. *)
Lemma in_range_option_loop a rs : forall o o',
  in_range o -> option_loop a rs o = Proceed o' -> in_range o'.
Proof.
  induction rs as [|r rs IH]; intros o o' Ho H.
  - injection H as <-. exact Ho.
  - rewrite option_loop_cons in H.
    destruct (p_c r =? -1); [injection H as <-; exact Ho|].
    destruct (p_c r =? 0).
    + destruct (long_options !! p_option_index r) as [[[name [f|]] val]|].
      * injection H as <-. apply store_flag_in_range, Ho.
      * destruct (handle a val (p_optarg r) o) as [o1|err] eqn:E;
          [|discriminate].
        apply (IH o1 o'); [apply (handle_in_range a val (p_optarg r) o); assumption|].
        exact H.
      * injection H as <-. exact Ho.
    + destruct (handle a (p_c r) (p_optarg r) o) as [o1|err] eqn:E;
        [|discriminate].
      apply (IH o1 o'); [apply (handle_in_range a (p_c r) (p_optarg r) o); assumption|].
      exact H.
Qed.

(** X1.  Whatever the command line, the settings with which [main] leaves
    the option loop towards the device are in range, provided they start in
    range (as the defaults are): the sample rate is at least 1,000,000 and
    fits an [unsigned int], the gain is a byte, the attenuation is at most
    63, queue depth and request size lie in 1..64 and the crystal is one of
    27 MHz and 10 MHz. *)
Theorem option_loop_in_range (a : abi) (rs : list parsed) (o o' : options) :
  in_range o -> option_loop a rs o = Proceed o' -> in_range o'.
Proof. apply in_range_option_loop. Qed.

Lemma option_loop_in_range_witness :
  in_range defaults /\
  option_loop LP64 [short "s" "8000000"; short "q" "32"; short "T" ""] defaults
  = Proceed (set_xtalFreq 10000000
               (set_queuedepth 32 (set_samplerate 8000000 defaults))) /\
  in_range (set_xtalFreq 10000000
              (set_queuedepth 32 (set_samplerate 8000000 defaults))).
Proof.
  assert (H0 : in_range defaults).
  { unfold in_range. simpl. change (2 ^ 32) with 4294967296.
    repeat split; lia. }
  assert (H1 : option_loop LP64
                 [short "s" "8000000"; short "q" "32"; short "T" ""] defaults
               = Proceed (set_xtalFreq 10000000
                            (set_queuedepth 32 (set_samplerate 8000000 defaults))))
    by reflexivity.
  split; [exact H0|]. split; [exact H1|].
  exact (option_loop_in_range LP64 _ defaults _ H0 H1).
Defined.

Lemma handle_inr a c optarg o err :
  handle a c optarg o = inr err -> err = [Help] \/ exists d, err = [d; Help].
Proof.
  intros H. unfold handle in H.
  peel_handle H; injection H as <-; eauto.
Qed.

(** X2.  Every [return] inside the option loop returns 0, and the last
    thing printed before it is the help text, after at most one line that
    names the offending value. *)
Theorem option_loop_exit (a : abi) (rs : list parsed) (o : options)
    (code : Z) (err : list diag) :
  option_loop a rs o = Exit code err ->
  code = 0 /\ (err = [Help] \/ exists d, err = [d; Help]).
Proof.
  revert o. induction rs as [|r rs IH]; intros o H; [discriminate|].
  rewrite option_loop_cons in H.
  destruct (p_c r =? -1); [discriminate|].
  destruct (p_c r =? 0).
  - destruct (long_options !! p_option_index r) as [[[name [f|]] val]|];
      try discriminate.
    destruct (handle a val (p_optarg r) o) as [o1|e] eqn:E.
    + apply (IH o1), H.
    + injection H as <- <-. split; [reflexivity|]. apply (handle_inr _ _ _ _ _ E).
  - destruct (handle a (p_c r) (p_optarg r) o) as [o1|e] eqn:E.
    + apply (IH o1), H.
    + injection H as <- <-. split; [reflexivity|]. apply (handle_inr _ _ _ _ _ E).
Qed.

Lemma option_loop_exit_witness :
  option_loop ILP32 [short "d" ""; short "a" "64"; short "q" "0"] defaults
  = Exit 0 [InvalidAttenuation 64; Help] /\
  0 = 0 /\
  ([InvalidAttenuation 64; Help] = [Help] \/
   exists d, [InvalidAttenuation 64; Help] = [d; Help]).
Proof.
  assert (H : option_loop ILP32 [short "d" ""; short "a" "64"; short "q" "0"]
                defaults
              = Exit 0 [InvalidAttenuation 64; Help]) by reflexivity.
  split; [exact H|].
  exact (option_loop_exit ILP32 _ defaults 0 _ H).
Defined.

(** X3.  A long option that has a [flag] in [long_options] (--verbose,
    --firmware, --dither, --rand, --refclock-10M) ends the loop: whatever
    follows it on the command line is not looked at, and the option itself
    only stores into its [int] flag, so the sample rate, gain, attenuation,
    queue depth, request size, crystal and firmware path stay as the options
    before it left them.  In particular --firmware does not set the firmware
    path and --refclock-10M does not select the 10 MHz crystal. *)
Theorem flagged_long_option_ends_loop (a : abi) (i : nat) (name : string)
    (f : flag_var) (val : Z) (optarg : option string)
    (before after : list parsed) (o : options) :
  long_options !! i = Some (name, Some f, val) ->
  match option_loop a before o with
  | Exit code err =>
      option_loop a (before ++ Parsed 0 i optarg :: after) o = Exit code err
  | Proceed o1 =>
      exists o',
        option_loop a (before ++ Parsed 0 i optarg :: after) o = Proceed o' /\
        settings o' = settings o1
  end.
Proof.
  intros Hi. revert o. induction before as [|r rs IH]; intros o.
  - change (option_loop a [] o) with (Proceed o). cbn [app].
    rewrite option_loop_cons. cbn [p_c p_option_index].
    rewrite Hi. simpl. eexists. split; [reflexivity|].
    apply store_flag_settings.
  - rewrite <- app_comm_cons, !option_loop_cons.
    destruct (p_c r =? -1); [eauto|].
    destruct (p_c r =? 0).
    + destruct (long_options !! p_option_index r) as [[[n [g|]] v]|]; eauto.
      destruct (handle a v (p_optarg r) o) as [o1|e]; [apply IH | reflexivity].
    + destruct (handle a (p_c r) (p_optarg r) o) as [o1|e];
        [apply IH | reflexivity].
Qed.

Lemma flagged_long_option_ends_loop_witness :
  long_options !! 10%nat = Some ("refclock-10M", Some FlagRefclock, chr "T") /\
  option_loop LP64 [short "a" "7"] defaults = Proceed (set_att 7 defaults) /\
  exists o',
    option_loop LP64
      ([short "a" "7"] ++ Parsed 0 10 None :: [short "g" "200"]) defaults
    = Proceed o' /\
    settings o' = settings (set_att 7 defaults).
Proof.
  assert (H : long_options !! 10%nat
              = Some ("refclock-10M", Some FlagRefclock, chr "T"))
    by reflexivity.
  split; [exact H|]. split; [reflexivity|].
  exact (flagged_long_option_ends_loop LP64 10 _ _ _ None
           [short "a" "7"] [short "g" "200"] defaults H).
Defined.

End OptionsMore.

(** ** The clock estimator *)

Module ClockMore.
Import Clock ClockFacts.

Lemma normalize_some fuel : forall f g,
  normalize fuel f = Some g -> 1000000 <= g.
Proof.
  induction fuel as [|fuel IH]; intros f g H; simpl in H;
    destruct (Z.ltb_spec f 1000000); try discriminate.
  - injection H as <-. lia.
  - apply (IH (f * 2)), H.
  - injection H as <-. lia.
Qed.

Lemma normalize_nonpositive fuel : forall f,
  f <= 0 -> normalize fuel f = None.
Proof.
  induction fuel as [|fuel IH]; intros f Hf; simpl;
    destruct (Z.ltb_spec f 1000000); try lia; [reflexivity|].
  apply IH. lia.
Qed.

Lemma normalize_normal fuel f : 1000000 <= f -> normalize fuel f = Some f.
Proof.
  intros Hf. destruct fuel; simpl; destruct (Z.ltb_spec f 1000000);
    (lia || reflexivity).
Qed.

(** X4.  The doubling loop of [actual_freq] ends exactly on the positive
    frequencies: on zero or a negative frequency no number of iterations
    brings it to 1,000,000, and on every frequency of 1 Hz or more some
    number does. *)
Theorem normalize_diverges_iff (f : Z) :
  (forall fuel, normalize fuel f = None) <-> f <= 0.
Proof.
  split.
  - intros H. destruct (Z.le_gt_cases f 0) as [Hle|Hgt]; [exact Hle|].
    destruct (normalize_enough 20 f ltac:(lia) ltac:(lia)) as (k & _ & E & _).
    rewrite H in E. discriminate.
  - intros Hf fuel. apply normalize_nonpositive, Hf.
Qed.

(** X5.  Whenever [actual_freq] ends with a divider other than zero, for
    either crystal, its values are the ones the comments in the source ask
    for: the divider is even and between 2 and 900, the PLL frequency lies
    above 450 MHz and at most at 900 MHz, the integer multiplier is in
    15..90 (so the [uint8_t] holds it) and the numerator is below
    1,048,575. *)
Theorem actual_freq_hardware_ranges (fuel : nat) (X f : Z) (p : plan) :
  supported X ->
  actual_freq fuel X f = Some p ->
  divider p <> 0 ->
  Z.even (divider p) = true /\
  2 <= divider p <= 900 /\
  450000000 < pllFreq p <= 900000000 /\
  mult p = pllFreq p / X /\
  15 <= mult p <= 90 /\
  0 <= num p < 1048575.
Proof.
  intros HX H HD. unfold actual_freq in H.
  destruct (normalize fuel f) as [g|] eqn:En; [|discriminate].
  apply normalize_some in En.
  apply (inj Some) in H. subst p.
  cbn [divider pllFreq mult num] in HD |- *.
  destruct (divider_pll_ranges g En HD) as (Hev & Hr & Hp).
  set (D := if 900000000 / g mod 2 =? 0 then 900000000 / g
            else uint32 (900000000 / g - 1)) in *.
  assert (HM : 15 <= D * g / X <= 90).
  { destruct HX as [-> | ->]; split;
      try (apply Z.div_le_lower_bound; lia);
      apply Z.lt_succ_r, Z.div_lt_upper_bound; lia. }
  assert (HM8 : uint8 (D * g / X) = D * g / X).
  { unfold uint8. apply Z.mod_small. change (2 ^ 8) with 256. lia. }
  rewrite HM8.
  split; [exact Hev|]. split; [exact Hr|]. split; [exact Hp|].
  split; [reflexivity|]. split; [exact HM|].
  assert (0 < X) by (destruct HX; lia).
  pose proof (Z.mod_pos_bound (D * g) X ltac:(lia)) as HL.
  split.
  - apply Z.div_pos; lia.
  - apply Z.div_lt_upper_bound; lia.
Qed.

Lemma actual_freq_hardware_ranges_witness :
  supported 10000000 /\
  exists p : plan,
    actual_freq 20 10000000 64000000 = Some p /\
    divider p <> 0 /\
    divider p = 14 /\
    pllFreq p = 896000000 /\
    mult p = 89 /\
    num p = 629145 /\
    Z.even (divider p) = true /\
    15 <= mult p <= 90.
Proof.
  assert (H1 : supported 10000000) by (right; reflexivity).
  split; [exact H1|].
  eexists. split; [vm_compute; reflexivity|].
  cbn [divider pllFreq mult num].
  assert (H3 : 14 <> 0) by discriminate.
  split; [exact H3|]. split; [reflexivity|]. split; [reflexivity|].
  split; [reflexivity|]. split; [reflexivity|].
  destruct (actual_freq_hardware_ranges 20 10000000 64000000 _ H1 eq_refl H3)
    as (Hev & _ & _ & _ & HM & _).
  split; [exact Hev | exact HM].
Defined.

(** The exact value of the formula against the frequency aimed at: the
    truncated numerator loses less than one step of the fraction. *)
Lemma achieved_below_request (X M N L D g : Z) :
  0 < X <= 27000000 -> 2 <= D ->
  N * X <= L * 1048575 < (N + 1) * X ->
  D * g = X * M + L ->
  let a := (inject_Z X * (inject_Z M + inject_Z N / inject_Z 1048575)
            / inject_Z D)%Q in
  (a <= inject_Z g)%Q /\ (inject_Z g - a < 129 # 10)%Q.
Proof.
  intros [HX HX'] HD [H1 H2] H3 a. subst a.
  assert (Q1 : (inject_Z N * inject_Z X <= inject_Z L * inject_Z 1048575)%Q).
  { rewrite <- !inject_Z_mult. rewrite <- Zle_Qle. exact H1. }
  assert (Q2 : (inject_Z L * inject_Z 1048575
                < (inject_Z N + inject_Z 1) * inject_Z X)%Q).
  { rewrite <- inject_Z_plus, <- !inject_Z_mult. rewrite <- Zlt_Qlt. exact H2. }
  assert (Q3 : (inject_Z D * inject_Z g
                == inject_Z X * inject_Z M + inject_Z L)%Q).
  { rewrite <- !inject_Z_mult, <- inject_Z_plus. rewrite H3. reflexivity. }
  assert (QD : (inject_Z 2 <= inject_Z D)%Q) by (rewrite <- Zle_Qle; exact HD).
  assert (QX : (inject_Z 0 < inject_Z X)%Q) by (rewrite <- Zlt_Qlt; exact HX).
  assert (QX' : (inject_Z X <= inject_Z 27000000)%Q)
    by (rewrite <- Zle_Qle; exact HX').
  change (inject_Z 1048575) with (1048575%Q) in *.
  change (inject_Z 27000000) with (27000000%Q) in *.
  change (inject_Z 0) with 0%Q in *. change (inject_Z 1) with 1%Q in *.
  change (inject_Z 2) with 2%Q in *.
  set (x := inject_Z X) in *. set (m := inject_Z M) in *.
  set (n := inject_Z N) in *. set (l := inject_Z L) in *.
  set (d := inject_Z D) in *. set (q := inject_Z g) in *.
  clearbody x m n l d q.
  assert (Ediv : forall y : Q, (y / 1048575 == y * (1 # 1048575))%Q)
    by (intros y; reflexivity).
  split.
  - apply Qle_shift_div_r; [lra|]. rewrite Ediv. lra.
  - assert (E : (q - (129 # 10) < x * (m + n / 1048575) / d)%Q).
    { apply Qlt_shift_div_l; [lra|]. rewrite Ediv. lra. }
    lra.
Qed.

(** X6.  Whenever [actual_freq] ends with a divider other than zero, for
    either crystal, the [double] it returns is less than 13 Hz below the
    frequency it aimed at, the request after doubling, and less than a
    millionth of a hertz above it.  (It can be above: the formula never
    exceeds the request, but its last operations are rounded; at 450 MHz
    with the 27 MHz crystal the value returned is 450000000 + 2^-24.) *)
Theorem actual_freq_accuracy (fuel : nat) (X f : Z) (p : plan) :
  supported X ->
  actual_freq fuel X f = Some p ->
  divider p <> 0 ->
  exists a : Q,
    actualAdcFreq p = Some a /\
    (a < inject_Z (frequency p) + (1 # 1000000))%Q /\
    (inject_Z (frequency p) - a < 13)%Q.
Proof.
  intros HX H HD. unfold actual_freq in H.
  destruct (normalize fuel f) as [g|] eqn:En; [|discriminate].
  apply normalize_some in En.
  apply (inj Some) in H. subst p.
  cbn [divider frequency actualAdcFreq] in HD |- *.
  destruct (divider_pll_ranges g En HD) as (_ & Hr & Hp).
  set (D := if 900000000 / g mod 2 =? 0 then 900000000 / g
            else uint32 (900000000 / g - 1)) in *.
  assert (HX0 : 0 < X <= 27000000) by (destruct HX; lia).
  destruct (mult_num_ranges X (D * g) HX ltac:(lia)) as (HM8 & HM & HN).
  rewrite HM8.
  assert (HM1 : 1 <= D * g / X <= 90).
  { split; [|lia]. apply Z.div_le_lower_bound; destruct HX; lia. }
  destruct (returned_value X _ _ D HX HM1 HN Hr) as (a & Ea & (Ha1 & Ha2) & _).
  exists a. split; [exact Ea|].
  destruct (achieved_below_request X (D * g / X)
              (D * g mod X * 1048575 / X) (D * g mod X) D g) as (B1 & B2);
    try lia.
  - pose proof (Z.mod_pos_bound (D * g) X ltac:(lia)) as HL.
    split.
    + rewrite Z.mul_comm. apply Z.mul_div_le. lia.
    + rewrite (Z.mul_comm _ X). apply Z.mul_succ_div_gt. lia.
  - apply Z.div_mod. lia.
  - cbv zeta in B1, B2. unfold spec_actualAdcFreq in Ha1, Ha2.
    set (e := (inject_Z X
               * (inject_Z (D * g / X)
                  + inject_Z (D * g mod X * 1048575 / X) / inject_Z 1048575)
               / inject_Z D)%Q) in *.
    clearbody e. set (q := inject_Z g) in *. clearbody q. split; lra.
Qed.

Lemma actual_freq_accuracy_witness :
  supported 27000000 /\
  exists (p : plan) (a : Q),
    actual_freq 0 27000000 450000000 = Some p /\
    divider p <> 0 /\
    actualAdcFreq p = Some a /\
    a = (7549747200000001 # 16777216)%Q /\
    (inject_Z 450000000 < a)%Q /\
    (a < inject_Z (frequency p) + (1 # 1000000))%Q /\
    (inject_Z (frequency p) - a < 13)%Q.
Proof.
  assert (H1 : supported 27000000) by (left; reflexivity).
  assert (H3 : 2 <> 0) by discriminate.
  split; [exact H1|].
  destruct (actual_freq_accuracy 0 27000000 450000000
              (Plan 450000000 2 900000000 33 9000000 349525 1048575
                 (Some (7549747200000001 # 8388608)%Q)
                 (Some (7549747200000001 # 16777216)%Q))
              H1 ltac:(vm_compute; reflexivity) H3) as (a & Ha & Hhi & Hlo).
  eexists _, a. split; [vm_compute; reflexivity|].
  cbn [divider actualAdcFreq frequency] in Ha, Hhi, Hlo |- *.
  split; [exact H3|]. split; [exact Ha|].
  injection Ha as <-.
  split; [reflexivity|]. split; [reflexivity|].
  split; [exact Hhi | exact Hlo].
Defined.

(** X7.  For settings that are in range, as the option loop leaves them,
    the call [actual_freq((double)samplerate)] that [main] makes never
    enters the doubling loop: it ends without any fuel, on the sample rate
    itself, and what it returns is not a number exactly when the sample
    rate is above 450 MHz. *)
Theorem main_actual_freq (o : Options.options) (fuel : nat) :
  Options.in_range o ->
  exists p : plan,
    actual_freq fuel (Options.xtalFreq o) (Options.samplerate o) = Some p /\
    frequency p = Options.samplerate o /\
    (actualAdcFreq p = None <-> 450000000 < Options.samplerate o).
Proof.
  intros (Hs & _ & _ & _ & _ & HX).
  unfold actual_freq. rewrite normalize_normal by lia.
  eexists. split; [reflexivity|]. cbn [frequency actualAdcFreq].
  split; [reflexivity|].
  destruct (even_divider (Options.samplerate o) ltac:(lia))
    as (_ & Hd & _ & Hz).
  cbv zeta in Hd, Hz.
  set (D := if 900000000 / Options.samplerate o mod 2 =? 0
            then 900000000 / Options.samplerate o
            else uint32 (900000000 / Options.samplerate o - 1)) in *.
  destruct (pll_is_number (Options.xtalFreq o)
              (uint8 (D * Options.samplerate o / Options.xtalFreq o))
              ((D * Options.samplerate o) mod Options.xtalFreq o * 1048575
               / Options.xtalFreq o)) as (q & Eq).
  rewrite Eq, returned_nan by (change (2 ^ 53) with 9007199254740992; lia).
  exact Hz.
Qed.

Lemma main_actual_freq_witness :
  Options.in_range Options.defaults /\
  exists p : plan,
    actual_freq 0 27000000 32000000 = Some p /\
    frequency p = 32000000.
Proof.
  assert (H0 : Options.in_range Options.defaults).
  { unfold Options.in_range. simpl. change (2 ^ 32) with 4294967296.
    repeat split; lia. }
  split; [exact H0|].
  destruct (main_actual_freq Options.defaults 0 H0) as (p & Hp & Hf & _).
  exists p. split; [exact Hp | exact Hf].
Defined.

End ClockMore.

(** ** The transfer pipeline *)

Module PipelineMore.
Import Pipeline PipelineFacts.

Lemma commands_app t1 t2 : commands (t1 ++ t2) = commands t1 ++ commands t2.
Proof. apply flat_map_app. Qed.

Lemma status_lines_app t1 t2 :
  status_lines (t1 ++ t2) = status_lines t1 ++ status_lines t2.
Proof. apply flat_map_app. Qed.

(** A callback leaves the transfers it was not called for where they are. *)
Lemma usb_deliver_other e st i :
  usb st !! i = Some Idle -> usb (deliver e st) !! i = Some Idle.
Proof.
  intros Hi. destruct e as [c|]; [|exact Hi]. simpl.
  destruct (usb st !! c_slot c) as [[|]|] eqn:E; try exact Hi.
  assert (Hne : c_slot c <> i) by congruence.
  destruct (transfer_callback_fields c (set_usb (<[c_slot c := Idle]> (usb st)) st))
    as (_ & _ & _ & _ & _ & _ & U & _).
  rewrite U. simpl.
  assert (H0 : <[c_slot c := Idle]> (usb st) !! i = Some Idle)
    by (rewrite list_lookup_insert_ne by exact Hne; exact Hi).
  destruct (negb (stop_seen c _)); [|exact H0].
  unfold libusb_submit_transfer.
  destruct (<[c_slot c := Idle]> (usb st) !! c_slot c) as [[|]|]; simpl;
    try exact H0.
  destruct (c_submit_ret c =? 0); simpl; [|exact H0].
  rewrite list_lookup_insert_ne by exact Hne. exact H0.
Qed.

(** A callback never raises the number of transfers in flight. *)
Lemma xfers_deliver_le e st :
  xfers_in_progress (deliver e st) <= xfers_in_progress st.
Proof.
  destruct e as [c|]; [|simpl; lia]. simpl.
  destruct (usb st !! c_slot c) as [[|]|]; try lia.
  destruct (transfer_callback_fields c (set_usb (<[c_slot c := Idle]> (usb st)) st))
    as (_ & _ & _ & _ & _ & X & _).
  rewrite X. simpl.
  destruct (negb _ && _); lia.
Qed.

(** What a callback adds to the counters and to the observations. *)
Lemma counted_transfer_callback c st :
  counted st -> counted (transfer_callback c st).
Proof.
  intros (HS & HF). unfold counted.
  destruct (transfer_callback_fields c st) as (_ & _ & _ & SC & FC & _ & _ & T).
  rewrite SC, FC, T, !writes_app, !status_lines_app, !length_app, HS, HF.
  assert (E : forall n, uint32 (uint32 n + 1) = uint32 (n + 1)).
  { intros n. unfold uint32. apply Zplus_mod_idemp_l. }
  destruct (completed (c_status c)), (c_write_signal c), (c_write_ret c <? 0),
    (negb (stop_seen c st)); simpl; rewrite ?E; split; f_equal; lia.
Qed.

Lemma counted_deliver e st : counted st -> counted (deliver e st).
Proof.
  intros H. destruct e as [c|]; simpl.
  - destruct (usb st !! c_slot c) as [[|]|]; try exact H.
    apply counted_transfer_callback. exact H.
  - destruct H as (HS & HF). unfold counted. simpl.
    rewrite writes_app, status_lines_app, !app_nil_r. auto.
Qed.

Lemma commands_deliver e st :
  commands (trace (deliver e st)) = commands (trace st).
Proof.
  destruct e as [c|]; simpl.
  - destruct (usb st !! c_slot c) as [[|]|]; try reflexivity.
    destruct (transfer_callback_fields c (set_usb (<[c_slot c := Idle]> (usb st)) st))
      as (_ & _ & _ & _ & _ & _ & _ & T).
    rewrite T, !commands_app. simpl.
    destruct (completed (c_status c)), (c_write_signal c),
      (c_write_ret c <? 0), (negb (stop_seen c _)); simpl;
      rewrite ?app_nil_r; reflexivity.
  - rewrite commands_app. simpl. apply app_nil_r.
Qed.

Lemma randomizer_deliver e st : randomizer (deliver e st) = randomizer st.
Proof.
  destruct e as [c|]; [|reflexivity]. simpl.
  destruct (usb st !! c_slot c) as [[|]|]; try reflexivity.
  destruct (transfer_callback_fields c (set_usb (<[c_slot c := Idle]> (usb st)) st))
    as (_ & R & _).
  exact R.
Qed.

(** A callback in which no signal is handled leaves the flag as it is. *)
Lemma stop_transfers_deliver_complete c st :
  raises (Event (Complete c)) = false ->
  stop_transfers (deliver (Complete c) st) = stop_transfers st.
Proof.
  intros Hq. simpl. destruct (usb st !! c_slot c) as [[|]|]; try reflexivity.
  destruct (transfer_callback_fields c (set_usb (<[c_slot c := Idle]> (usb st)) st))
    as (_ & _ & S & _).
  rewrite S. unfold stop_seen. simpl in Hq |- *. rewrite Hq. apply orb_false_r.
Qed.

Section MainMore.

Variables DITH RANDO : Z.
Variable cfg : device_config.

Local Abbreviation step := (step DITH RANDO cfg).
Local Abbreviation exec := (exec DITH RANDO cfg).
Local Abbreviation run := (run DITH RANDO cfg).
Local Abbreviation start := (start DITH RANDO cfg).

Lemma past_submission_step p st x :
  past_submission p ->
  past_submission (fst (step (p, st) x)) /\
  xfers_in_progress (snd (step (p, st) x)) <= xfers_in_progress st /\
  (forall i, usb st !! i = Some Idle ->
             usb (snd (step (p, st) x)) !! i = Some Idle).
Proof.
  intros Hp. destruct p; [contradiction| | |];
    destruct x as [r|[c|]|]; cbn [Pipeline.step fst snd];
    try (split; [exact I|]; split; [simpl; lia | intros i Hi; exact Hi]).
  - split; [exact I|]. split; [apply xfers_deliver_le|].
    intros i. apply usb_deliver_other.
  - unfold streaming_return, drain_head. destruct (stop_transfers st); simpl;
      [|split; [exact I|]; split; [lia | auto]].
    destruct (xfers_in_progress st =? 0); simpl;
      (split; [exact I|]; split; [lia | auto]).
  - split; [exact I|]. split; [apply xfers_deliver_le|].
    intros i. apply usb_deliver_other.
  - unfold drain_head. simpl. destruct (xfers_in_progress st =? 0); simpl;
      (split; [exact I|]; split; [lia | auto]).
Qed.

Lemma past_submission_exec xs : forall p st,
  past_submission p ->
  past_submission (fst (exec xs (p, st))) /\
  xfers_in_progress (snd (exec xs (p, st))) <= xfers_in_progress st /\
  (forall i, usb st !! i = Some Idle ->
             usb (snd (exec xs (p, st))) !! i = Some Idle).
Proof.
  induction xs as [|x xs IH]; intros p st Hp.
  - split; [exact Hp|]. split; [simpl; lia | auto].
  - change (exec (x :: xs) (p, st)) with (exec xs (step (p, st) x)).
    destruct (past_submission_step p st x Hp) as (Hp1 & Hx1 & Hu1).
    destruct (step (p, st) x) as [p1 st1]. simpl in Hp1, Hx1, Hu1.
    destruct (IH p1 st1 Hp1) as (Hp2 & Hx2 & Hu2).
    split; [exact Hp2|]. split; [lia|]. intros i Hi. apply Hu2, Hu1, Hi.
Qed.

(** X8.  Once [main] is past the submission loop the pipeline never gets
    deeper: whatever happens next, [xfers_in_progress] does not exceed its
    present value, and a transfer that is idle (its submission or a
    resubmission failed, or shutdown was requested) is never submitted
    again. *)
Theorem depth_never_grows (xs : list input) (p : pc) (st : state) :
  past_submission p ->
  xfers_in_progress (snd (exec xs (p, st))) <= xfers_in_progress st /\
  (forall i, usb st !! i = Some Idle ->
             usb (snd (exec xs (p, st))) !! i = Some Idle).
Proof. intros Hp. apply (past_submission_exec xs p st Hp). Qed.

(** X9.  When [main] has sent the stop command no transfer is left with
    libusb: every one of the [queuedepth] transfers is idle, so the buffers
    and transfers that are freed next are not in use. *)
Theorem stopped_means_idle (q : nat) (rnd : bool) (xs : list input) (i : nat) :
  fst (run q rnd xs) = Stopped ->
  (i < q)%nat ->
  usb (snd (run q rnd xs)) !! i = Some Idle.
Proof.
  intros Hp Hi.
  pose proof (in_flight_ok_exec DITH RANDO cfg xs (start q rnd)
                (in_flight_ok_enter_submit DITH RANDO cfg 0 (initial q rnd)
                   (in_flight_ok_initial q rnd))) as (L & C & _).
  pose proof (shutdown_ok_exec DITH RANDO cfg xs (start q rnd)
                (shutdown_ok_start DITH RANDO cfg q rnd)) as (_ & Hx & _).
  pose proof (queuedepth_exec DITH RANDO cfg xs (start q rnd)) as Q.
  unfold Pipeline.start in Q at 2. rewrite queuedepth_enter_submit in Q.
  simpl in Q. fold (run q rnd xs) in L, C, Hx, Q.
  rewrite (Hx Hp) in C. symmetry in C.
  rewrite count_submitted_zero in C.
  destruct (lookup_lt_is_Some_2 (usb (snd (run q rnd xs))) i ltac:(lia))
    as [[|] E]; [exact E|].
  elim (C i E).
Qed.

Lemma counted_step c x : counted (snd c) -> counted (snd (step c x)).
Proof.
  destruct c as [p st]. simpl. intros H.
  assert (He : forall e st0,
             counted st0 ->
             match e with Write _ _ | Stderr (MsgTransferStatus _ _) => False
                        | _ => True end ->
             counted (emit e st0)).
  { intros e st0 (HS & HF) He. unfold counted. simpl.
    rewrite writes_app, status_lines_app.
    destruct e as [[]| | | |]; try contradiction; simpl;
      rewrite !app_nil_r; auto. }
  destruct x as [r|[c|]|]; destruct p; cbn [Pipeline.step fst snd];
    try exact H.
  - unfold Pipeline.enter_submit, submit_iteration.
    destruct (libusb_submit_transfer i r (usb st)) as [ret slots].
    assert (H1 : counted (emit (Submit i ret) (set_usb slots st)))
      by (apply He; [exact H | exact I]).
    assert (H2 : counted (if ret =? 0
                          then set_xfers_in_progress
                                 (xfers_in_progress
                                    (emit (Submit i ret) (set_usb slots st)) + 1)
                                 (emit (Submit i ret) (set_usb slots st))
                          else emit (Submit i ret) (set_usb slots st)))
      by (destruct (ret =? 0); exact H1).
    destruct (_ <? _)%nat; cbn [snd]; [exact H2|].
    unfold Pipeline.configure. repeat (apply He; [|exact I]). exact H2.
  - apply (counted_deliver (Complete c)), H.
  - apply (counted_deliver (Complete c)), H.
  - apply (counted_deliver Signal), H.
  - apply (counted_deliver Signal), H.
  - apply (counted_deliver Signal), H.
  - apply (counted_deliver Signal), H.
  - unfold streaming_return, drain_head. destruct (stop_transfers st);
      [|exact H]. simpl.
    destruct (xfers_in_progress st =? 0); cbn [snd];
      repeat (apply He; [|exact I]); exact H.
  - unfold drain_head. simpl.
    destruct (xfers_in_progress st =? 0); cbn [snd];
      repeat (apply He; [|exact I]); exact H.
Qed.

Lemma counted_exec xs : forall c, counted (snd c) -> counted (snd (exec xs c)).
Proof.
  induction xs as [|x xs IH]; intros c H; [exact H|].
  apply IH, counted_step, H.
Qed.

(** X10.  All along a run the two counters agree with what the program
    did: [success_count] is the number of times [write] was called and
    [failure_count] the number of failed transfers reported on stderr, both
    modulo 2^32. *)
Theorem counters_count_the_trace (q : nat) (rnd : bool) (xs : list input) :
  success_count (snd (run q rnd xs))
  = uint32 (Z.of_nat (length (writes (trace (snd (run q rnd xs)))))) /\
  failure_count (snd (run q rnd xs))
  = uint32 (Z.of_nat (length (status_lines (trace (snd (run q rnd xs)))))).
Proof.
  apply (counted_exec xs (start q rnd)).
  unfold Pipeline.start, Pipeline.enter_submit.
  destruct (0 <? _)%nat; split; reflexivity.
Qed.

(** No signal handler runs during the inputs. *)
Lemma quiet_exec xs : forall st,
  stop_transfers st = false ->
  Forall (fun x => raises x = false) xs ->
  fst (exec xs (Streaming, st)) = Streaming /\
  stop_transfers (snd (exec xs (Streaming, st))) = false /\
  commands (trace (snd (exec xs (Streaming, st)))) = commands (trace st).
Proof.
  induction xs as [|x xs IH]; intros st Hs Hq; [auto|].
  change (exec (x :: xs) (Streaming, st))
    with (exec xs (step (Streaming, st) x)).
  apply Forall_cons in Hq as (Hx & Hq).
  destruct x as [r|[c|]|]; cbn [Pipeline.step].
  - apply IH; assumption.
  - destruct (IH (deliver (Complete c) st)) as (A & B & C);
      [rewrite stop_transfers_deliver_complete; [exact Hs | exact Hx]
      | exact Hq |].
    rewrite A, B, C, (commands_deliver (Complete c)). auto.
  - discriminate Hx.
  - unfold streaming_return. rewrite Hs. apply IH; assumption.
Qed.

(** X11.  The capture does not end on its own: from the event loop, with
    [stop_transfers] clear, as long as no signal handler runs -- no signal
    among the events and none inside a [write], so in particular no write
    to a closed pipe -- [main] stays in the event loop whatever completes,
    fails or returns; the flag stays clear and no further command goes to
    the device. *)
Theorem streaming_needs_a_signal (xs : list input) (st : state) :
  stop_transfers st = false ->
  Forall (fun x => raises x = false) xs ->
  fst (exec xs (Streaming, st)) = Streaming /\
  stop_transfers (snd (exec xs (Streaming, st))) = false /\
  commands (trace (snd (exec xs (Streaming, st)))) = commands (trace st).
Proof. apply quiet_exec. Qed.

(** The commands sent so far are those of the place [main] is at. *)
Lemma commands_step rnd c x :
  randomizer (snd c) = rnd ->
  commands (trace (snd c)) = commands_at DITH RANDO cfg rnd (fst c) ->
  randomizer (snd (step c x)) = rnd /\
  commands (trace (snd (step c x)))
  = commands_at DITH RANDO cfg rnd (fst (step c x)).
Proof.
  destruct c as [p st]. cbn [fst snd]. intros HR HC.
  destruct x as [r|[c|]|]; destruct p; cbn [Pipeline.step fst snd];
    try (split; [exact HR | exact HC]).
  - unfold Pipeline.enter_submit, submit_iteration.
    destruct (libusb_submit_transfer i r (usb st)) as [ret slots].
    destruct (_ <? _)%nat; destruct (ret =? 0); cbn [fst snd];
      unfold Pipeline.configure; simpl; rewrite ?HR; (split; [reflexivity|]);
      rewrite ?commands_app, HC; simpl; rewrite ?app_nil_r; try reflexivity;
      unfold configuration; rewrite <- HR; reflexivity.
  - rewrite (randomizer_deliver (Complete c)), (commands_deliver (Complete c)).
    split; [exact HR | exact HC].
  - rewrite (randomizer_deliver (Complete c)), (commands_deliver (Complete c)).
    split; [exact HR | exact HC].
  - rewrite (commands_deliver Signal). split; [exact HR | exact HC].
  - rewrite (commands_deliver Signal). split; [exact HR | exact HC].
  - rewrite (commands_deliver Signal). split; [exact HR | exact HC].
  - rewrite (commands_deliver Signal). split; [exact HR | exact HC].
  - unfold streaming_return, drain_head. destruct (stop_transfers st);
      [|split; [exact HR | exact HC]]. simpl.
    destruct (xfers_in_progress st =? 0); cbn [fst snd]; simpl;
      (split; [exact HR|]); rewrite ?commands_app, HC; simpl;
      rewrite ?app_nil_r; reflexivity.
  - unfold drain_head. simpl.
    destruct (xfers_in_progress st =? 0); cbn [fst snd]; simpl;
      (split; [exact HR|]); rewrite ?commands_app, HC; simpl;
      rewrite ?app_nil_r; reflexivity.
Qed.

Lemma commands_exec rnd xs : forall c,
  randomizer (snd c) = rnd ->
  commands (trace (snd c)) = commands_at DITH RANDO cfg rnd (fst c) ->
  commands (trace (snd (exec xs c)))
  = commands_at DITH RANDO cfg rnd (fst (exec xs c)).
Proof.
  induction xs as [|x xs IH]; intros c HR HC; [exact HC|].
  destruct (commands_step rnd c x HR HC) as (HR' & HC').
  apply IH; assumption.
Qed.

(** X12.  The vendor commands go out in one fixed order and each at most
    once: nothing while transfers are being submitted; then GPIO, attenuator,
    gain, start ADC (with the sample rate), start streaming, tuner standby,
    which is all the device has been sent while [main] is in the event loop
    or the drain loop; and the stop command last, once the drain loop is
    left. *)
Theorem commands_in_order (q : nat) (rnd : bool) (xs : list input) :
  commands (trace (snd (run q rnd xs)))
  = commands_at DITH RANDO cfg rnd (fst (run q rnd xs)).
Proof.
  apply commands_exec; unfold Pipeline.start, Pipeline.enter_submit;
    destruct (0 <? _)%nat; reflexivity.
Qed.

(** The submission loop from [transfers[i]] on. *)
Lemma submission_loop rets : forall i st,
  length (usb st) = queuedepth st ->
  (i + length rets)%nat = queuedepth st ->
  (forall j, (i <= j < queuedepth st)%nat -> usb st !! j = Some Idle) ->
  fst (exec (map SubmitRet rets) (Pipeline.enter_submit DITH RANDO cfg i st))
  = Streaming /\
  usb (snd (exec (map SubmitRet rets)
              (Pipeline.enter_submit DITH RANDO cfg i st)))
  = take i (usb st) ++ map owner_after rets /\
  xfers_in_progress (snd (exec (map SubmitRet rets)
                            (Pipeline.enter_submit DITH RANDO cfg i st)))
  = xfers_in_progress st + count_submitted (map owner_after rets).
Proof.
  induction rets as [|r rets IH]; intros i st HL Hi Hidle.
  - simpl in Hi. unfold Pipeline.enter_submit.
    destruct (Nat.ltb_spec i (queuedepth st)); [lia|]. simpl.
    rewrite app_nil_r, take_ge by lia. split; [reflexivity|].
    split; [reflexivity|]. unfold count_submitted. simpl. lia.
  - simpl in Hi. unfold Pipeline.enter_submit at 1 2 3.
    destruct (Nat.ltb_spec i (queuedepth st)); [|lia].
    cbn [map]. change (exec (SubmitRet r :: map SubmitRet rets) (Submitting i, st))
      with (exec (map SubmitRet rets)
              (Pipeline.enter_submit DITH RANDO cfg (S i) (submit_iteration i r st))).
    destruct (submit_iteration_fields i r st) as (Q & _ & X & U & _).
    assert (Hi0 : usb st !! i = Some Idle) by (apply Hidle; lia).
    assert (Hsub : libusb_submit_transfer i r (usb st)
                   = (if r =? 0 then 0 else r,
                      if r =? 0 then <[i := Submitted]> (usb st) else usb st)).
    { unfold libusb_submit_transfer. rewrite Hi0.
      destruct (r =? 0); reflexivity. }
    rewrite Hsub in X, U. simpl in X, U.
    assert (HU : usb (submit_iteration i r st) = <[i := owner_after r]> (usb st)).
    { rewrite U. unfold owner_after. destruct (r =? 0); [reflexivity|].
      symmetry. apply list_insert_id, Hi0. }
    destruct (IH (S i) (submit_iteration i r st)) as (A & B & C).
    + rewrite HU, length_insert, Q. exact HL.
    + rewrite Q. lia.
    + intros j Hj. rewrite HU, list_lookup_insert_ne by lia.
      apply Hidle. rewrite Q in Hj. lia.
    + rewrite A, B, C, X, HU. split; [reflexivity|]. split.
      * rewrite (take_S_r _ _ (owner_after r))
          by (apply list_lookup_insert_eq; lia).
        rewrite take_insert_ge by lia. rewrite <- app_assoc. reflexivity.
      * rewrite count_submitted_cons. unfold owner_after.
        destruct (Z.eqb_spec r 0) as [->|Hr]; simpl.
        -- lia.
        -- destruct (r =? 0) eqn:E; [apply Z.eqb_eq in E; lia|]. lia.
Qed.

(** X13.  When the submission loop has had an answer for each of the
    [queuedepth] transfers, [main] is in the event loop, the transfers in
    flight are exactly those whose submission was answered 0, and
    [xfers_in_progress] is their number: a failed submission leaves its
    transfer idle and the pipeline that much shallower. *)
Theorem depth_after_submission (rnd : bool) (rets : list Z) :
  fst (run (length rets) rnd (map SubmitRet rets)) = Streaming /\
  usb (snd (run (length rets) rnd (map SubmitRet rets)))
  = map owner_after rets /\
  xfers_in_progress (snd (run (length rets) rnd (map SubmitRet rets)))
  = count_submitted (map owner_after rets).
Proof.
  destruct (submission_loop rets 0 (initial (length rets) rnd)) as (A & B & C).
  - simpl. apply length_replicate.
  - reflexivity.
  - intros j Hj. simpl in *. apply lookup_replicate_2. lia.
  - unfold Pipeline.run, Pipeline.start.
    split; [exact A|]. split; [exact B|]. rewrite C. simpl. lia.
Qed.

(** Once out of the event loop [main] does not come back to it. *)
Lemma left_streaming_step p st x :
  p = Draining \/ p = Stopped ->
  fst (step (p, st) x) = Draining \/ fst (step (p, st) x) = Stopped.
Proof.
  intros [-> | ->]; destruct x as [r|[c|]|]; cbn [Pipeline.step fst]; auto.
  unfold drain_head. simpl. destruct (_ =? 0); auto.
Qed.

Lemma left_streaming_exec xs : forall p st,
  p = Draining \/ p = Stopped ->
  fst (exec xs (p, st)) = Draining \/ fst (exec xs (p, st)) = Stopped.
Proof.
  induction xs as [|x xs IH]; intros p st Hp; [exact Hp|].
  change (exec (x :: xs) (p, st)) with (exec xs (step (p, st) x)).
  pose proof (left_streaming_step p st x Hp) as Hp'.
  destruct (step (p, st) x) as [p' st']. apply IH, Hp'.
Qed.

Lemma flagged_exec xs : forall st,
  stop_transfers st = true ->
  fst (exec (xs ++ [Return]) (Streaming, st)) = Draining \/
  fst (exec (xs ++ [Return]) (Streaming, st)) = Stopped.
Proof.
  induction xs as [|x xs IH]; intros st Hs.
  - simpl. unfold streaming_return, drain_head. rewrite Hs. simpl.
    destruct (_ =? 0); auto.
  - change (exec ((x :: xs) ++ [Return]) (Streaming, st))
      with (exec (xs ++ [Return]) (step (Streaming, st) x)).
    destruct x as [r|[c|]|]; cbn [Pipeline.step].
    + apply IH, Hs.
    + apply IH. apply (stop_transfers_deliver (Complete c)), Hs.
    + apply IH. reflexivity.
    + unfold streaming_return. rewrite Hs.
      destruct (drain_head _) as [p' st'] eqn:E.
      apply left_streaming_exec.
      unfold drain_head in E. destruct (_ =? 0); injection E as <- _; auto.
Qed.

(** X18.  With [stop_transfers] set, the event loop is left when
    [libusb_handle_events] next returns, whatever completes before: [main]
    is then draining, or already past the stop command. *)
Theorem shutdown_is_observed (xs : list input) (st : state) :
  stop_transfers st = true ->
  fst (exec (xs ++ [Return]) (Streaming, st)) = Draining \/
  fst (exec (xs ++ [Return]) (Streaming, st)) = Stopped.
Proof. apply flagged_exec. Qed.

(** X23.  A write that is interrupted by a signal ends the capture.  When
    a transfer in flight completes and a signal is handled inside its
    [write] -- the reader of stdout has closed the pipe and [write] raises
    SIGPIPE -- the callback leaves with [stop_transfers] set and the
    abort line printed, the transfer is not resubmitted and stays idle, the
    counter is one less, and whatever follows, [main] has left the event
    loop when [libusb_handle_events] next returns. *)
Theorem interrupted_write_ends_capture (c : completion) (xs : list input)
    (st : state) :
  usb st !! c_slot c = Some Submitted ->
  completed (c_status c) = true ->
  c_write_signal c = true ->
  let st' := deliver (Complete c) st in
  stop_transfers st' = true /\
  logged (trace st')
  = logged (trace st) ++ [MsgAbort]
    ++ (if c_write_ret c <? 0 then [MsgWriteError] else []) /\
  submissions (trace st') = submissions (trace st) /\
  usb st' = <[c_slot c := Idle]> (usb st) /\
  xfers_in_progress st' = xfers_in_progress st - 1 /\
  (fst (exec (Event (Complete c) :: xs ++ [Return]) (Streaming, st))
   = Draining \/
   fst (exec (Event (Complete c) :: xs ++ [Return]) (Streaming, st))
   = Stopped).
Proof.
  intros Hu Hc Hsig st'.
  assert (Hs : stop_transfers st' = true /\
               logged (trace st')
               = logged (trace st) ++ [MsgAbort]
                 ++ (if c_write_ret c <? 0 then [MsgWriteError] else []) /\
               submissions (trace st') = submissions (trace st) /\
               usb st' = <[c_slot c := Idle]> (usb st) /\
               xfers_in_progress st' = xfers_in_progress st - 1).
  { subst st'. simpl. rewrite Hu.
    destruct (transfer_callback_fields c
                (set_usb (<[c_slot c := Idle]> (usb st)) st))
      as (_ & _ & S & _ & _ & X & U & T).
    assert (E : stop_seen c (set_usb (<[c_slot c := Idle]> (usb st)) st)
                = true).
    { unfold stop_seen. rewrite Hc, Hsig. apply orb_true_r. }
    rewrite E in S, X, U, T. rewrite Hc, Hsig in T. rewrite S, X, U, T.
    simpl. rewrite !logged_app, !submissions_app. simpl.
    rewrite !app_nil_r.
    split; [reflexivity|]. split.
    - destruct (c_write_ret c <? 0); reflexivity.
    - split; [|split; [reflexivity | lia]].
      destruct (c_write_ret c <? 0); simpl; rewrite ?app_nil_r; reflexivity. }
  destruct Hs as (S & L & B & U & X).
  split; [exact S|]. split; [exact L|]. split; [exact B|].
  split; [exact U|]. split; [exact X|].
  change (exec (Event (Complete c) :: xs ++ [Return]) (Streaming, st))
    with (exec (xs ++ [Return]) (Streaming, st')).
  apply flagged_exec, S.
Qed.

End MainMore.

Lemma interrupted_write_ends_capture_witness :
  usb (State 2 false 2 false 0 0 [Submitted; Submitted] [])
    !! c_slot (demo_broken_pipe 0) = Some Submitted /\
  completed (c_status (demo_broken_pipe 0)) = true /\
  c_write_signal (demo_broken_pipe 0) = true /\
  logged (trace (deliver (Complete (demo_broken_pipe 0))
                   (State 2 false 2 false 0 0 [Submitted; Submitted] [])))
  = [MsgAbort; MsgWriteError] /\
  usb (deliver (Complete (demo_broken_pipe 0))
         (State 2 false 2 false 0 0 [Submitted; Submitted] []))
  = [Idle; Submitted] /\
  fst (exec 1 2 demo_cfg
         (Event (Complete (demo_broken_pipe 0))
          :: [Event (Complete (demo_completion 1))] ++ [Return])
         (Streaming, State 2 false 2 false 0 0 [Submitted; Submitted] []))
  = Stopped.
Proof.
  destruct (interrupted_write_ends_capture 1 2 demo_cfg (demo_broken_pipe 0)
              [Event (Complete (demo_completion 1))]
              (State 2 false 2 false 0 0 [Submitted; Submitted] [])
              eq_refl eq_refl eq_refl)
    as (_ & L & _ & U & _ & [H|H]).
  - discriminate H.
  - split; [reflexivity|]. split; [reflexivity|]. split; [reflexivity|].
    split; [exact L|]. split; [exact U | exact H].
Defined.

Lemma depth_never_grows_witness :
  past_submission Streaming /\
  xfers_in_progress
    (snd (exec 1 2 demo_cfg
            [Event (Complete
                      (Completion 1 LIBUSB_TRANSFER_ERROR [] 0 0 false (-1)));
             Event (Complete (demo_completion 0)); Return]
            (Streaming, State 2 false 2 false 0 0 [Submitted; Submitted] [])))
  <= 2.
Proof.
  split; [exact I|].
  apply (depth_never_grows 1 2 demo_cfg
           [Event (Complete
                     (Completion 1 LIBUSB_TRANSFER_ERROR [] 0 0 false (-1)));
            Event (Complete (demo_completion 0)); Return]
           Streaming (State 2 false 2 false 0 0 [Submitted; Submitted] []) I).
Defined.

Lemma shutdown_is_observed_witness :
  stop_transfers (State 2 false 1 true 0 0 [Submitted; Idle] []) = true /\
  fst (exec 1 2 demo_cfg ([Event (Complete (demo_completion 0))] ++ [Return])
         (Streaming, State 2 false 1 true 0 0 [Submitted; Idle] []))
  = Stopped.
Proof.
  split; [reflexivity|].
  destruct (shutdown_is_observed 1 2 demo_cfg
              [Event (Complete (demo_completion 0))]
              (State 2 false 1 true 0 0 [Submitted; Idle] []) eq_refl)
    as [H|H]; [discriminate H | exact H].
Defined.

(** X17.  If the bytes the hardware leaves in a buffer are the samples
    after the same transform, then with the randomizer enabled what is
    handed to [write] for a completed transfer is the samples themselves:
    the first [actual_length] bytes of the original. *)
Theorem sink_receives_original (original : Sample.buffer) (size : Z)
    (slot : nat) (wret : Z) (wsig : bool) (sret : Z) (st : state) :
  0 <= size <= Z.of_nat (length original) ->
  randomizer st = true ->
  writes (trace (transfer_callback
                   (Completion slot LIBUSB_TRANSFER_COMPLETED
                      (Sample.derandomize size original) size wret wsig sret)
                   st))
  = writes (trace st) ++ [(take (Z.to_nat size) original, wret)].
Proof.
  intros Hsize Hr.
  rewrite write_gets_derandomized by (reflexivity || exact Hr).
  cbn [c_actual_length c_buffer c_write_ret].
  rewrite SampleFacts.derandomize_involutive by exact Hsize. reflexivity.
Qed.

Lemma sink_receives_original_witness :
  0 <= 4 <= Z.of_nat (length (map byte.of_Z [1; 2; 3; 4])) /\
  randomizer (State 1 true 0 false 0 0 [Idle] []) = true /\
  writes (trace (transfer_callback
                   (Completion 0 LIBUSB_TRANSFER_COMPLETED
                      (Sample.derandomize 4 (map byte.of_Z [1; 2; 3; 4]))
                      4 4 false 0)
                   (State 1 true 0 false 0 0 [Idle] [])))
  = [(map byte.of_Z [1; 2; 3; 4], 4)].
Proof.
  assert (H : 0 <= 4 <= Z.of_nat (length (map byte.of_Z [1; 2; 3; 4])))
    by (simpl; lia).
  split; [exact H|]. split; [reflexivity|].
  apply (sink_receives_original (map byte.of_Z [1; 2; 3; 4]) 4 0 4 false 0
           (State 1 true 0 false 0 0 [Idle] []) H eq_refl).
Defined.

Lemma stopped_means_idle_witness :
  fst (run 1 2 demo_cfg 2 false (demo_startup ++ demo_drain ++ [Return]))
  = Stopped /\
  (1 < 2)%nat /\
  usb (snd (run 1 2 demo_cfg 2 false (demo_startup ++ demo_drain ++ [Return])))
    !! 1%nat = Some Idle.
Proof.
  split; [reflexivity|]. split; [lia|].
  apply (stopped_means_idle 1 2 demo_cfg 2 false
           (demo_startup ++ demo_drain ++ [Return]) 1 eq_refl).
  lia.
Defined.

Lemma streaming_needs_a_signal_witness :
  stop_transfers (State 2 false 2 false 0 0 [Submitted; Submitted] []) = false /\
  Forall (fun x => raises x = false)
    [Event (Complete (demo_completion 0)); Return] /\
  fst (exec 1 2 demo_cfg [Event (Complete (demo_completion 0)); Return]
         (Streaming, State 2 false 2 false 0 0 [Submitted; Submitted] []))
  = Streaming.
Proof.
  assert (H : Forall (fun x => raises x = false)
                [Event (Complete (demo_completion 0)); Return]).
  { repeat (apply Forall_cons; split; [reflexivity|]). apply Forall_nil_2. }
  split; [reflexivity|]. split; [exact H|].
  apply (streaming_needs_a_signal 1 2 demo_cfg
           [Event (Complete (demo_completion 0)); Return]
           (State 2 false 2 false 0 0 [Submitted; Submitted] []) eq_refl H).
Defined.

End PipelineMore.

(** ** The sample post-processor *)

Module SampleMore.
Import Sample SampleFacts.

Lemma load16_app_l (x y : buffer) j :
  (2 * j + 1 < length x)%nat -> load16 (x ++ y) j = load16 x j.
Proof.
  intros H. unfold load16. rewrite !lookup_app_l by lia. reflexivity.
Qed.

Lemma load16_app_r (x y : buffer) m j :
  length x = (2 * m)%nat -> load16 (x ++ y) (m + j) = load16 y j.
Proof.
  intros H. unfold load16. rewrite !lookup_app_r by lia.
  replace (2 * (m + j) - length x)%nat with (2 * j)%nat by lia.
  replace (2 * (m + j) + 1 - length x)%nat with (2 * j + 1)%nat by lia.
  reflexivity.
Qed.

(** The transform of a whole buffer, with the number of samples as a
    natural number. *)
Lemma derandomize_whole (buf : buffer) :
  derandomize (Z.of_nat (length buf)) buf
  = derandomize_loop (length buf / 2) 0 buf.
Proof.
  unfold derandomize. f_equal.
  rewrite Z.quot_div_nonneg by lia.
  change 2 with (Z.of_nat 2). rewrite <- Nat2Z.inj_div. apply Nat2Z.id.
Qed.

(** X14.  The transform does not depend on how the sample stream is cut
    into buffers, as long as the cut falls between two samples: transforming
    two buffers one after the other gives the same bytes as transforming
    their concatenation, when the first has even length. *)
Theorem derandomize_app (b1 b2 : buffer) :
  Nat.Even (length b1) ->
  derandomize (Z.of_nat (length (b1 ++ b2))) (b1 ++ b2)
  = derandomize (Z.of_nat (length b1)) b1
    ++ derandomize (Z.of_nat (length b2)) b2.
Proof.
  intros [m Hm]. rewrite !derandomize_whole.
  set (n2 := (length b2 / 2)%nat).
  assert (Hn2 : (2 * n2 <= length b2)%nat)
    by (unfold n2; apply Nat.Div0.mul_div_le).
  assert (Hn1 : (length b1 / 2 = m)%nat).
  { rewrite Hm, Nat.mul_comm. apply Nat.div_mul. lia. }
  assert (Hn : (length (b1 ++ b2) / 2 = m + n2)%nat).
  { rewrite length_app, Hm. unfold n2.
    rewrite Nat.mul_comm, Nat.div_add_l by lia. reflexivity. }
  rewrite Hn, Hn1.
  destruct (derandomize_loop_spec (m + n2) 0 (b1 ++ b2)) as (L & K & S);
    [rewrite length_app; lia|].
  destruct (derandomize_loop_spec m 0 b1) as (L1 & K1 & S1); [lia|].
  destruct (derandomize_loop_spec n2 0 b2) as (L2 & K2 & S2); [lia|].
  apply (buffer_ext (m + n2)).
  - rewrite L, !length_app, L1, L2. reflexivity.
  - rewrite L, length_app. lia.
  - intros k Hk. rewrite K by lia.
    rewrite !lookup_app_r by lia. rewrite L1. apply eq_sym, K2. lia.
  - intros j Hj. rewrite S by lia.
    destruct (le_lt_dec m j) as [Hge|Hlt].
    + replace j with (m + (j - m))%nat by lia.
      rewrite (load16_app_r _ _ m) by lia.
      rewrite (load16_app_r _ _ m) by lia.
      rewrite S2 by lia. reflexivity.
    + rewrite !load16_app_l by lia. rewrite S1 by lia. reflexivity.
Qed.

Lemma derandomize_app_witness :
  Nat.Even (length (map byte.of_Z [1; 2])) /\
  derandomize 5 (map byte.of_Z [1; 2] ++ map byte.of_Z [3; 4; 5])
  = derandomize 2 (map byte.of_Z [1; 2])
    ++ derandomize 3 (map byte.of_Z [3; 4; 5]).
Proof.
  assert (H : Nat.Even (length (map byte.of_Z [1; 2])))
    by (exists 1%nat; reflexivity).
  split; [exact H|].
  exact (derandomize_app (map byte.of_Z [1; 2]) (map byte.of_Z [3; 4; 5]) H).
Defined.

End SampleMore.

(** ** Buffers and transfers *)

Module StartupMore.
Import Startup.

Lemma allocated_app t1 t2 : allocated (t1 ++ t2) = allocated t1 ++ allocated t2.
Proof. apply flat_map_app. Qed.

Lemma released_app t1 t2 : released (t1 ++ t2) = released t1 ++ released t2.
Proof. apply flat_map_app. Qed.



Lemma released_release_entries kind entries :
  released (release_entries kind entries) = held kind entries /\
  allocated (release_entries kind entries) = [].
Proof.
  induction entries as [|[id|] entries [IH1 IH2]]; [split; reflexivity| |].
  - split; [simpl; f_equal; exact IH1 | exact IH2].
  - split; [exact IH1 | exact IH2].
Qed.

Section AllocationMore.

Variable ok : nat -> bool.







End AllocationMore.


(** X16.  For a request size in 1..64, a 16-bit [wMaxPacketSize] and an
    8-bit [bMaxBurst], neither the packet size nor the request size wraps
    around: the size given to [malloc] and the length given to
    [libusb_fill_bulk_transfer] are both reqsize * wMaxPacketSize *
    (bMaxBurst + 1), at most 1,073,725,440 bytes. *)
Theorem request_bytes_exact (reqsize wMaxPacketSize bMaxBurst : Z) :
  1 <= reqsize <= 64 ->
  0 <= wMaxPacketSize < 2 ^ 16 ->
  0 <= bMaxBurst < 2 ^ 8 ->
  request_bytes reqsize (pktsize wMaxPacketSize bMaxBurst)
  = reqsize * wMaxPacketSize * (bMaxBurst + 1) /\
  transfer_length reqsize (pktsize wMaxPacketSize bMaxBurst)
  = reqsize * wMaxPacketSize * (bMaxBurst + 1) /\
  0 <= reqsize * wMaxPacketSize * (bMaxBurst + 1) <= 1073725440.
Proof.
  change (2 ^ 16) with 65536. change (2 ^ 8) with 256. intros Hr Hw Hb.
  assert (Hp : 0 <= wMaxPacketSize * (bMaxBurst + 1) <= 16776960) by nia.
  assert (Hq : 0 <= reqsize * (wMaxPacketSize * (bMaxBurst + 1)) <= 1073725440)
    by nia.
  unfold transfer_length, request_bytes, pktsize.
  rewrite (uint32_small (wMaxPacketSize * (bMaxBurst + 1))) by lia.
  rewrite uint32_small by lia.
  unfold sint32. change (2 ^ 31) with 2147483648.
  change (2 ^ 32) with 4294967296. rewrite Z.mod_small by lia.
  split; [lia|]. split; lia.
Qed.

Lemma request_bytes_exact_witness :
  1 <= 8 <= 64 /\ 0 <= 1024 < 2 ^ 16 /\ 0 <= 15 < 2 ^ 8 /\
  request_bytes 8 (pktsize 1024 15) = 8 * 1024 * (15 + 1).
Proof.
  assert (H1 : 1 <= 8 <= 64) by lia.
  assert (H2 : 0 <= 1024 < 2 ^ 16) by (split; [lia | reflexivity]).
  assert (H3 : 0 <= 15 < 2 ^ 8) by (split; [lia | reflexivity]).
  split; [exact H1|]. split; [exact H2|]. split; [exact H3|].
  apply (request_bytes_exact 8 1024 15 H1 H2 H3).
Defined.

End StartupMore.

(** ** Device discovery *)

Module BringupMore.
Import Bringup.

Lemma visit_passed_over d h t :
  passed_over d ->
  visit d h t
  = (Next h,
     t ++ if descriptor_ret d <? 0 then [Stderr MsgNoDescriptor] else []).
Proof.
  intros Hd. unfold visit.
  destruct (Z.ltb_spec (descriptor_ret d) 0); [reflexivity|].
  rewrite app_nil_r.
  destruct Hd as [Hd | [Hd | [H3 H1]]]; [lia| |].
  - destruct (Z.eqb_spec (idVendor d) 0x04b4); [contradiction | reflexivity].
  - destruct (idVendor d =? 0x04b4); [|reflexivity].
    destruct (Z.eqb_spec (idProduct d) 0x00f3); [contradiction|].
    destruct (Z.eqb_spec (idProduct d) 0x00f1); [contradiction | reflexivity].
Qed.

Lemma visit_all_passed_over ds : forall h t,
  Forall passed_over ds ->
  visit_all ds h t = (Next h, t ++ passing ds).
Proof.
  induction ds as [|d ds IH]; intros h t Hds.
  - simpl. rewrite app_nil_r. reflexivity.
  - inversion Hds as [|? ? Hd Hds']; subst.
    cbn [visit_all]. rewrite (visit_passed_over d h t Hd), IH by exact Hds'.
    unfold passing. cbn [flat_map]. rewrite <- app_assoc. reflexivity.
Qed.

Lemma visit_all_app pre : forall ds h t,
  visit_all (pre ++ ds) h t
  = match visit_all pre h t with
    | (Next h', t') => visit_all ds h' t'
    | other => other
    end.
Proof.
  induction pre as [|d pre IH]; intros ds h t; [reflexivity|].
  cbn [app visit_all]. destruct (visit d h t) as [[h'| | |] t']; auto.
Qed.

(** X19.  On a device list in which no entry is a readable device of vendor
    0x04b4 with product 0x00f3 or 0x00f1 the search opens nothing, reports
    nothing but the unreadable descriptors, and goes on past the loop with
    [dev_handle] as it was: when it was NULL it is still NULL, and no
    message says that no device was found. *)
Theorem search_without_device (ds : list device) (rest : list enumeration)
    (h : handle) (t : list io) :
  Forall passed_over ds ->
  search (Devices ds :: rest) h t = Found h (t ++ passing ds).
Proof.
  intros Hds. cbn [search]. rewrite visit_all_passed_over by exact Hds.
  reflexivity.
Qed.

Lemma visit_unprogrammed d h t :
  unprogrammed d ->
  visit d h t
  = if load_ret d =? 0 then
      (GotoSearch Stale,
       t ++ [Open d 0; LoadRam d 0; Stderr MsgFirmwareUpdated; Close d; Sleep 3])
    else
      (Next (Handle d),
       t ++ [Open d 0; LoadRam d (load_ret d); Stderr MsgUploadFailed]).
Proof.
  intros (Hr & Hv & Hp & Ho). unfold visit, upload, libusb_open.
  destruct (Z.ltb_spec (descriptor_ret d) 0); [lia|].
  rewrite Hv, Hp, Ho. simpl.
  destruct (Z.eqb_spec (load_ret d) 0) as [E|E].
  - rewrite E, <- !app_assoc. reflexivity.
  - rewrite <- !app_assoc. reflexivity.
Qed.

(** X20.  When the first entry the loop does not pass over is a device
    without firmware that opens and takes the firmware, the rest of that
    list is not looked at: the handle is closed and, after three seconds,
    the search starts over on the next device list, with [dev_handle] still
    holding the closed handle. *)
Theorem upload_restarts_search (pre post : list device) (d : device)
    (rest : list enumeration) (h : handle) (t : list io) :
  Forall passed_over pre ->
  unprogrammed d ->
  load_ret d = 0 ->
  search (Devices (pre ++ d :: post) :: rest) h t
  = search rest Stale
      (t ++ passing pre
         ++ [Open d 0; LoadRam d 0; Stderr MsgFirmwareUpdated; Close d; Sleep 3]).
Proof.
  intros Hpre Hd Hl. cbn [search].
  rewrite visit_all_app, visit_all_passed_over by exact Hpre.
  cbn [visit_all]. rewrite (visit_unprogrammed d) by exact Hd.
  rewrite Hl. simpl. rewrite <- app_assoc. reflexivity.
Qed.

Lemma visit_operational d h t :
  operational d ->
  visit d h t
  = (Next (Handle d),
     t ++ [Open d 0; KernelDriverActive d (driver_active d)]
       ++ if driver_active d =? 0 then []
          else [Stderr MsgKernelDriverActive; DetachKernelDriver d 0]).
Proof.
  intros (Hr & Hv & Hp & Ho & Hk). unfold visit, take_over, libusb_open.
  destruct (Z.ltb_spec (descriptor_ret d) 0); [lia|].
  rewrite Hv, Hp, Ho. simpl.
  destruct (Z.eqb_spec (driver_active d) 0) as [E|E].
  - rewrite <- !app_assoc. reflexivity.
  - destruct Hk as [Hk|Hk]; [contradiction|]. rewrite Hk. simpl.
    rewrite <- !app_assoc. reflexivity.
Qed.

(** X21.  When the only entry of the device list that the loop does not
    pass over is a device with firmware that opens, and that has no kernel
    driver or one that detaches, the search ends past the loop with
    [dev_handle] open on that device, wherever it stands in the list and
    whatever [dev_handle] was before. *)
Theorem search_finds_operational (pre post : list device) (d : device)
    (rest : list enumeration) (h : handle) (t : list io) :
  Forall passed_over pre ->
  Forall passed_over post ->
  operational d ->
  search (Devices (pre ++ d :: post) :: rest) h t
  = Found (Handle d)
      (t ++ passing pre
         ++ [Open d 0; KernelDriverActive d (driver_active d)]
         ++ (if driver_active d =? 0 then []
             else [Stderr MsgKernelDriverActive; DetachKernelDriver d 0])
         ++ passing post).
Proof.
  intros Hpre Hpost Hd. cbn [search].
  rewrite visit_all_app, visit_all_passed_over by exact Hpre.
  cbn [visit_all]. rewrite (visit_operational d) by exact Hd.
  rewrite visit_all_passed_over by exact Hpost.
  rewrite <- !app_assoc. reflexivity.
Qed.

Lemma demo_hub_passed_over : passed_over demo_hub.
Proof. right. left. discriminate. Qed.

Lemma search_without_device_witness :
  Forall passed_over [demo_hub; demo_hub] /\
  search [Devices [demo_hub; demo_hub]] NoHandle [] = Found NoHandle [].
Proof.
  assert (H : Forall passed_over [demo_hub; demo_hub])
    by (repeat (constructor; [apply demo_hub_passed_over|]); constructor).
  split; [exact H|].
  exact (search_without_device [demo_hub; demo_hub] [] NoHandle [] H).
Defined.

Lemma upload_restarts_search_witness :
  Forall passed_over [demo_hub] /\ unprogrammed demo_blank /\
  load_ret demo_blank = 0 /\
  search (Devices ([demo_hub] ++ demo_blank :: [demo_ready]) :: []) NoHandle []
  = Starved Stale
      [Open demo_blank 0; LoadRam demo_blank 0; Stderr MsgFirmwareUpdated;
       Close demo_blank; Sleep 3].
Proof.
  assert (H1 : Forall passed_over [demo_hub])
    by (repeat (constructor; [apply demo_hub_passed_over|]); constructor).
  assert (H2 : unprogrammed demo_blank)
    by (repeat split; (reflexivity || discriminate)).
  split; [exact H1|]. split; [exact H2|]. split; [reflexivity|].
  exact (upload_restarts_search [demo_hub] [demo_ready] demo_blank []
           NoHandle [] H1 H2 eq_refl).
Defined.

Lemma search_finds_operational_witness :
  Forall passed_over [demo_hub] /\ Forall passed_over [demo_hub; demo_hub] /\
  operational demo_ready /\
  search (Devices ([demo_hub] ++ demo_ready :: [demo_hub; demo_hub]) :: [])
    Stale []
  = Found (Handle demo_ready)
      [Open demo_ready 0; KernelDriverActive demo_ready 1;
       Stderr MsgKernelDriverActive; DetachKernelDriver demo_ready 0].
Proof.
  assert (H1 : Forall passed_over [demo_hub])
    by (repeat (constructor; [apply demo_hub_passed_over|]); constructor).
  assert (H2 : Forall passed_over [demo_hub; demo_hub])
    by (repeat (constructor; [apply demo_hub_passed_over|]); constructor).
  assert (H3 : operational demo_ready).
  { repeat split; try (reflexivity || discriminate). right. reflexivity. }
  split; [exact H1|]. split; [exact H2|]. split; [exact H3|].
  exact (search_finds_operational [demo_hub] [demo_hub; demo_hub] demo_ready []
           Stale [] H1 H2 H3).
Defined.

Lemma visit_opens d h t : opens d -> fst (visit d h t) <> BadHandle.
Proof.
  intros Hd. unfold visit.
  destruct (Z.ltb_spec (descriptor_ret d) 0); [discriminate|].
  destruct (Z.eqb_spec (idVendor d) 0x04b4) as [Hv|]; [|discriminate].
  destruct (Z.eqb_spec (idProduct d) 0x00f3) as [H3|H3].
  - unfold upload, libusb_open. rewrite (Hd ltac:(lia) Hv (or_introl H3)). simpl.
    destruct (load_ret d =? 0); simpl; [discriminate|].
    rewrite H3. simpl. discriminate.
  - destruct (Z.eqb_spec (idProduct d) 0x00f1) as [H1|H1]; [|discriminate].
    unfold take_over, libusb_open. rewrite (Hd ltac:(lia) Hv (or_intror H1)).
    simpl. destruct (driver_active d =? 0); [discriminate|].
    destruct (detach_ret d =? 0); discriminate.
Qed.

Lemma visit_all_opens ds : forall h t,
  Forall opens ds -> fst (visit_all ds h t) <> BadHandle.
Proof.
  induction ds as [|d ds IH]; intros h t Hds; [discriminate|].
  inversion Hds as [|? ? Hd Hds']; subst. cbn [visit_all].
  pose proof (visit_opens d h t Hd) as Hv.
  destruct (visit d h t) as [[h'| | |] t']; simpl in Hv; try discriminate.
  - apply IH, Hds'.
  - contradiction.
Qed.

Lemma search_all_open lists : forall h t t',
  Forall all_open lists -> search lists h t <> Undefined t'.
Proof.
  induction lists as [|e lists IH]; intros h t t' Hall; [discriminate|].
  inversion Hall as [|? ? He Hl]; subst.
  destruct e as [ds|]; [|contradiction]. cbn [search].
  pose proof (visit_all_opens ds h t He) as Hv.
  destruct (visit_all ds h t) as [[h'| | |] t1]; simpl in Hv; try discriminate.
  - apply IH, Hl.
  - contradiction.
Qed.

(** X22.  As long as every device list is returned and every entry the
    loop tries to open does open, the search never makes a call on a NULL or
    closed handle, whatever [dev_handle] holds at the start and however many
    times the firmware is loaded and the search starts over. *)
Theorem search_is_defined (lists : list enumeration) (h : handle)
    (t t' : list io) :
  Forall all_open lists -> search lists h t <> Undefined t'.
Proof. apply search_all_open. Qed.

Lemma search_is_defined_witness :
  Forall all_open [Devices [demo_hub; demo_blank]; Devices [demo_ready]] /\
  search [Devices [demo_hub; demo_blank]; Devices [demo_ready]] NoHandle []
  <> Undefined [].
Proof.
  assert (H : Forall all_open
                [Devices [demo_hub; demo_blank]; Devices [demo_ready]]).
  { repeat constructor; intros _ _ _; reflexivity. }
  split; [exact H|].
  exact (search_is_defined _ NoHandle [] [] H).
Defined.

End BringupMore.
